(** * Temporal reconciliation of trade fills: a shallow embedding

    The development follows the two Python services of the repository:

    - [backend/analyzer3.py]: the in-memory snapshot index of Polymarket
      best-bid/offer records ([PolymarketBBOProcessor]: [load_data],
      [get_polymarket_bbo_data]) and the time range loaded for a slug, the
      composite-key deduplication of fills ([deduplicate_fills]), the merge
      of a cached result set with an incrementally fetched one and the
      [cache_only] answer ([get_tradefeed]), and the Pinnacle lookup on
      shared records ([DeltasProcessor.get_deltas_data]);
    - [backend/main.py]: the retention cache of streamed orders
      ([_get_order_time_for_retention], [cleanup_old_orders],
      [store_order_in_history]), the delayed re-evaluation of the
      after-side observation ([handle_dome_message], [process_order_batch],
      [update_polymarket_after]), the live lookups on the rows a query
      returned ([_get_polymarket_bbo_before_sync],
      [_get_polymarket_bbo_after_sync]) and the league of a market slug
      ([normalize_league_name], [get_league_from_market_slug]).

    Python integers are [Z]; Python floats are read as exact rationals [Q]
    (no rounding error, no NaN, no infinities); dictionaries are finite maps
    or records; an exception that leaves a function is [None] in the option
    monad. *)

From Stdlib Require Import ZArith QArith Qround Qminmax Lqa Lia Ascii String
  List Bool.
From stdpp Require Import base option list gmap strings pretty sorting.

#[local] Set Warnings "-register-all".
#[local] Open Scope Z_scope.
#[local] Open Scope list_scope.

(* ================================================================== *)
(** * Python values *)
(* ================================================================== *)

Module Py.

(** JSON-shaped Python values.  A nested dictionary is kept as an
    association list read by its first matching key. *)
Inductive value : Type :=
| VNone
| VBool (b : bool)
| VInt (z : Z)
| VFloat (q : Q)
| VStr (s : string)
| VList (l : list value)
| VDict (d : list (string * value)).

(** [bool(v)]: Python truthiness. *)
Definition truthy (v : value) : bool :=
  match v with
  | VNone => false
  | VBool b => b
  | VInt z => negb (z =? 0)
  | VFloat q => negb (Qeq_bool q 0)
  | VStr s => negb (String.eqb s "")
  | VList l => match l with [] => false | _ => true end
  | VDict d => match d with [] => false | _ => true end
  end.

(** [a or b]. *)
Definition py_or (a b : value) : value := if truthy a then a else b.

(** [v is None]. *)
Definition is_none (v : value) : bool :=
  match v with VNone => true | _ => false end.

(** [isinstance(v, dict)]. *)
Definition is_dict (v : value) : bool :=
  match v with VDict _ => true | _ => false end.

(** The numeric reading shared by [bool], [int] and [float]. *)
Definition numeric (v : value) : option Q :=
  match v with
  | VBool b => Some (if b then 1 else 0)%Q
  | VInt z => Some (inject_Z z)
  | VFloat q => Some q
  | _ => None
  end.

(** [hash(v)] succeeds: lists and dictionaries are unhashable. *)
Definition hashable (v : value) : bool :=
  match v with
  | VList _ | VDict _ => false
  | _ => true
  end.

(** [a == b] on hashable values: numbers compare by value across [bool],
    [int] and [float]; strings by content; [None] only equals [None]. *)
Definition py_eqb (a b : value) : bool :=
  match numeric a, numeric b with
  | Some x, Some y => Qeq_bool x y
  | _, _ =>
      match a, b with
      | VNone, VNone => true
      | VStr s, VStr t => String.eqb s t
      | _, _ => false
      end
  end.

(** [d.get(k)] on a nested dictionary; a missing key reads as [None]. *)
Fixpoint assoc_get (k : string) (d : list (string * value)) : value :=
  match d with
  | [] => VNone
  | (k', v) :: d' => if String.eqb k k' then v else assoc_get k d'
  end.

(** [d.get(k, default)] on a nested dictionary. *)
Fixpoint assoc_get_default (k : string) (dflt : value)
    (d : list (string * value)) : value :=
  match d with
  | [] => dflt
  | (k', v) :: d' => if String.eqb k k' then v else assoc_get_default k dflt d'
  end.

(** [v.get(k)]: raises [AttributeError] when [v] is not a dictionary. *)
Definition attr_get (v : value) (k : string) : option value :=
  match v with
  | VDict d => Some (assoc_get k d)
  | _ => None
  end.

(** [v.get(k, default)], with the same failure. *)
Definition attr_get_default (v : value) (k : string) (dflt : value)
    : option value :=
  match v with
  | VDict d => Some (assoc_get_default k dflt d)
  | _ => None
  end.

(** A top-level dictionary with string keys. *)
Abbreviation dict := (gmap string value).

(** [d.get(k)] on a top-level dictionary. *)
Definition get (d : dict) (k : string) : value := default VNone (d !! k).

(** [d.get(k, dflt)]. *)
Definition get_default (d : dict) (k : string) (dflt : value) : value :=
  default dflt (d !! k).

(** [d.update(e)]: every key of [e] is written over [d]. *)
Definition update (d e : dict) : dict := e ∪ d.

(** ASCII white space as [str.strip] sees it. *)
Definition is_space (c : ascii) : bool :=
  let n := N_of_ascii c in
  ((9 <=? n) && (n <=? 13) || (28 <=? n) && (n <=? 32))%N.

Fixpoint lstrip (s : string) : string :=
  match s with
  | EmptyString => EmptyString
  | String c s' => if is_space c then lstrip s' else s
  end.

(** Drops trailing white space: a suffix made of white space only
    collapses to the empty string. *)
Fixpoint rstrip (s : string) : string :=
  match s with
  | EmptyString => EmptyString
  | String c s' =>
      match rstrip s' with
      | EmptyString => if is_space c then EmptyString else String c EmptyString
      | r => String c r
      end
  end.

(** [s.strip()] on ASCII text. *)
Definition strip (s : string) : string := rstrip (lstrip s).

Definition lower_ascii (c : ascii) : ascii :=
  let n := N_of_ascii c in
  if ((65 <=? n) && (n <=? 90))%N then ascii_of_N (n + 32) else c.

(** [s.lower()] on ASCII text. *)
Fixpoint lower (s : string) : string :=
  match s with
  | EmptyString => EmptyString
  | String c s' => String (lower_ascii c) (lower s')
  end.

(** [not l] for a list. *)
Definition is_empty {A : Type} (l : list A) : bool :=
  match l with [] => true | _ => false end.

(** [max(l, key=key)]: the first element whose key is the largest. *)
Fixpoint max_from {A : Type} (key : A -> Z) (best : A) (l : list A) : A :=
  match l with
  | [] => best
  | x :: l' => if key best <? key x then max_from key x l' else max_from key best l'
  end.

Definition py_max {A : Type} (key : A -> Z) (l : list A) : option A :=
  match l with
  | [] => None
  | x :: l' => Some (max_from key x l')
  end.

(** [min(l, key=key)]: the first element whose key is the smallest. *)
Fixpoint min_from {A : Type} (key : A -> Z) (best : A) (l : list A) : A :=
  match l with
  | [] => best
  | x :: l' => if key x <? key best then min_from key x l' else min_from key best l'
  end.

Definition py_min {A : Type} (key : A -> Z) (l : list A) : option A :=
  match l with
  | [] => None
  | x :: l' => Some (min_from key x l')
  end.

(** Where [x] goes in a list sorted in descending order: before the first
    entry whose key is not larger than its own. *)
Fixpoint insert_desc {A : Type} (lt : A -> A -> bool) (x : A) (l : list A)
    : list A :=
  match l with
  | [] => [x]
  | y :: l' => if lt x y then y :: insert_desc lt x l' else x :: l
  end.

(** [l.sort(key=..., reverse=True)]: descending, entries with equal keys
    in their original order. *)
Definition sort_desc {A : Type} (lt : A -> A -> bool) (l : list A) : list A :=
  foldr (insert_desc lt) [] l.

(** Neighbours in a list in descending order: the left one is not
    smaller. *)
Definition not_below {A : Type} (lt : A -> A -> bool) (a b : A) : Prop :=
  lt a b = false.

(** [int(q)]: truncation toward zero. *)
Definition py_int (q : Q) : Z :=
  if Qle_bool 0 q then Qfloor q else Qceiling q.

(** [a > b] where Python orders the two values: numbers with numbers,
    strings with strings (by code point).  Any other pair reads as a raised
    [TypeError]; the ordering of lists is outside the model. *)
Definition py_gt (a b : value) : option bool :=
  match numeric a, numeric b with
  | Some x, Some y => Some (negb (Qle_bool x y))
  | _, _ =>
      match a, b with
      | VStr s, VStr t => Some (String.ltb t s)
      | _, _ => None
      end
  end.

(** What the embedding takes from the Python runtime and its [datetime]
    library.  Each parser returns [None] where the Python call raises. *)
Class Runtime : Type := {
  (** [str(v)] for a float, a list or a dictionary. *)
  py_repr : value -> string;
  (** [float(s)] for a string [s]. *)
  float_of_str : string -> option Q;
  (** [int(s)] for a string [s]. *)
  int_of_str : string -> option Z;
  (** [datetime.fromisoformat(s.replace('Z', '+00:00')).timestamp()] *)
  iso_epoch_seconds : string -> option Q;
  (** The three-way parse of [fill_tx_ts] in [deduplicate_fills], ending in
      [int(dt_utc.timestamp() * 1000)]. *)
  fill_tx_ts_ms : string -> option Z;
  (** The same three-way parse in the [hours_back] filter of
      [get_tradefeed], as epoch seconds of the datetime it yields; [None]
      also where comparing that datetime with the cutoff raises. *)
  fill_tx_dt : string -> option Q
}.

(** [str(v)], which is also how an f-string renders [v]. *)
Definition py_str `{Runtime} (v : value) : string :=
  match v with
  | VNone => "None"
  | VBool true => "True"
  | VBool false => "False"
  | VInt z => pretty z
  | VStr s => s
  | _ => py_repr v
  end.

(** [float(v)]; [None] where it raises. *)
Definition py_float `{Runtime} (v : value) : option Q :=
  match v with
  | VStr s => float_of_str s
  | _ => numeric v
  end.

End Py.

(* ================================================================== *)
(** * analyzer3.py: the snapshot index of best-bid/offer records *)
(* ================================================================== *)

Module Analyzer3.
Import Py.

(** One entry of [PolymarketBBOProcessor.processed_data], as [load_data]
    builds it.  [timestamp] is epoch milliseconds; [timestamp_dt] stands for
    the ISO rendering of the row's datetime, absent when the row carries
    none. *)
Record bbo_record : Type := {
  timestamp : Z;
  timestamp_dt : option string;
  sport : option string;
  outcome : option string;
  game_slug : option string;
  bbo : option Q;
  best_bid : option Q;
  best_ask : option Q
}.

(** The ['polymarket_bbo_before'] dictionary.  [seconds_from_fill] is
    [round(time_diff / 1000.0, 3)]: [time_diff] is a whole number of
    milliseconds, so the quotient already has three decimals. *)
Record before_data : Type := {
  b_bbo : option Q;
  b_best_bid : option Q;
  b_best_ask : option Q;
  b_polymarket_timestamp : option string;
  b_seconds_from_fill : Q;
  b_time_relation : string
}.

(** The ['polymarket_bbo_after'] dictionary. *)
Record after_data : Type := {
  a_bbo : option Q;
  a_best_bid : option Q;
  a_best_ask : option Q;
  a_polymarket_timestamp : option string;
  a_seconds_from_fill : Q;
  a_time_relation : string;
  a_is_preferred : bool
}.

Record bbo_result : Type := {
  polymarket_bbo_before : option before_data;
  polymarket_bbo_after : option after_data
}.

(** [5 * 60 * 1000] *)
Definition time_window_ms : Z := 5 * 60 * 1000.

(** [10 * 1000] *)
Definition settle_delay_ms : Z := 10 * 1000.

(** [x.strip().lower() if x else ''] for a field that may be [None]. *)
Definition normalized_field (x : option string) : string :=
  match x with
  | Some s => if String.eqb s "" then "" else lower (strip s)
  | None => ""
  end.

(** The three lists the scan fills:
    [before_records], [after_records_all], [after_records_preferred]. *)
Record buckets : Type := {
  before_records : list bbo_record;
  after_records_all : list bbo_record;
  after_records_preferred : list bbo_record
}.

Definition empty_buckets : buckets :=
  {| before_records := []; after_records_all := [];
     after_records_preferred := [] |}.

(** The body of the [for record in self.processed_data] loop on one
    matching record. *)
Definition classify (fill_timestamp : Z) (r : bbo_record) (acc : buckets)
    : buckets :=
  let start_timestamp := fill_timestamp - time_window_ms in
  let after_timestamp_preferred := fill_timestamp + settle_delay_ms in
  let t := timestamp r in
  if (start_timestamp <=? t) && (t <=? fill_timestamp) then
    {| before_records := before_records acc ++ [r];
       after_records_all := after_records_all acc;
       after_records_preferred := after_records_preferred acc |}
  else if fill_timestamp <? t then
    {| before_records := before_records acc;
       after_records_all := after_records_all acc ++ [r];
       after_records_preferred :=
         if after_timestamp_preferred <=? t
         then after_records_preferred acc ++ [r]
         else after_records_preferred acc |}
  else acc.

(** [record_game_slug == game_slug_normalized and
     record_outcome == outcome_normalized] *)
Definition matches (game_slug_normalized outcome_normalized : string)
    (r : bbo_record) : bool :=
  String.eqb (normalized_field (game_slug r)) game_slug_normalized
  && String.eqb (normalized_field (outcome r)) outcome_normalized.

(** The three groups the loop sorts a record into, as tests: a record of
    the queried group within the window before the fill, after the fill,
    and at or past the settle delay. *)
Definition in_before (g o : string) (t : Z) (r : bbo_record) : bool :=
  matches g o r && (t - time_window_ms <=? timestamp r) && (timestamp r <=? t).

Definition in_after (g o : string) (t : Z) (r : bbo_record) : bool :=
  matches g o r && (t <? timestamp r) && (timestamp r <=? t + time_window_ms).

Definition in_preferred (g o : string) (t : Z) (r : bbo_record) : bool :=
  matches g o r && (t + settle_delay_ms <=? timestamp r)
  && (timestamp r <=? t + time_window_ms).

(** The loop over [processed_data]: a record whose timestamp is falsy is
    skipped ([continue]); the first record past [end_timestamp] ends the
    loop ([break]). *)
Fixpoint scan (game_slug_normalized outcome_normalized : string)
    (fill_timestamp : Z) (data : list bbo_record) (acc : buckets) : buckets :=
  match data with
  | [] => acc
  | r :: rest =>
      let end_timestamp := fill_timestamp + time_window_ms in
      if timestamp r =? 0 then
        scan game_slug_normalized outcome_normalized fill_timestamp rest acc
      else if end_timestamp <? timestamp r then acc
      else if matches game_slug_normalized outcome_normalized r then
        scan game_slug_normalized outcome_normalized fill_timestamp rest
          (classify fill_timestamp r acc)
      else
        scan game_slug_normalized outcome_normalized fill_timestamp rest acc
  end.

Definition make_before (fill_timestamp : Z) (closest_before : bbo_record)
    : before_data :=
  let time_diff := fill_timestamp - timestamp closest_before in
  {| b_bbo := bbo closest_before;
     b_best_bid := best_bid closest_before;
     b_best_ask := best_ask closest_before;
     b_polymarket_timestamp := timestamp_dt closest_before;
     b_seconds_from_fill := inject_Z time_diff / 1000;
     b_time_relation := "before" |}.

(** [is_preferred = time_diff >= 10.0], with [time_diff] the difference of
    two millisecond timestamps. *)
Definition make_after (fill_timestamp : Z) (closest_after : bbo_record)
    : after_data :=
  let time_diff := timestamp closest_after - fill_timestamp in
  {| a_bbo := bbo closest_after;
     a_best_bid := best_bid closest_after;
     a_best_ask := best_ask closest_after;
     a_polymarket_timestamp := timestamp_dt closest_after;
     a_seconds_from_fill := inject_Z time_diff / 1000;
     a_time_relation := "after";
     a_is_preferred := 10 <=? time_diff |}.

(** [closest_before = max(before_records, key=timestamp)] *)
Definition closest_before (b : buckets) : option bbo_record :=
  py_max timestamp (before_records b).

(** [after_records = preferred if preferred else all], then
    [closest_after = min(after_records, key=timestamp)]. *)
Definition closest_after (b : buckets) : option bbo_record :=
  let after_records :=
    match after_records_preferred b with
    | [] => after_records_all b
    | _ => after_records_preferred b
    end in
  py_min timestamp after_records.

Definition no_result : bbo_result :=
  {| polymarket_bbo_before := None; polymarket_bbo_after := None |}.

(** [PolymarketBBOProcessor.get_polymarket_bbo_data], with
    [self.processed_data] as the first argument. *)
Definition get_polymarket_bbo_data (processed_data : list bbo_record)
    (game_slug outcome : string) (fill_timestamp : Z) : bbo_result :=
  if String.eqb game_slug "" || String.eqb outcome "" || (fill_timestamp =? 0)
  then no_result
  else match processed_data with
  | [] => no_result
  | _ =>
      let b := scan (lower (strip game_slug)) (lower (strip outcome))
                 fill_timestamp processed_data empty_buckets in
      {| polymarket_bbo_before := make_before fill_timestamp <$> closest_before b;
         polymarket_bbo_after := make_after fill_timestamp <$> closest_after b |}
  end.


(** A record of the queried group observed at or past the settle delay and
    within the window after [t]. *)
Definition preferred_candidate (data : list bbo_record)
    (game_slug outcome : string) (t : Z) (r : bbo_record) : Prop :=
  In r data
  /\ matches (lower (strip game_slug)) (lower (strip outcome)) r = true
  /\ t + settle_delay_ms <= timestamp r
  /\ timestamp r <= t + time_window_ms.

(** A record of the queried group observed strictly after [t], within the
    window. *)
Definition after_candidate (data : list bbo_record)
    (game_slug outcome : string) (t : Z) (r : bbo_record) : Prop :=
  In r data
  /\ matches (lower (strip game_slug)) (lower (strip outcome)) r = true
  /\ t < timestamp r
  /\ timestamp r <= t + time_window_ms.

(* ------------------------------------------------------------------ *)
(** ** [deduplicate_fills] *)

(** A fill as [extract_fill_data] returns it. *)
Abbreviation fill := (gmap string value).

Section Dedup.
Context `{Runtime}.

(** A composite key [(timestamp_ms, internal_id, fill_value)]. *)
Definition composite : Type := value * value * Q.

(** Equality of two keys, component by component. *)
Definition composite_eqb (k1 k2 : composite) : bool :=
  let '(t1, i1, v1) := k1 in
  let '(t2, i2, v2) := k2 in
  py_eqb t1 t2 && py_eqb i1 i2 && Qeq_bool v1 v2.

(** [key in seen] *)
Definition seen_mem (k : composite) (seen : list composite) : bool :=
  existsb (composite_eqb k) seen.

(** The [try] block that derives [timestamp_ms] from [fill_tx_ts]: every
    exception inside it leaves [timestamp_ms = None], and every value that
    is not a string raises inside it. *)
Definition parse_fill_tx_ts (fill_tx_ts : value) : value :=
  match fill_tx_ts with
  | VStr s => match fill_tx_ts_ms s with Some ms => VInt ms | None => VNone end
  | _ => VNone
  end.

(** [fill.get('fill_tx_ts') or fill.get('full_trade_data', {}).get('fill_tx_ts')] *)
Definition get_fill_tx_ts (f : fill) : option value :=
  let a := get f "fill_tx_ts" in
  if truthy a then Some a
  else attr_get (get_default f "full_trade_data" (VDict [])) "fill_tx_ts".

(** Lines "Extract timestamp_ms". *)
Definition extract_timestamp_ms (f : fill) : option value :=
  let timestamp_ms := get f "timestamp_ms" in
  if is_none timestamp_ms then
    fill_tx_ts ← get_fill_tx_ts f;
    Some (if truthy fill_tx_ts then parse_fill_tx_ts fill_tx_ts else timestamp_ms)
  else Some timestamp_ms.

(** Lines "Extract internal_id". *)
Definition extract_internal_id (f : fill) : option value :=
  let full_trade := get_default f "full_trade_data" (VDict []) in
  a ← attr_get full_trade "id";
  b ← attr_get full_trade "internal_id";
  let internal_id := py_or a b in
  Some (if truthy internal_id then internal_id
        else py_or (get f "id") (get f "internal_id")).

(** [fill_value is None or fill_value == ''] *)
Definition none_or_empty (v : value) : bool :=
  match v with
  | VNone => true
  | VStr s => String.eqb s ""
  | _ => false
  end.

(** Lines "Extract fill_value" and "Convert fill_value to numeric". *)
Definition extract_fill_value (f : fill) : option Q :=
  let full_trade := get_default f "full_trade_data" (VDict []) in
  let fill_value := get f "Fill Value" in
  fill_value ←
    (if none_or_empty fill_value then
       last_fill_value ← attr_get_default full_trade "last_fill_value" (VDict []);
       match last_fill_value with
       | VDict d => Some (assoc_get "amount" d)
       | _ => Some last_fill_value
       end
     else Some fill_value);
  let fill_value := if none_or_empty fill_value then VInt 0 else fill_value in
  Some (if truthy fill_value then default 0%Q (py_float fill_value) else 0%Q).

(** The key of a fill: [None] where the loop body raises, [Some None] for a
    fill that cannot be keyed, [Some (Some k)] otherwise.  Building the
    tuple raises on an unhashable component once it is looked up in
    [seen]. *)
Definition composite_key (f : fill) : option (option composite) :=
  timestamp_ms ← extract_timestamp_ms f;
  internal_id ← extract_internal_id f;
  fill_value ← extract_fill_value f;
  if negb (is_none timestamp_ms) && negb (is_none internal_id) then
    if hashable timestamp_ms && hashable internal_id
    then Some (Some (timestamp_ms, internal_id, fill_value))
    else None
  else Some None.

(** The loop state: [seen], [unique_fills], [duplicates_count]. *)
Record dedup_state : Type := {
  seen : list composite;
  unique_fills : list fill;
  duplicates_count : nat
}.

(** One turn of [for fill in fills_data]. *)
Definition dedup_step (st : dedup_state) (f : fill) : option dedup_state :=
  k ← composite_key f;
  match k with
  | Some key =>
      if seen_mem key (seen st) then
        Some {| seen := seen st; unique_fills := unique_fills st;
                duplicates_count := S (duplicates_count st) |}
      else
        Some {| seen := key :: seen st; unique_fills := unique_fills st ++ [f];
                duplicates_count := duplicates_count st |}
  | None =>
      Some {| seen := seen st; unique_fills := unique_fills st ++ [f];
              duplicates_count := duplicates_count st |}
  end.

Fixpoint dedup_loop (st : dedup_state) (fills_data : list fill)
    : option dedup_state :=
  match fills_data with
  | [] => Some st
  | f :: rest => st' ← dedup_step st f; dedup_loop st' rest
  end.

Definition deduplicate_fills (fills_data : list fill) : option (list fill) :=
  match fills_data with
  | [] => Some []
  | _ =>
      unique_fills <$>
        dedup_loop {| seen := []; unique_fills := []; duplicates_count := 0 |}
          fills_data
  end.

(** A fill for which no composite key is formed. *)
Definition keyless (f : fill) : bool :=
  match composite_key f with
  | Some None => true
  | _ => false
  end.

(** The fills the loop appends when it starts from [seen]: the loop as a
    recursive function, for fills whose key extraction does not raise. *)
Fixpoint unique_from (seen : list composite) (fills_data : list fill)
    : list fill :=
  match fills_data with
  | [] => []
  | f :: rest =>
      match composite_key f with
      | Some (Some key) =>
          if seen_mem key seen then unique_from seen rest
          else f :: unique_from (key :: seen) rest
      | _ => f :: unique_from seen rest
      end
  end.

(** The keys the loop has seen once it has gone through [fills_data]. *)
Fixpoint seen_after (seen : list composite) (fills_data : list fill)
    : list composite :=
  match fills_data with
  | [] => seen
  | f :: rest =>
      match composite_key f with
      | Some (Some key) =>
          if seen_mem key seen then seen_after seen rest
          else seen_after (key :: seen) rest
      | _ => seen_after seen rest
      end
  end.

(** No two fills of the list carry equal composite keys. *)
Inductive distinct_keys : list fill -> Prop :=
| distinct_nil : distinct_keys []
| distinct_cons (f : fill) (l : list fill) :
    (forall g k k', In g l -> composite_key f = Some (Some k) ->
                    composite_key g = Some (Some k') ->
                    composite_eqb k k' = false) ->
    distinct_keys l -> distinct_keys (f :: l).

End Dedup.

(* ------------------------------------------------------------------ *)
(** ** [get_tradefeed]: merging the cache with an incremental fetch *)

Section Merge.
Context `{Runtime}.

(** [full_trade.get('id') or full_trade.get('internal_id')] of one cached
    fill. *)
Definition trade_id (f : fill) : option value :=
  let full_trade := get_default f "full_trade_data" (VDict []) in
  a ← attr_get full_trade "id";
  b ← attr_get full_trade "internal_id";
  Some (py_or a b).

(** One turn of the loop that looks for the largest cached id. *)
Definition max_id_step (max_id : value) (f : fill) : option value :=
  tid ← trade_id f;
  if truthy tid then
    if is_none max_id then Some tid
    else is_larger ← py_gt tid max_id;
         Some (if is_larger : bool then tid else max_id)
  else Some max_id.

Fixpoint max_id_loop (max_id : value) (cached_data : list fill) : option value :=
  match cached_data with
  | [] => Some max_id
  | f :: rest => m ← max_id_step max_id f; max_id_loop m rest
  end.

(** [incremental_last_id]: the largest truthy id of the cache, else
    [None]. *)
Definition incremental_last_id (cached_data : list fill) : option value :=
  max_id ← max_id_loop VNone cached_data;
  Some (if truthy max_id then max_id else VNone).

(** The [try] block of the [hours_back] filter, for a truthy [fill_tx_ts]:
    the fill is appended when its datetime is at or after the cutoff, and
    also when anything in the block raises. *)
Definition within_hours (cutoff_time : Q) (fill_tx_ts : value) : bool :=
  match fill_tx_ts with
  | VStr s =>
      match fill_tx_dt s with
      | Some fill_dt => Qle_bool cutoff_time fill_dt
      | None => true
      end
  | _ => true
  end.

(** The body of [for fill in fill_data] in the filter. *)
Fixpoint hours_loop (cutoff_time : Q) (fill_data filtered : list fill)
    : option (list fill) :=
  match fill_data with
  | [] => Some filtered
  | f :: rest =>
      fill_tx_ts ← get_fill_tx_ts f;
      hours_loop cutoff_time rest
        (if truthy fill_tx_ts && within_hours cutoff_time fill_tx_ts
         then filtered ++ [f] else filtered)
  end.

(** The [hours_back] filter.  Its [else] belongs to the [for]: once the
    loop ends, the fill the loop variable is bound to is appended once more.
    That is the last fill of [fill_data], or the last cached fill (left
    bound by the id loop) when [fill_data] is empty; with neither the name
    is unbound and the function raises. *)
Definition hours_filter (now : Q) (hours_back : Z)
    (cached_data fill_data : list fill) : option (list fill) :=
  let cutoff_time := (now - inject_Z hours_back * 3600)%Q in
  filtered ← hours_loop cutoff_time fill_data [];
  loop_var ← last (cached_data ++ fill_data);
  Some (filtered ++ [loop_var]).

(** [x.get('fill_tx_ts', '')] as a sort key: a string.  Keys of another
    type are outside the model and read as a raised [TypeError]. *)
Definition sort_key (f : fill) : option string :=
  match get_default f "fill_tx_ts" (VStr "") with
  | VStr s => Some s
  | _ => None
  end.

Definition fill_lt (a b : fill) : bool :=
  match sort_key a, sort_key b with
  | Some s, Some t => String.ltb s t
  | _, _ => false
  end.

(** [fill_data.sort(key=lambda x: x.get('fill_tx_ts', ''), reverse=True)];
    a list of fewer than two fills is never compared. *)
Definition sort_fills (fill_data : list fill) : option (list fill) :=
  match fill_data with
  | [] | [_] => Some fill_data
  | _ =>
      if forallb (λ f, bool_decide (is_Some (sort_key f))) fill_data
      then Some (sort_desc fill_lt fill_data)
      else None
  end.

(** [get_tradefeed] from "Get last_internal_id from cached data" to
    "Sorting complete": [fill_data] is what [read_fill_data] returned,
    [hours_back] the request parameter, [now] the clock of the filter. *)
Definition merge_tradefeed (now : Q) (hours_back : option Z)
    (cached_data fill_data : list fill) : option (list fill) :=
  incremental ← incremental_last_id cached_data;
  let fill_data :=
    if truthy incremental && negb (is_empty cached_data)
    then cached_data ++ fill_data else fill_data in
  fill_data ←
    match hours_back with
    | Some h => if h =? 0 then Some fill_data
                else hours_filter now h cached_data fill_data
    | None => Some fill_data
    end;
  fill_data ← deduplicate_fills fill_data;
  sort_fills fill_data.

(** The request merges the cache into the fetch: the id scan returned a
    truthy id and the cache is not empty. *)
Definition is_incremental (cached_data : list fill) : bool :=
  match incremental_last_id cached_data with
  | Some incremental => truthy incremental && negb (is_empty cached_data)
  | None => false
  end.

End Merge.

End Analyzer3.

(* ================================================================== *)
(** * main.py: the retention cache and the delayed after-lookups *)
(* ================================================================== *)

Module Main.
Import Py.

(** An order as the event source delivers it, with the fields the
    pipeline adds. *)
Abbreviation order := (gmap string value).

Section Cache.
Context `{Runtime}.

Definition MAX_ORDER_AGE_HOURS : Z := 48.
Definition MAX_ORDER_HISTORY : nat := 4000.


(** [_get_order_time_for_retention]: epoch seconds, preferring
    [received_at]. *)
Definition _get_order_time_for_retention (o : order) : Q :=
  let received_at := get o "received_at" in
  let parsed :=
    if truthy received_at then iso_epoch_seconds (py_str received_at)
    else None in
  match parsed with
  | Some t => t
  | None =>
      let raw_timestamp := get_default o "timestamp" (VInt 0) in
      match py_float raw_timestamp with
      | Some ts =>
          if negb (Qle_bool ts (inject_Z (10 ^ 12))) then (ts / 1000)%Q else ts
      | None => 0%Q
      end
  end.

(** [cutoff_time] of [cleanup_old_orders] at clock reading [now]. *)
Definition cutoff_time (now : Q) : Q :=
  (now - inject_Z (MAX_ORDER_AGE_HOURS * 60 * 60))%Q.

(** [_get_order_time_for_retention(order) > cutoff_time] *)
Definition is_recent (now : Q) (o : order) : bool :=
  negb (Qle_bool (_get_order_time_for_retention o) (cutoff_time now)).

(** [cleanup_old_orders], from [order_history] to its new value. *)
Definition cleanup_old_orders (now : Q) (order_history : list order)
    : list order :=
  match order_history with
  | [] => order_history
  | _ => List.filter (is_recent now) order_history
  end.

(** [f"{order.get('tx_hash')}_{order.get('log_index')}"] *)
Definition order_id_of (o : order) : string :=
  py_str (get o "tx_hash") +:+ "_" +:+ py_str (get o "log_index").

(** The [enumerate] loop of [store_order_in_history]: the index of the
    first entry with this id, counting from [i]. *)
Fixpoint find_existing (order_id : string) (i : nat)
    (order_history : list order) : option nat :=
  match order_history with
  | [] => None
  | existing_order :: rest =>
      if String.eqb (order_id_of existing_order) order_id then Some i
      else find_existing order_id (S i) rest
  end.

(** The sort key comparison of [order_history.sort]. *)
Definition older (a b : order) : bool :=
  negb (Qle_bool (_get_order_time_for_retention b)
                 (_get_order_time_for_retention a)).

(** The entry list after the update-or-append, before the sort. *)
Definition upsert (order_data : order) (order_history : list order)
    : list order :=
  match find_existing (order_id_of order_data) 0 order_history with
  | Some existing_index =>
      alter (λ existing, update existing order_data) existing_index
        order_history
  | None => order_history ++ [order_data]
  end.

(** [order_history[:MAX_ORDER_HISTORY]] when the list is longer. *)
Definition truncate (order_history : list order) : list order :=
  if (MAX_ORDER_HISTORY <? length order_history)%nat
  then take MAX_ORDER_HISTORY order_history
  else order_history.

(** [store_order_in_history], from [order_history] to its new value. *)
Definition store_order_in_history (now : Q) (order_data : order)
    (order_history : list order) : list order :=
  truncate (sort_desc older (upsert order_data (cleanup_old_orders now order_history))).

(** The retention horizon in seconds, and the age of an order at clock
    reading [now]. *)
Definition horizon_seconds : Q := inject_Z (MAX_ORDER_AGE_HOURS * 60 * 60).

Definition retention_age (now : Q) (o : order) : Q :=
  (now - _get_order_time_for_retention o)%Q.

(** A run of cache writes, each at its own clock reading, oldest first. *)
Definition store_all (writes : list (Q * order)) (order_history : list order)
    : list order :=
  foldl (λ h w, store_order_in_history w.1 w.2 h) order_history writes.

(** The order [handle_dome_message] builds from an event: the payload
    [data['data']] with the subscription id, the reception time and the six
    enrichment fields initialised to [None]. *)
Definition dome_order (payload : order) (subscription_id : value)
    (received_at : string) : order :=
  <["pinnacle_sportbook" := VNone]>
  (<["pinnacle_after" := VNone]>
  (<["pinnacle_before" := VNone]>
  (<["sportbook" := VNone]>
  (<["polymarket_after" := VNone]>
  (<["polymarket_before" := VNone]>
  (<["received_at" := VStr received_at]>
  (<["subscription_id" := subscription_id]> payload))))))).

End Cache.

(* ------------------------------------------------------------------ *)
(** ** The delayed after-lookups of streamed orders *)

Section Scheduler.
Context `{Runtime}.

(** What [_get_polymarket_bbo_before_sync] and
    [_get_polymarket_bbo_after_sync] return when they find a row. *)
Record polymarket_bbo : Type := {
  pm_bbo : Q;
  pm_best_bid : option Q;
  pm_best_ask : option Q;
  pm_spread : option Q;
  pm_seconds_from_fill : Q;
  pm_timestamp : option string
}.

(** What [_normalize_deltas_record] returns. *)
Record pinnacle_bbo : Type := {
  pn_bbo : option Q;
  pn_percentage : value;
  pn_total_spread : value;
  pn_opponent_percentage : value;
  pn_team : value;
  pn_opposing_team : value;
  pn_seconds_from_fill : option Q;
  pn_timestamp : option string
}.

Definition float_or_none (q : option Q) : value :=
  match q with Some x => VFloat x | None => VNone end.

Definition str_or_none (s : option string) : value :=
  match s with Some x => VStr x | None => VNone end.

(** The dictionary a Polymarket lookup returns, or [None]. *)
Definition polymarket_value (r : option polymarket_bbo) : value :=
  match r with
  | None => VNone
  | Some r =>
      VDict [("bbo", VFloat (pm_bbo r));
             ("best_bid", float_or_none (pm_best_bid r));
             ("best_ask", float_or_none (pm_best_ask r));
             ("spread", float_or_none (pm_spread r));
             ("seconds_from_fill", VFloat (pm_seconds_from_fill r));
             ("timestamp", str_or_none (pm_timestamp r))]
  end.

(** The dictionary a Pinnacle lookup returns, or [None]. *)
Definition pinnacle_value (r : option pinnacle_bbo) : value :=
  match r with
  | None => VNone
  | Some r =>
      VDict [("bbo", float_or_none (pn_bbo r));
             ("percentage", pn_percentage r);
             ("total_spread", pn_total_spread r);
             ("opponent_percentage", pn_opponent_percentage r);
             ("team", pn_team r);
             ("opposing_team", pn_opposing_team r);
             ("seconds_from_fill", float_or_none (pn_seconds_from_fill r));
             ("timestamp", str_or_none (pn_timestamp r));
             ("source", VStr "pinnacle")]
  end.

(** One entry of [pending_updates].  [p_order_data] is the address of the
    order dictionary, which the batch and the delayed tasks share. *)
Record pending_info : Type := {
  p_order_data : nat;
  p_market_slug : value;
  p_token_label : string;
  p_timestamp_ms : Z
}.

(** The process state the streaming pipeline works on.  [heap] holds the
    order dictionaries by address; [emitted] lists the ['order-update']
    broadcasts, oldest first; [scheduled] lists the delayed tasks created,
    oldest first; [lookups] lists the after-side lookups executed, as
    (order id, delay), oldest first. *)
Record state : Type := {
  heap : list order;
  pending_updates : gmap string pending_info;
  order_history : list order;
  emitted : list order;
  scheduled : list (string * Z);
  lookups : list (string * Z)
}.

Definition deref (st : state) (a : nat) : order := default ∅ (heap st !! a).

Definition set_heap (st : state) (a : nat) (o : order) : state :=
  {| heap := <[a := o]> (heap st);
     pending_updates := pending_updates st;
     order_history := order_history st;
     emitted := emitted st;
     scheduled := scheduled st;
     lookups := lookups st |}.

(** [store_order_in_history(order_data)] followed by
    [sio.emit('order-update', order_data)]. *)
Definition store_and_emit (now : Q) (a : nat) (st : state) : state :=
  {| heap := heap st;
     pending_updates := pending_updates st;
     order_history := store_order_in_history now (deref st a) (order_history st);
     emitted := emitted st ++ [deref st a];
     scheduled := scheduled st;
     lookups := lookups st |}.

(** The [sportbook] dictionary built from a bid taken from an after
    result: [None] for a falsy bid; the subtraction raises when the fill
    price is not a number. *)
Definition sportbook_of (fill_price : value) (bid : option Q) : option value :=
  match bid with
  | Some b =>
      if Qeq_bool b 0 then Some VNone
      else
        p ← numeric fill_price;
        let price_diff := (p - b)%Q in
        Some (VDict [("best_bid", VFloat b);
                     ("fill_price", fill_price);
                     ("price_diff", VFloat price_diff);
                     ("price_diff_pct",
                      if negb (Qle_bool b 0) then VFloat (price_diff * 100)
                      else VInt 0)])
  | None => Some VNone
  end.

(** The branch [if polymarket_after or pinnacle_after] of
    [update_polymarket_after] on the order dictionary: the result and
    whether the branch ran to its end ([false]: an exception left it). *)
Definition record_after (polymarket_after : option polymarket_bbo)
    (pinnacle_after : option pinnacle_bbo) (order_data : order)
    : order * bool :=
  let o1 := <["pinnacle_after" := pinnacle_value pinnacle_after]>
            (<["polymarket_after" := polymarket_value polymarket_after]>
             order_data) in
  let fill_price := get_default o1 "price" (VInt 0) in
  match sportbook_of fill_price (polymarket_after ≫= pm_best_bid) with
  | None => (o1, false)
  | Some sportbook =>
      let o2 := <["sportbook" := sportbook]> o1 in
      match sportbook_of fill_price (pinnacle_after ≫= pn_bbo) with
      | None => (o2, false)
      | Some pinnacle_sportbook =>
          (<["pinnacle_sportbook" := pinnacle_sportbook]> o2, true)
      end
  end.

(** [has_any_after] *)
Definition has_any_after (order_data : order) : bool :=
  negb (is_none (get order_data "polymarket_after"))
  || negb (is_none (get order_data "pinnacle_after")).

(** [should_finalize] *)
Definition should_finalize (delay : Z) (order_data : order) : bool :=
  (120 <=? delay) || ((60 <=? delay) && has_any_after order_data).

(** The end of [update_polymarket_after]: the entry leaves
    [pending_updates] when [should_finalize] holds. *)
Definition finalize (order_id : string) (delay : Z) (a : nat) (st : state)
    : state :=
  if should_finalize delay (deref st a) then
    {| heap := heap st;
       pending_updates := delete order_id (pending_updates st);
       order_history := order_history st;
       emitted := emitted st;
       scheduled := scheduled st;
       lookups := lookups st |}
  else st.

Definition log_lookup (order_id : string) (delay : Z) (st : state) : state :=
  {| heap := heap st;
     pending_updates := pending_updates st;
     order_history := order_history st;
     emitted := emitted st;
     scheduled := scheduled st;
     lookups := lookups st ++ [(order_id, delay)] |}.

(** [update_polymarket_after(order_id, delay)] once its sleep has ended, at
    clock reading [now].  [polymarket_after] and [pinnacle_after] are what
    the two awaited after-lookups return; they are only consulted when the
    order is still pending. *)
Definition update_polymarket_after (now : Q) (order_id : string) (delay : Z)
    (polymarket_after : option polymarket_bbo)
    (pinnacle_after : option pinnacle_bbo) (st : state) : state :=
  match pending_updates st !! order_id with
  | None => st
  | Some update_info =>
      let a := p_order_data update_info in
      let st := log_lookup order_id delay st in
      if truthy (polymarket_value polymarket_after)
         || truthy (pinnacle_value pinnacle_after)
      then
        let '(o, completed) :=
          record_after polymarket_after pinnacle_after (deref st a) in
        let st := set_heap st a o in
        if completed then finalize order_id delay a (store_and_emit now a st)
        else st
      else finalize order_id delay a st
  end.

(** [s * n] for a string. *)
Fixpoint str_repeat (s : string) (n : nat) : string :=
  match n with
  | O => ""
  | S n' => s +:+ str_repeat s n'
  end.

(** [int(timestamp * 1000)]: a number is scaled and truncated; a string is
    repeated and then read as an integer; anything else raises. *)
Definition scaled_ms (timestamp : value) : option Z :=
  match timestamp with
  | VStr s => int_of_str (str_repeat s 1000)
  | _ => q ← numeric timestamp; Some (py_int (q * 1000))
  end.

(** [order_data.get('token_label', '').strip()] *)
Definition token_label_of (order_data : order) : option string :=
  match get_default order_data "token_label" (VStr "") with
  | VStr s => Some (strip s)
  | _ => None
  end.

(** A coroutine [fetch_before_for_order(od, ms, tl, ts)] waiting in
    [tasks]. *)
Record before_task : Type := {
  t_order_data : nat;
  t_market_slug : value;
  t_token_label : string;
  t_timestamp_ms : Z
}.

(** The first loop of [process_order_batch] on one order: the Before task
    is queued, the order is entered in [pending_updates] and its three
    delayed tasks are created.  [None]: the loop body raised. *)
Definition register_order (a : nat) (acc : state * list before_task)
    : option (state * list before_task) :=
  let '(st, tasks) := acc in
  let order_data := deref st a in
  let market_slug := get order_data "market_slug" in
  token_label ← token_label_of order_data;
  let timestamp := get order_data "timestamp" in
  if truthy market_slug && negb (String.eqb token_label "") && truthy timestamp
  then
    timestamp_ms ← scaled_ms timestamp;
    let order_id := order_id_of order_data in
    Some ({| heap := heap st;
             pending_updates :=
               <[order_id := {| p_order_data := a;
                                p_market_slug := market_slug;
                                p_token_label := token_label;
                                p_timestamp_ms := timestamp_ms |}]>
                 (pending_updates st);
             order_history := order_history st;
             emitted := emitted st;
             scheduled := scheduled st ++
               [(order_id, 10); (order_id, 60); (order_id, 120)];
             lookups := lookups st |},
          tasks ++ [{| t_order_data := a; t_market_slug := market_slug;
                       t_token_label := token_label;
                       t_timestamp_ms := timestamp_ms |}])
  else Some acc.

(** The first loop over the batch; an exception ends it and leaves what
    the earlier turns did. *)
Fixpoint register_all (orders : list nat) (acc : state * list before_task)
    : state * option (list before_task) :=
  match orders with
  | [] => (acc.1, Some acc.2)
  | a :: rest =>
      match register_order a acc with
      | Some acc' => register_all rest acc'
      | None => (acc.1, None)
      end
  end.

(** The two Before lookups, by market slug, token label and fill time. *)
Record before_lookups : Type := {
  get_polymarket_bbo_before : value -> string -> Z -> option polymarket_bbo;
  get_pinnacle_before : value -> string -> Z -> option pinnacle_bbo
}.

(** [fetch_before_for_order] *)
Definition fetch_before_for_order (db : before_lookups) (t : before_task)
    (st : state) : state :=
  let a := t_order_data t in
  let polymarket_before :=
    polymarket_value (get_polymarket_bbo_before db (t_market_slug t)
                        (t_token_label t) (t_timestamp_ms t)) in
  let pinnacle_before :=
    pinnacle_value (get_pinnacle_before db (t_market_slug t)
                      (t_token_label t) (t_timestamp_ms t)) in
  let o := <["pinnacle_before" := pinnacle_before]>
           (<["polymarket_before" := polymarket_before]> (deref st a)) in
  let st := set_heap st a o in
  if truthy polymarket_before || truthy pinnacle_before then
    {| heap := heap st;
       pending_updates := pending_updates st;
       order_history := order_history st;
       emitted := emitted st ++ [o];
       scheduled := scheduled st;
       lookups := lookups st |}
  else st.

(** [process_order_batch(orders)] at clock reading [now]: the orders are
    fresh dictionaries, placed at the end of the heap.  The Before tasks
    are run one after the other, in the order they were queued. *)
Definition process_order_batch (now : Q) (db : before_lookups)
    (orders : list order) (st : state) : state :=
  let addresses := seq (length (heap st)) (length orders) in
  let st := {| heap := heap st ++ orders;
               pending_updates := pending_updates st;
               order_history := order_history st;
               emitted := emitted st;
               scheduled := scheduled st;
               lookups := lookups st |} in
  match register_all addresses (st, []) with
  | (st, None) => st
  | (st, Some tasks) =>
      let st := foldl (λ st t, fetch_before_for_order db t st) st tasks in
      foldl (λ st a, store_and_emit now a st) st addresses
  end.

(** The after-side lookups, by order id and delay: what
    [get_polymarket_bbo_after] and [get_pinnacle_after] return to the task
    that wakes after [delay] seconds. *)
Record after_lookups : Type := {
  get_polymarket_bbo_after : string -> Z -> option polymarket_bbo;
  get_pinnacle_after : string -> Z -> option pinnacle_bbo
}.

(** The delayed tasks [tasks], run one after the other in the order
    given (the order in which their sleeps end). *)
Definition run_delayed (now : Q) (db : after_lookups)
    (tasks : list (string * Z)) (st : state) : state :=
  foldl (λ st task,
           update_polymarket_after now task.1 task.2
             (get_polymarket_bbo_after db task.1 task.2)
             (get_pinnacle_after db task.1 task.2) st)
        st tasks.

Definition initial_state : state :=
  {| heap := []; pending_updates := ∅; order_history := [];
     emitted := []; scheduled := []; lookups := [] |}.

End Scheduler.

End Main.

(* ================================================================== *)
(** * Sample inputs *)
(* ================================================================== *)

Module Samples.
Import Py Analyzer3 Main.

(** ** A small runtime

    Enough of Python to run the samples: decimal integers, and ISO
    timestamps of 1 January 2024 (UTC) without a fractional part, written
    [2024-01-01THH:MM:SS] followed by [Z] or [+00:00]. *)

Definition digit (c : ascii) : option Z :=
  let n := N_of_ascii c in
  if ((48 <=? n) && (n <=? 57))%N then Some (Z.of_N n - 48) else None.

Fixpoint digits_from (acc : Z) (s : string) : option Z :=
  match s with
  | EmptyString => Some acc
  | String c s' => d ← digit c; digits_from (10 * acc + d) s'
  end.

Definition decimal (s : string) : option Z :=
  match s with
  | EmptyString => None
  | _ => digits_from 0 s
  end.

(** Epoch seconds of [2024-01-01T00:00:00Z]. *)
Definition new_year_2024 : Z := 1704067200.

Definition iso_2024 (s : string) : option Z :=
  if String.eqb (substring 0 11 s) "2024-01-01T"
     && String.eqb (substring 13 1 s) ":"
     && String.eqb (substring 16 1 s) ":"
     && (String.eqb (substring 19 (String.length s) s) "Z"
         || String.eqb (substring 19 (String.length s) s) "+00:00")
  then
    hh ← decimal (substring 11 2 s);
    mm ← decimal (substring 14 2 s);
    ss ← decimal (substring 17 2 s);
    Some (new_year_2024 + 3600 * hh + 60 * mm + ss)
  else None.

#[export] Instance sample_runtime : Runtime := {|
  py_repr := fun _ => "?";
  float_of_str := fun s => inject_Z <$> decimal s;
  int_of_str := decimal;
  iso_epoch_seconds := fun s => inject_Z <$> iso_2024 s;
  fill_tx_ts_ms := fun s => Z.mul 1000 <$> iso_2024 s;
  fill_tx_dt := fun s => inject_Z <$> iso_2024 s
|}.

(** ** A snapshot index *)

Definition observation (t : Z) (v : Q) : bbo_record :=
  {| timestamp := t; timestamp_dt := None; sport := Some "NBA";
     outcome := Some "Wizards"; game_slug := Some "nba-was-lac-2026-01-14";
     bbo := Some v; best_bid := Some v; best_ask := Some v |}.

(** Observations 5 seconds before and 11 seconds after a fill at
    [1000000]. *)
Definition index_settled : list bbo_record :=
  [observation 995000 0.40%Q; observation 1011000 0.45%Q].

(** A single observation 5 seconds after a fill at [1000000]. *)
Definition index_early : list bbo_record := [observation 1005000 0.42%Q].

(** ** Fills *)

Definition trade (id : Z) (fill_tx_ts : string) : value :=
  VDict [("id", VInt id); ("fill_tx_ts", VStr fill_tx_ts);
         ("side", VStr "Wizards")].

(** A fill as [extract_fill_data] builds it from a trade with an id. *)
Definition keyed_fill (id : Z) (fill_tx_ts : string) (ms : Z) (amount : Q)
    : fill :=
  {[ "Side" := VStr "Wizards";
     "Fill Value" := VFloat amount;
     "fill_tx_ts" := VStr fill_tx_ts;
     "timestamp_ms" := VInt ms;
     "full_trade_data" := trade id fill_tx_ts ]}.

(** A fill built from a trade that has neither id nor fill time. *)
Definition unkeyed_fill : fill :=
  {[ "Side" := VStr "Lakers";
     "Fill Value" := VFloat 12.5%Q;
     "fill_tx_ts" := VStr "";
     "timestamp_ms" := VNone;
     "full_trade_data" := VDict [("side", VStr "Lakers")] ]}.

(** A fill built from a trade that has a fill time but no id. *)
Definition anonymous_fill : fill :=
  {[ "Side" := VStr "Lakers";
     "Fill Value" := VFloat 7.5%Q;
     "fill_tx_ts" := VStr "2024-01-01T00:00:30Z";
     "timestamp_ms" := VInt 1704067230000;
     "full_trade_data" :=
       VDict [("fill_tx_ts", VStr "2024-01-01T00:00:30Z");
              ("side", VStr "Lakers")] ]}.

Definition fill_a : fill := keyed_fill 101 "2024-01-01T00:00:10Z" 1704067210000 25%Q.
Definition fill_b : fill := keyed_fill 102 "2024-01-01T00:00:20Z" 1704067220000 40%Q.

(** The same trade as [fill_a], fetched again with one more field. *)
Definition fill_a_again : fill := <["League" := VStr "NBA"]> fill_a.

(** ** Streamed orders *)

Definition payload : order :=
  {[ "tx_hash" := VStr "0xfeed";
     "log_index" := VInt 7;
     "market_slug" := VStr "nba-was-lac-2026-01-14";
     "token_label" := VStr "Wizards";
     "side" := VStr "BUY";
     "price" := VFloat 0.45%Q;
     "timestamp" := VInt 1704067200 ]}.

(** The order [handle_dome_message] queues for [payload]. *)
Definition streamed_order : order :=
  dome_order payload (VStr "sub-1") "2024-01-01T00:00:01+00:00".


Definition after_row : polymarket_bbo :=
  {| pm_bbo := 0.46%Q; pm_best_bid := Some 0.44%Q; pm_best_ask := Some 0.48%Q;
     pm_spread := Some 0.04%Q; pm_seconds_from_fill := 11%Q;
     pm_timestamp := Some "01/01/2024, 00:00:11" |}.


Definition no_before : before_lookups :=
  {| get_polymarket_bbo_before := fun _ _ _ => None;
     get_pinnacle_before := fun _ _ _ => None |}.

(** Every after lookup finds the same settled Polymarket row. *)
Definition settled_after : after_lookups :=
  {| get_polymarket_bbo_after := fun _ _ => Some after_row;
     get_pinnacle_after := fun _ _ => None |}.

Definition clock : Q := inject_Z (new_year_2024 + 600).

(** The state once the batch holding [streamed_order] has been
    processed. *)
Definition streamed_state : state :=
  process_order_batch clock no_before [streamed_order] initial_state.

(** ** A run of 4001 cache writes, one second apart *)

Definition digit_char (d : Z) : ascii := ascii_of_N (48 + Z.to_N d).

Definition two_digits (n : Z) : string :=
  String (digit_char (n / 10)) (String (digit_char (n mod 10)) EmptyString).

Definition clock_string (seconds : Z) : string :=
  "2024-01-01T" +:+ two_digits (seconds / 3600) +:+ ":"
  +:+ two_digits (seconds mod 3600 / 60) +:+ ":"
  +:+ two_digits (seconds mod 60) +:+ "+00:00".

Definition nth_order (i : nat) : order :=
  {[ "tx_hash" := VStr "0xfeed";
     "log_index" := VInt (Z.of_nat i);
     "received_at" := VStr (clock_string (Z.of_nat i));
     "timestamp" := VInt (new_year_2024 + Z.of_nat i) ]}.

Definition nth_write (i : nat) : Q * order :=
  (inject_Z (new_year_2024 + Z.of_nat i + 1), nth_order i).

Definition writes_4001 : list (Q * order) := map nth_write (seq 0 4001).

(** The log index read back from the id of one of these orders. *)
Definition order_index (order_id : string) : option Z :=
  decimal (substring 7 (String.length order_id) order_id).

(** The [pending_updates] entry of [streamed_order]. *)
Definition streamed_info : pending_info :=
  {| p_order_data := 0;
     p_market_slug := VStr "nba-was-lac-2026-01-14";
     p_token_label := "Wizards";
     p_timestamp_ms := 1704067200000 |}.

(** A fetch in which every fill has a composite key. *)
Definition keyed_fetch : list fill := [fill_b; fill_a_again].

(** Fills with a repeated key and a repeated keyless fill. *)
Definition mixed_fills : list fill :=
  [fill_a; unkeyed_fill; fill_b; fill_a_again; unkeyed_fill].

End Samples.

(* ------------------------------------------------------------------ *)
(** ** main.py: the registration test of [process_order_batch] *)

Module Batch.
Import Py Main.

Section Registration.
Context `{Runtime}.

(** [if market_slug and token_label and timestamp] in
    [process_order_batch]; an order whose token label is not a string never
    reaches the test. *)
Definition is_registered (order_data : order) : bool :=
  match token_label_of order_data with
  | Some token_label =>
      truthy (get order_data "market_slug")
      && negb (String.eqb token_label "")
      && truthy (get order_data "timestamp")
  | None => false
  end.

(** The three [asyncio.create_task(update_polymarket_after(order_id, ...))]
    calls for one order. *)
Definition delayed_tasks (order_data : order) : list (string * Z) :=
  let order_id := order_id_of order_data in
  [(order_id, 10); (order_id, 60); (order_id, 120)].

(** The first loop of [process_order_batch] runs through on this order:
    [.strip()] finds a string and [int(timestamp * 1000)] a number. *)
Definition registers_cleanly (order_data : order) : Prop :=
  is_Some (token_label_of order_data)
  /\ (is_registered order_data = true ->
      is_Some (scaled_ms (get order_data "timestamp"))).

(** The second loop of [process_order_batch] over the dictionaries
    [orders]. *)
Definition store_batch (now : Q) (orders history : list order) : list order :=
  foldl (λ h o, store_order_in_history now o h) history orders.

End Registration.
End Batch.

(* ------------------------------------------------------------------ *)
(** ** analyzer3.py: the [cache_only] branch of [get_tradefeed] *)

Module CacheOnly.
Import Py Analyzer3.

Section Filter.
Context `{Runtime}.

(** The loop of the [cache_only] branch of [get_tradefeed] that filters
    [cached_data] by [hours_back]: here the [else] belongs to
    [if fill_tx_ts], so a fill without a timestamp is appended. *)
Fixpoint cached_hours_loop (cutoff_time : Q) (cached_data filtered_data : list fill)
    : option (list fill) :=
  match cached_data with
  | [] => Some filtered_data
  | f :: rest =>
      fill_tx_ts ← get_fill_tx_ts f;
      cached_hours_loop cutoff_time rest
        (if truthy fill_tx_ts
         then (if within_hours cutoff_time fill_tx_ts
               then filtered_data ++ [f] else filtered_data)
         else filtered_data ++ [f])
  end.

(** The test the loop applies to a fill whose timestamp lookup returned
    [fill_tx_ts]. *)
Definition shown_from_cache (cutoff_time : Q) (f : fill) : bool :=
  match get_fill_tx_ts f with
  | Some fill_tx_ts =>
      negb (truthy fill_tx_ts) || within_hours cutoff_time fill_tx_ts
  | None => false
  end.

(** [if fill_tx_ts:] on the timestamp the lookup returns. *)
Definition has_timestamp (f : fill) : bool :=
  match get_fill_tx_ts f with
  | Some fill_tx_ts => truthy fill_tx_ts
  | None => false
  end.

End Filter.
End CacheOnly.

(* ------------------------------------------------------------------ *)
(** ** analyzer3.py: loading the snapshot index *)

Module IndexLoad.
Import Py Analyzer3.

(** A row of the [market_data] query of [PolymarketBBOProcessor.load_data]:
    numeric columns as the driver returns them, [None] for SQL [NULL]. *)
Record bbo_row : Type := {
  row_bbo : option Q;
  row_best_bid : option Q;
  row_best_ask : option Q;
  row_polymarket_timestamp : option string;
  row_timestamp_ms : option Q;
  row_sport : option string;
  row_outcome : option string;
  row_game_slug : option string
}.

(** [float(x) if x else None] *)
Definition float_if_truthy (x : option Q) : option Q :=
  match x with
  | Some q => if Qeq_bool q 0 then None else Some q
  | None => None
  end.

(** [int(row['timestamp_ms']) if row['timestamp_ms'] else None] *)
Definition row_timestamp (row : bbo_row) : option Z :=
  match row_timestamp_ms row with
  | Some q => if Qeq_bool q 0 then None else Some (py_int q)
  | None => None
  end.

(** The body of [for row in self.raw_data]: the record appended, if any. *)
Definition row_record (row : bbo_row) : option bbo_record :=
  match row_timestamp row with
  | Some timestamp_ms =>
      if timestamp_ms =? 0 then None
      else Some {| timestamp := timestamp_ms;
                   timestamp_dt := row_polymarket_timestamp row;
                   sport := row_sport row;
                   outcome := row_outcome row;
                   game_slug := row_game_slug row;
                   bbo := float_if_truthy (row_bbo row);
                   best_bid := float_if_truthy (row_best_bid row);
                   best_ask := float_if_truthy (row_best_ask row) |}
  | None => None
  end.

(** [l.sort(key=...)]: ascending, entries with equal keys in their original
    order.  Each entry is placed before the first one that is not smaller. *)
Definition sort_asc {A : Type} (lt : A -> A -> bool) (l : list A) : list A :=
  sort_desc (λ a b, lt b a) l.

(** [x.get('timestamp', 0) or 0] compared by [<]. *)
Definition timestamp_lt (a b : bbo_record) : bool := timestamp a <? timestamp b.

(** [self.processed_data] once [load_data] has processed and sorted
    [self.raw_data]. *)
Definition process_rows (raw_data : list bbo_row) : list bbo_record :=
  sort_asc timestamp_lt (omap row_record raw_data).

(** [5 * 60 * 1000] *)
Definition buffer_ms : Z := 5 * 60 * 1000.

(** [[f.get("timestamp_ms") for f in slug_fills if f.get("timestamp_ms")]] *)
Definition fill_timestamps (slug_fills : list fill) : list value :=
  List.filter truthy (map (λ f, get f "timestamp_ms") slug_fills).

(** The time range [process_single_market_slug_parallel] and
    [process_single_slug_deltas_parallel] load for one slug:
    [(start_timestamp, end_timestamp)], [Some None] where the slug is
    skipped for want of timestamps.  The timestamps are read as numbers;
    with any other value the subtraction or the comparison raises
    ([None]). *)
Definition slug_time_range (slug_fills : list fill) : option (option (Q * Q)) :=
  match fill_timestamps slug_fills with
  | [] => Some None
  | v :: vs =>
      x ← numeric v;
      xs ← mapM numeric vs;
      let min_timestamp := foldl Qmin x xs in
      let max_timestamp := foldl Qmax x xs in
      Some (Some (min_timestamp - inject_Z buffer_ms,
                  max_timestamp + inject_Z buffer_ms)%Q)
  end.

End IndexLoad.

(* ------------------------------------------------------------------ *)
(** ** main.py: the live Polymarket lookups *)

Module LiveLookup.
Import Py Main IndexLoad.

(** A row of the [market_data] queries of [_get_polymarket_bbo_before_sync]
    and [_get_polymarket_bbo_after_sync]; [r_polymarket_timestamp] stands
    for the row's datetime as [strftime('%m/%d/%Y, %H:%M:%S')] renders it. *)
Record market_row : Type := {
  r_bbo : option Q;
  r_best_bid : option Q;
  r_best_ask : option Q;
  r_polymarket_timestamp : option string;
  r_timestamp_ms : option Q
}.

(** The integer nearest to [q], ties to the even one. *)
Definition round_half_even (q : Q) : Z :=
  let f := Qfloor q in
  match ((q - inject_Z f) ?= 1 # 2)%Q with
  | Lt => f
  | Gt => f + 1
  | Eq => if Z.even f then f else f + 1
  end.

(** [round(q, ndigits)] *)
Definition py_round (q : Q) (ndigits : nat) : Q :=
  (inject_Z (round_half_even (q * inject_Z (10 ^ Z.of_nat ndigits)))
   / inject_Z (10 ^ Z.of_nat ndigits))%Q.

(** [a < b] on floats. *)
Definition Qlt_bool (a b : Q) : bool := negb (Qle_bool b a).

(** [[r for r in records if float(r['timestamp_ms']) < fill_timestamp]];
    [float(None)] raises. *)
Fixpoint before_records (fill_timestamp : Z) (records : list market_row)
    : option (list market_row) :=
  match records with
  | [] => Some []
  | r :: rest =>
      timestamp_ms ← r_timestamp_ms r;
      kept ← before_records fill_timestamp rest;
      Some (if Qlt_bool timestamp_ms (inject_Z fill_timestamp)
            then r :: kept else kept)
  end.

(** [max(l, key=key)] and [min(l, key=key)] with float keys that may fail
    to evaluate: the first element whose key is the largest (smallest). *)
Fixpoint max_from_float {A : Type} (key : A -> option Q) (best : A) (kb : Q)
    (l : list A) : option A :=
  match l with
  | [] => Some best
  | x :: l' =>
      kx ← key x;
      if Qlt_bool kb kx then max_from_float key x kx l'
      else max_from_float key best kb l'
  end.

Definition py_max_float {A : Type} (key : A -> option Q) (l : list A)
    : option (option A) :=
  match l with
  | [] => Some None
  | x :: l' => kx ← key x; Some <$> max_from_float key x kx l'
  end.

Fixpoint min_from_float {A : Type} (key : A -> option Q) (best : A) (kb : Q)
    (l : list A) : option A :=
  match l with
  | [] => Some best
  | x :: l' =>
      kx ← key x;
      if Qlt_bool kx kb then min_from_float key x kx l'
      else min_from_float key best kb l'
  end.

Definition py_min_float {A : Type} (key : A -> option Q) (l : list A)
    : option (option A) :=
  match l with
  | [] => Some None
  | x :: l' => kx ← key x; Some <$> min_from_float key x kx l'
  end.

(** The dictionary both functions return for the chosen row;
    [time_diff_ms] is the distance from the fill in milliseconds. *)
Definition row_result (closest : market_row) (time_diff_ms : Q -> Q)
    : option polymarket_bbo :=
  timestamp_ms_float ← r_timestamp_ms closest;
  let best_bid := float_if_truthy (r_best_bid closest) in
  let best_ask := float_if_truthy (r_best_ask closest) in
  bbo ← r_bbo closest;
  let spread :=
    match best_bid, best_ask with
    | Some b, Some a => Some (a - b)%Q
    | _, _ => None
    end in
  Some {| pm_bbo := bbo;
          pm_best_bid := best_bid;
          pm_best_ask := best_ask;
          pm_spread := (λ s, py_round s 4) <$> spread;
          pm_seconds_from_fill :=
            py_round (time_diff_ms timestamp_ms_float / 1000) 3;
          pm_timestamp := r_polymarket_timestamp closest |}.

(** [_get_polymarket_bbo_before_sync] from [records = cursor.fetchall()]
    on; an exception makes the function return [None]. *)
Definition polymarket_before_of (records : list market_row)
    (fill_timestamp : Z) : option polymarket_bbo :=
  match records with
  | [] => None
  | _ =>
      candidates ← before_records fill_timestamp records;
      chosen ← py_max_float r_timestamp_ms candidates;
      closest_before ← chosen;
      row_result closest_before (λ ts, inject_Z fill_timestamp - ts)%Q
  end.

(** [_get_polymarket_bbo_after_sync] from [records = cursor.fetchall()]
    on. *)
Definition polymarket_after_of (records : list market_row)
    (fill_timestamp : Z) : option polymarket_bbo :=
  match records with
  | [] => None
  | _ =>
      chosen ← py_min_float r_timestamp_ms records;
      closest_after ← chosen;
      row_result closest_after (λ ts, ts - inject_Z fill_timestamp)%Q
  end.

End LiveLookup.

(* ------------------------------------------------------------------ *)
(** ** analyzer3.py: [DeltasProcessor.get_deltas_data] *)

Module Deltas.
Import Py.

(** The ['timestamp'] field of a row: a [datetime], which [isoformat()]
    renders as [iso]; the string a lookup has put in its place; or [None]. *)
Inductive timestamp_field : Type :=
| Datetime (iso : string)
| IsoString (iso : string)
| NoTimestamp.

(** One dictionary of [DeltasProcessor.processed_data]: the columns of the
    [deltas] query that [get_deltas_data] reads, and the two keys it adds,
    absent until a lookup sets them. *)
Record deltas_record : Type := {
  d_team : option string;
  d_opposing_team : option string;
  d_timestamp_ms : Z;
  d_timestamp : timestamp_field;
  d_percentage : value;
  d_bbo_price : value;
  d_total_spread : value;
  d_opponent_percentage : option value;
  d_seconds_from_fill : option Q
}.

(** What [get_deltas_data] returns: its two entries are the dictionaries of
    [processed_data] themselves, named here by their position in it. *)
Record deltas_result : Type := {
  deltas_before : option nat;
  deltas_after : option nat
}.

Definition upper_ascii (c : ascii) : ascii :=
  let n := N_of_ascii c in
  if ((97 <=? n) && (n <=? 122))%N then ascii_of_N (n - 32) else c.

(** [s.upper()] on ASCII text. *)
Fixpoint upper (s : string) : string :=
  match s with
  | EmptyString => EmptyString
  | String c s' => String (upper_ascii c) (upper s')
  end.

(** [is_team_match]: [record.get('team') == team_name or
    record.get('team', '').upper() == team_name.upper()]; a [None] team is
    not equal to the name and has no [upper]. *)
Definition is_team_match (record : deltas_record) (team_name : string)
    : option bool :=
  match d_team record with
  | Some team =>
      Some (String.eqb team team_name
            || String.eqb (upper team) (upper team_name))
  | None => None
  end.

(** [[r for r in self.processed_data if is_team_match(r, team_name)]], as
    positions counted from [i]. *)
Fixpoint matching_from (team_name : string) (i : nat)
    (processed_data : list deltas_record) : option (list nat) :=
  match processed_data with
  | [] => Some []
  | r :: rest =>
      m ← is_team_match r team_name;
      l ← matching_from team_name (S i) rest;
      Some (if m : bool then i :: l else l)
  end.

(** [r.get('timestamp_ms', 0)] of the record at position [i]. *)
Definition timestamp_at (processed_data : list deltas_record) (i : nat) : Z :=
  default 0 (d_timestamp_ms <$> processed_data !! i).

(** [get_closest_record] *)
Definition get_closest_record (team_name : string) (target_timestamp : Z)
    (processed_data : list deltas_record) : option (option nat) :=
  candidate_records ← matching_from team_name 0 processed_data;
  Some (py_min (λ i, Z.abs (timestamp_at processed_data i - target_timestamp))
          candidate_records).

Definition set_opponent_percentage (v : value) (r : deltas_record)
    : deltas_record :=
  {| d_team := d_team r; d_opposing_team := d_opposing_team r;
     d_timestamp_ms := d_timestamp_ms r; d_timestamp := d_timestamp r;
     d_percentage := d_percentage r; d_bbo_price := d_bbo_price r;
     d_total_spread := d_total_spread r;
     d_opponent_percentage := Some v;
     d_seconds_from_fill := d_seconds_from_fill r |}.

(** The block "Add opponent percentage" for the chosen record at
    position [i]. *)
Definition add_opponent (i : nat) (processed_data : list deltas_record)
    : option (list deltas_record) :=
  match processed_data !! i with
  | Some chosen =>
      match d_opposing_team chosen with
      | Some opposing_team =>
          if String.eqb opposing_team "" then Some processed_data
          else
            opponent_record ←
              get_closest_record opposing_team (d_timestamp_ms chosen)
                processed_data;
            match opponent_record with
            | Some j =>
                match processed_data !! j with
                | Some opponent =>
                    Some (alter (set_opponent_percentage (d_percentage opponent))
                            i processed_data)
                | None => Some processed_data
                end
            | None => Some processed_data
            end
      | None => Some processed_data
      end
  | None => Some processed_data
  end.

(** The block "Add seconds_from_fill calculation": [time_diff] is a whole
    number of milliseconds, so [round(time_diff / 1000.0, 3)] is the
    quotient itself; a [datetime] is replaced by its ISO string. *)
Definition stamp (time_diff : Z) (r : deltas_record) : deltas_record :=
  {| d_team := d_team r; d_opposing_team := d_opposing_team r;
     d_timestamp_ms := d_timestamp_ms r;
     d_timestamp :=
       match d_timestamp r with
       | Datetime iso => IsoString iso
       | other => other
       end;
     d_percentage := d_percentage r; d_bbo_price := d_bbo_price r;
     d_total_spread := d_total_spread r;
     d_opponent_percentage := d_opponent_percentage r;
     d_seconds_from_fill := Some (inject_Z time_diff / 1000)%Q |}.

(** [DeltasProcessor.get_deltas_data], from [self.processed_data] to the
    result and the new content of [self.processed_data]; [None] where the
    method raises. *)
Definition get_deltas_data (team_abbr : string) (fill_timestamp : Z)
    (processed_data : list deltas_record)
    : option (deltas_result * list deltas_record) :=
  matching_records ← matching_from team_abbr 0 processed_data;
  match matching_records with
  | [] => Some ({| deltas_before := None; deltas_after := None |},
                processed_data)
  | _ =>
      let before_records :=
        List.filter (λ i, timestamp_at processed_data i <? fill_timestamp)
          matching_records in
      let after_records :=
        List.filter (λ i, fill_timestamp <? timestamp_at processed_data i)
          matching_records in
      let before := py_max (timestamp_at processed_data) before_records in
      let after := py_min (timestamp_at processed_data) after_records in
      data ← match before with
             | Some i => add_opponent i processed_data
             | None => Some processed_data
             end;
      data ← match after with
             | Some j => add_opponent j data
             | None => Some data
             end;
      let data :=
        match before with
        | Some i =>
            alter (λ r, stamp (fill_timestamp - d_timestamp_ms r) r) i data
        | None => data
        end in
      let data :=
        match after with
        | Some j =>
            alter (λ r, stamp (d_timestamp_ms r - fill_timestamp) r) j data
        | None => data
        end in
      Some ({| deltas_before := before; deltas_after := after |}, data)
  end.

(** The value a fill shows for a record it was given: the fill's
    ['deltas'] entry holds the record of [processed_data] itself. *)
Definition shown_seconds (processed_data : list deltas_record) (i : nat)
    : option Q :=
  processed_data !! i ≫= d_seconds_from_fill.

(** Two contents of [processed_data] that differ at most in the keys the
    lookups add or rewrite. *)
Definition same_rows : list deltas_record -> list deltas_record -> Prop :=
  Forall2 (λ r r',
    d_team r' = d_team r /\ d_opposing_team r' = d_opposing_team r
    /\ d_timestamp_ms r' = d_timestamp_ms r
    /\ d_percentage r' = d_percentage r).

End Deltas.

(* ------------------------------------------------------------------ *)
(** ** main.py: the league of a market slug *)

Module League.
Import Py Deltas.

(** [s.split('-')[0]]: the text before the first dash. *)
Fixpoint first_part (s : string) : string :=
  match s with
  | EmptyString => EmptyString
  | String c s' => if Ascii.eqb c "-" then EmptyString else String c (first_part s')
  end.

(** The keys of [league_map], each mapped to itself. *)
Definition league_map : list string :=
  ["NBA"; "NFL"; "MLB"; "NHL"; "ATP"; "WTA"]%string.

(** [normalize_league_name]; the argument is a string or [None]. *)
Definition normalize_league_name (league : option string) : option string :=
  match league with
  | Some s =>
      if String.eqb s "" then None
      else
        let league_upper := upper (strip s) in
        if existsb (String.eqb league_upper) league_map then Some league_upper
        else None
  | None => None
  end.

(** [get_league_from_market_slug] *)
Definition get_league_from_market_slug (market_slug : option string)
    : option string :=
  match market_slug with
  | Some s => if String.eqb s "" then None else Some (upper (first_part s))
  | None => None
  end.

(** [league = normalize_league_name(get_league_from_market_slug(market_slug))]
    at the head of [_get_pinnacle_bbo_sync]; with [None] the lookup returns
    [None] before it opens a connection. *)
Definition pinnacle_league (market_slug : option string) : option string :=
  normalize_league_name (get_league_from_market_slug market_slug).

End League.

(* ------------------------------------------------------------------ *)
(** ** Further sample data *)

Module MoreSamples.
Import Py Analyzer3 Main Samples Batch CacheOnly IndexLoad LiveLookup Deltas League.

(** A fill whose trade data arrived as text. *)
Definition broken_fill : fill := <["full_trade_data" := VStr "{}"]> fill_a.

(** The same instant carried in seconds and in milliseconds. *)
Definition seconds_order : order := {[ "timestamp" := VInt 1704067200 ]}.

Definition milliseconds_order : order :=
  {[ "timestamp" := VInt (1000 * 1704067200) ]}.

(** The streamed order with its price delivered as text. *)
Definition quoted_order : order :=
  dome_order (<["price" := VStr "0.45"]> payload) (VStr "sub-1")
    "2024-01-01T00:00:01+00:00".

Definition quoted_state : state :=
  process_order_batch clock no_before [quoted_order] initial_state.

(** The streamed order with a null token label, and without a market
    slug. *)
Definition unlabelled_order : order := <["token_label" := VNone]> streamed_order.

Definition slugless_order : order := delete "market_slug" streamed_order.

(** Rows of the live query around a fill at [1000000]. *)
Definition quote (timestamp_ms bbo : Q) : market_row :=
  {| r_bbo := Some bbo; r_best_bid := Some bbo;
     r_best_ask := Some (bbo + 0.02)%Q;
     r_polymarket_timestamp := None; r_timestamp_ms := Some timestamp_ms |}.

Definition quotes : list market_row :=
  [quote 1000500 0.47%Q; quote 1000000 0.46%Q; quote 999000.25%Q 0.45%Q].

Definition void_quote : market_row :=
  {| r_bbo := Some 0.45%Q; r_best_bid := None; r_best_ask := None;
     r_polymarket_timestamp := None; r_timestamp_ms := None |}.

(** Rows of the index query, the second one without a timestamp. *)
Definition index_rows : list bbo_row :=
  [ {| row_bbo := Some 0.45%Q; row_best_bid := Some 0.44%Q;
       row_best_ask := Some 0.46%Q; row_polymarket_timestamp := None;
       row_timestamp_ms := Some 1011000.25%Q; row_sport := Some "NBA";
       row_outcome := Some "wizards";
       row_game_slug := Some "nba-was-lac-2026-01-14" |};
    {| row_bbo := Some 0.5%Q; row_best_bid := None; row_best_ask := None;
       row_polymarket_timestamp := None; row_timestamp_ms := None;
       row_sport := Some "NBA"; row_outcome := Some "wizards";
       row_game_slug := Some "nba-was-lac-2026-01-14" |};
    {| row_bbo := Some 0.40%Q; row_best_bid := Some 0.39%Q;
       row_best_ask := Some 0.41%Q; row_polymarket_timestamp := None;
       row_timestamp_ms := Some 995000%Q; row_sport := Some "NBA";
       row_outcome := Some "wizards";
       row_game_slug := Some "nba-was-lac-2026-01-14" |} ].

(** Pinnacle lines of one game. *)
Definition line (team opposing_team : string) (timestamp_ms : Z)
    (percentage : Q) : deltas_record :=
  {| d_team := Some team; d_opposing_team := Some opposing_team;
     d_timestamp_ms := timestamp_ms; d_timestamp := Datetime "2024-01-01T00:00:00";
     d_percentage := VFloat percentage; d_bbo_price := VFloat (percentage / 100);
     d_total_spread := VFloat 2.5%Q;
     d_opponent_percentage := None; d_seconds_from_fill := None |}.

Definition lines : list deltas_record :=
  [line "LAL" "BOS" 900 52%Q; line "BOS" "LAL" 905 48%Q;
   line "LAL" "BOS" 3000 55%Q].

(** What a lookup returned, with nothing found and nothing loaded where it
    raised. *)
Definition outcome_of (x : option (deltas_result * list deltas_record))
    : deltas_result * list deltas_record :=
  default ({| deltas_before := None; deltas_after := None |}, []) x.

(** Lookups for fills at [1000] and at [2000], the second one on the
    records the first one left. *)
Definition first_lookup : deltas_result * list deltas_record :=
  outcome_of (get_deltas_data "LAL" 1000 lines).

Definition second_lookup : deltas_result * list deltas_record :=
  outcome_of (get_deltas_data "lal" 2000 first_lookup.2).

(** The second lookup, had it been the only one. *)
Definition lone_lookup : deltas_result * list deltas_record :=
  outcome_of (get_deltas_data "lal" 2000 lines).

End MoreSamples.

(* ================================================================== *)
(** * Properties of the snapshot index *)
(* ================================================================== *)

Section SnapshotIndex.
Import Py Analyzer3.

Implicit Types (r : bbo_record) (data : list bbo_record) (t : Z).

Lemma max_from_spec {A : Type} (key : A -> Z) (l : list A) (best : A) :
  let m := max_from key best l in
  (m = best \/ In m l) /\ key best <= key m
  /\ (forall x, In x l -> key x <= key m).
Proof.
  revert best; induction l as [|x l IH]; intros best; simpl.
  - split; [now left|]. split; [lia|]. intros x [].
  - destruct (Z.ltb_spec (key best) (key x)) as [Hlt|Hge].
    + destruct (IH x) as ([->|Hin] & Hle & Hall).
      * split; [right; now left|]. split; [lia|].
        intros y [<-|Hy]; [lia|]. now apply Hall.
      * split; [right; now right|]. split; [lia|].
        intros y [<-|Hy]; [exact Hle|]. now apply Hall.
    + destruct (IH best) as (Hm & Hle & Hall).
      split; [destruct Hm; [now left|right; now right]|].
      split; [exact Hle|].
      intros y [<-|Hy]; [lia|]. now apply Hall.
Qed.

Lemma min_from_spec {A : Type} (key : A -> Z) (l : list A) (best : A) :
  let m := min_from key best l in
  (m = best \/ In m l) /\ key m <= key best
  /\ (forall x, In x l -> key m <= key x).
Proof.
  revert best; induction l as [|x l IH]; intros best; simpl.
  - split; [now left|]. split; [lia|]. intros x [].
  - destruct (Z.ltb_spec (key x) (key best)) as [Hlt|Hge].
    + destruct (IH x) as ([->|Hin] & Hle & Hall).
      * split; [right; now left|]. split; [lia|].
        intros y [<-|Hy]; [lia|]. now apply Hall.
      * split; [right; now right|]. split; [lia|].
        intros y [<-|Hy]; [exact Hle|]. now apply Hall.
    + destruct (IH best) as (Hm & Hle & Hall).
      split; [destruct Hm; [now left|right; now right]|].
      split; [exact Hle|].
      intros y [<-|Hy]; [lia|]. now apply Hall.
Qed.

Lemma py_max_spec {A : Type} (key : A -> Z) (l : list A) :
  match py_max key l with
  | Some m => In m l /\ forall x, In x l -> key x <= key m
  | None => l = []
  end.
Proof.
  destruct l as [|x l]; simpl; [reflexivity|].
  destruct (max_from_spec key l x) as (Hm & Hle & Hall).
  split; [destruct Hm as [->|Hm]; [now left|now right]|].
  intros y [<-|Hy]; [exact Hle|now apply Hall].
Qed.

Lemma py_min_spec {A : Type} (key : A -> Z) (l : list A) :
  match py_min key l with
  | Some m => In m l /\ forall x, In x l -> key m <= key x
  | None => l = []
  end.
Proof.
  destruct l as [|x l]; simpl; [reflexivity|].
  destruct (min_from_spec key l x) as (Hm & Hle & Hall).
  split; [destruct Hm as [->|Hm]; [now left|now right]|].
  intros y [<-|Hy]; [exact Hle|now apply Hall].
Qed.

Lemma filter_none {A : Type} (f : A -> bool) (l : list A) :
  Forall (fun x => f x = false) l -> List.filter f l = [].
Proof.
  induction 1 as [|x l Hx _ IH]; simpl; [reflexivity|]. now rewrite Hx.
Qed.

Lemma past_window (g o : string) t r :
  t + time_window_ms < timestamp r ->
  in_before g o t r = false /\ in_after g o t r = false
  /\ in_preferred g o t r = false.
Proof.
  unfold in_before, in_after, in_preferred, time_window_ms. intros Hp.
  repeat split; apply andb_false_iff; right; apply Z.leb_gt; lia.
Qed.

Lemma classify_filters (g o : string) t r acc :
  matches g o r = true ->
  timestamp r <= t + time_window_ms ->
  classify t r acc =
    {| before_records :=
         before_records acc ++ (if in_before g o t r then [r] else []);
       after_records_all :=
         after_records_all acc ++ (if in_after g o t r then [r] else []);
       after_records_preferred :=
         after_records_preferred acc ++ (if in_preferred g o t r then [r] else []) |}.
Proof.
  intros Hm Hw.
  unfold classify, in_before, in_after, in_preferred, time_window_ms,
    settle_delay_ms in *.
  rewrite Hm; cbn [andb].
  destruct (Z.leb_spec (t - 5 * 60 * 1000) (timestamp r));
    destruct (Z.leb_spec (timestamp r) t);
    destruct (Z.ltb_spec t (timestamp r));
    destruct (Z.leb_spec (t + 10 * 1000) (timestamp r));
    destruct (Z.leb_spec (timestamp r) (t + 5 * 60 * 1000));
    try lia; cbn [andb]; rewrite ?app_nil_r; try reflexivity;
    now destruct acc.
Qed.

(** On an index sorted by timestamp, the early exit of the scan loses
    nothing: the three lists are the three filters of the index. *)
Lemma scan_sorted (g o : string) t data acc :
  Forall (fun r => timestamp r <> 0) data ->
  StronglySorted (fun a b => timestamp a <= timestamp b) data ->
  scan g o t data acc =
    {| before_records := before_records acc ++ List.filter (in_before g o t) data;
       after_records_all := after_records_all acc ++ List.filter (in_after g o t) data;
       after_records_preferred :=
         after_records_preferred acc ++ List.filter (in_preferred g o t) data |}.
Proof.
  intros Hnz Hs; revert acc.
  induction data as [|r data IH]; intros acc.
  - simpl. rewrite !app_nil_r. now destruct acc.
  - apply Forall_cons in Hnz as [Hr Hnz].
    apply StronglySorted_inv in Hs as [Hs Hle].
    specialize (IH Hnz Hs).
    cbn [scan].
    destruct (Z.eqb_spec (timestamp r) 0) as [E|_]; [contradiction|].
    destruct (Z.ltb_spec (t + time_window_ms) (timestamp r)) as [Hpast|Hin].
    + assert (Hall : Forall (fun x => t + time_window_ms < timestamp x) (r :: data)).
      { constructor; [exact Hpast|].
        eapply Forall_impl; [exact Hle|]. simpl; intros; lia. }
      rewrite !filter_none, !app_nil_r; [now destruct acc| | |];
        (eapply Forall_impl; [exact Hall|]); simpl; intros x Hx;
        now apply past_window.
    + cbn [List.filter].
      destruct (matches g o r) eqn:Hm.
      * rewrite IH, (classify_filters g o t r acc Hm Hin). cbn.
        destruct (in_before g o t r), (in_after g o t r), (in_preferred g o t r);
          rewrite <- ?app_assoc, ?app_nil_r; reflexivity.
      * rewrite IH. unfold in_before, in_after, in_preferred.
        rewrite Hm. reflexivity.
Qed.


Lemma filter_In_iff {A : Type} (f : A -> bool) (l : list A) (x : A) :
  In x (List.filter f l) <-> In x l /\ f x = true.
Proof. apply filter_In. Qed.

(** What the lookup returns once the guards are passed, on a sorted
    index. *)
Lemma lookup_sorted data (game_slug outcome : string) t :
  game_slug <> "" -> outcome <> "" -> t <> 0 ->
  Forall (fun r => timestamp r <> 0) data ->
  StronglySorted (fun a b => timestamp a <= timestamp b) data ->
  let g := lower (strip game_slug) in
  let o := lower (strip outcome) in
  get_polymarket_bbo_data data game_slug outcome t =
    {| polymarket_bbo_before :=
         make_before t <$> py_max timestamp (List.filter (in_before g o t) data);
       polymarket_bbo_after :=
         make_after t <$>
           py_min timestamp
             (match List.filter (in_preferred g o t) data with
              | [] => List.filter (in_after g o t) data
              | _ => List.filter (in_preferred g o t) data
              end) |}.
Proof.
  intros Hg Ho Ht Hnz Hs g o. unfold get_polymarket_bbo_data.
  apply String.eqb_neq in Hg, Ho. apply Z.eqb_neq in Ht.
  rewrite Hg, Ho, Ht. cbn [orb].
  destruct data as [|r data]; [reflexivity|].
  rewrite (scan_sorted _ _ _ _ _ Hnz Hs).
  reflexivity.
Qed.


Lemma in_preferred_iff data (g o : string) t r :
  In r (List.filter (in_preferred (lower (strip g)) (lower (strip o)) t) data)
  <-> preferred_candidate data g o t r.
Proof.
  rewrite filter_In_iff. unfold in_preferred, preferred_candidate.
  rewrite !andb_true_iff, !Z.leb_le. intuition lia.
Qed.

Lemma in_after_iff data (g o : string) t r :
  In r (List.filter (in_after (lower (strip g)) (lower (strip o)) t) data)
  <-> after_candidate data g o t r.
Proof.
  rewrite filter_In_iff. unfold in_after, after_candidate.
  rewrite !andb_true_iff, Z.leb_le, Z.ltb_lt. intuition lia.
Qed.



(** C2.  On a snapshot index sorted ascending by timestamp, when no
    observation of the group lies at or past the settle delay but some lies
    strictly after the fill, the after side is built from the earliest of
    those (the fallback path), and its preferred flag is set as soon as that
    observation is 10 milliseconds or more after the fill: the flag compares
    a millisecond difference with [10.0]. *)
Theorem fallback_after_flag data (game_slug outcome : string) t :
  game_slug <> "" -> outcome <> "" -> t <> 0 ->
  Forall (fun r => timestamp r <> 0) data ->
  StronglySorted (fun a b => timestamp a <= timestamp b) data ->
  (forall r, ~ preferred_candidate data game_slug outcome t r) ->
  (exists r, after_candidate data game_slug outcome t r) ->
  exists r,
    after_candidate data game_slug outcome t r
    /\ timestamp r < t + settle_delay_ms
    /\ (forall r', after_candidate data game_slug outcome t r' ->
                   timestamp r <= timestamp r')
    /\ polymarket_bbo_after (get_polymarket_bbo_data data game_slug outcome t)
       = Some (make_after t r)
    /\ a_is_preferred (make_after t r) = (t + 10 <=? timestamp r).
Proof.
  intros Hg Ho Ht Hnz Hs Hnone [r0 Hr0].
  rewrite (lookup_sorted data game_slug outcome t Hg Ho Ht Hnz Hs).
  cbn [polymarket_bbo_after].
  destruct (List.filter (in_preferred _ _ t) data) as [|p P'] eqn:EP.
  - apply in_after_iff in Hr0.
    pose proof (py_min_spec timestamp
      (List.filter (in_after (lower (strip game_slug)) (lower (strip outcome)) t) data))
      as Hmin.
    destruct (py_min _ _) as [m|]; [|rewrite Hmin in Hr0; destruct Hr0].
    destruct Hmin as [Hin Hall]. exists m.
    assert (Hm : after_candidate data game_slug outcome t m) by now apply in_after_iff.
    split; [exact Hm|]. split.
    + destruct (Z.lt_ge_cases (timestamp m) (t + settle_delay_ms)) as [|Hge]; [assumption|].
      exfalso. apply (Hnone m). unfold after_candidate, preferred_candidate in *.
      intuition lia.
    + split; [intros r' Hr'; apply Hall; now apply in_after_iff|].
      split; [reflexivity|].
      unfold make_after; cbn.
      destruct (Z.leb_spec 10 (timestamp m - t)), (Z.leb_spec (t + 10) (timestamp m));
        try reflexivity; lia.
  - exfalso. apply (Hnone p). apply in_preferred_iff. rewrite EP. now left.
Qed.

End SnapshotIndex.

(* ================================================================== *)
(** * Properties of the deduplication *)
(* ================================================================== *)

Section Deduplication.
Import Py Analyzer3.
Context `{Runtime}.

Implicit Types (f g : fill) (k : composite) (seen : list composite).

Lemma Qeq_bool_sym (x y : Q) : Qeq_bool x y = Qeq_bool y x.
Proof.
  destruct (Qeq_bool x y) eqn:E1, (Qeq_bool y x) eqn:E2; try reflexivity.
  - apply Qeq_bool_iff in E1. symmetry in E1. apply Qeq_bool_iff in E1. congruence.
  - apply Qeq_bool_iff in E2. symmetry in E2. apply Qeq_bool_iff in E2. congruence.
Qed.

Lemma py_eqb_sym (a b : value) : py_eqb a b = py_eqb b a.
Proof.
  unfold py_eqb.
  destruct (numeric a) as [x|] eqn:Ea, (numeric b) as [y|] eqn:Eb.
  - apply Qeq_bool_sym.
  - destruct a, b; try discriminate; reflexivity.
  - destruct a, b; try discriminate; reflexivity.
  - destruct a, b; try discriminate; try reflexivity. apply String.eqb_sym.
Qed.

Lemma py_eqb_refl (a : value) : hashable a = true -> py_eqb a a = true.
Proof.
  unfold py_eqb. destruct a; cbn; intros Hh; try discriminate;
    try (apply Qeq_bool_iff; reflexivity); try reflexivity.
  apply String.eqb_refl.
Qed.

Lemma composite_eqb_sym k k' : composite_eqb k k' = composite_eqb k' k.
Proof.
  destruct k as [[t i] v], k' as [[t' i'] v']. cbn.
  now rewrite (py_eqb_sym t t'), (py_eqb_sym i i'), (Qeq_bool_sym v v').
Qed.

(** A key that was formed has hashable components, so it equals itself. *)
Lemma composite_key_refl f k :
  composite_key f = Some (Some k) -> composite_eqb k k = true.
Proof.
  unfold composite_key. intros Hk.
  destruct (extract_timestamp_ms f) as [t|]; [|discriminate].
  destruct (extract_internal_id f) as [i|]; [|discriminate].
  destruct (extract_fill_value f) as [v|]; [|discriminate].
  cbn in Hk.
  destruct (negb (is_none t) && negb (is_none i)); [|discriminate].
  destruct (hashable t) eqn:Ht, (hashable i) eqn:Hi; try discriminate.
  injection Hk as <-. cbn.
  rewrite (py_eqb_refl t Ht), (py_eqb_refl i Hi). cbn.
  apply Qeq_bool_iff. reflexivity.
Qed.

(** A fill is keyless exactly when its three extractions succeed and the
    timestamp or the internal id comes out as [None]. *)
Lemma keyless_iff f :
  keyless f = true <->
  exists t i v,
    extract_timestamp_ms f = Some t /\ extract_internal_id f = Some i
    /\ extract_fill_value f = Some v /\ (t = VNone \/ i = VNone).
Proof.
  unfold keyless, composite_key.
  destruct (extract_timestamp_ms f) as [t|]; cbn;
    [|split; [discriminate|intros (?&?&?&?&_); discriminate]].
  destruct (extract_internal_id f) as [i|]; cbn;
    [|split; [discriminate|intros (?&?&?&_&?&_); discriminate]].
  destruct (extract_fill_value f) as [v|]; cbn;
    [|split; [discriminate|intros (?&?&?&_&_&?&_); discriminate]].
  split.
  - intros Hk. exists t, i, v. repeat split.
    destruct t; [now left|..]; (destruct i; [now right|..]); cbn in Hk;
      repeat match type of Hk with
             | context [if ?b then _ else _] => destruct b
             end; discriminate.
  - intros (t' & i' & v' & [= <-] & [= <-] & _ & [->| ->]); cbn; [reflexivity|].
    now rewrite andb_false_r.
Qed.

Lemma dedup_loop_unique (l : list fill) (st : dedup_state) :
  Forall (fun f => is_Some (composite_key f)) l ->
  exists st',
    dedup_loop st l = Some st'
    /\ unique_fills st' = unique_fills st ++ unique_from (seen st) l
    /\ seen st' = seen_after (seen st) l.
Proof.
  intros Hl; revert st. induction Hl as [|f l [ok Hf] _ IH]; intros st.
  - exists st. cbn. now rewrite app_nil_r.
  - cbn [dedup_loop unique_from seen_after]. unfold dedup_step. rewrite Hf. cbn.
    destruct ok as [key|].
    + destruct (seen_mem key (seen st)) eqn:Hm; cbn.
      * destruct (IH {| seen := seen st; unique_fills := unique_fills st;
                        duplicates_count := S (duplicates_count st) |})
          as (st' & -> & Hu & Hs).
        exists st'. now cbn in *.
      * destruct (IH {| seen := key :: seen st;
                        unique_fills := unique_fills st ++ [f];
                        duplicates_count := duplicates_count st |})
          as (st' & -> & Hu & Hs).
        exists st'. cbn in *. now rewrite Hu, <- app_assoc.
    + cbn.
      destruct (IH {| seen := seen st; unique_fills := unique_fills st ++ [f];
                      duplicates_count := duplicates_count st |})
        as (st' & -> & Hu & Hs).
      exists st'. cbn in *. now rewrite Hu, <- app_assoc.
Qed.

Lemma deduplicate_fills_unique (l : list fill) :
  Forall (fun f => is_Some (composite_key f)) l ->
  deduplicate_fills l = Some (unique_from [] l).
Proof.
  intros Hl. unfold deduplicate_fills. destruct l as [|f l]; [reflexivity|].
  destruct (dedup_loop_unique (f :: l)
              {| seen := []; unique_fills := []; duplicates_count := 0 |} Hl)
    as (st' & -> & Hu & _).
  cbn in *. now rewrite Hu.
Qed.

(** When the deduplication returns, no key extraction raised. *)
Lemma dedup_loop_some (l : list fill) (st st' : dedup_state) :
  dedup_loop st l = Some st' ->
  Forall (fun f => is_Some (composite_key f)) l.
Proof.
  revert st; induction l as [|f l IH]; intros st Hrun; [constructor|].
  cbn in Hrun. unfold dedup_step in Hrun.
  destruct (composite_key f) as [ok|] eqn:Hf; [|discriminate].
  constructor; [eauto|]. cbn in Hrun.
  destruct ok as [key|]; [destruct (seen_mem key (seen st))|];
    cbn in Hrun; eapply IH; exact Hrun.
Qed.

Lemma deduplicate_fills_some (l res : list fill) :
  deduplicate_fills l = Some res ->
  Forall (fun f => is_Some (composite_key f)) l.
Proof.
  unfold deduplicate_fills. destruct l as [|f l]; [constructor|].
  destruct (dedup_loop _ (f :: l)) as [st'|] eqn:Hrun; [|discriminate].
  intros _. eapply dedup_loop_some; exact Hrun.
Qed.

Lemma unique_from_In seen (l : list fill) g :
  In g (unique_from seen l) -> In g l.
Proof.
  revert seen; induction l as [|f l IH]; intros seen; cbn; [auto|].
  destruct (composite_key f) as [[key|]|].
  - destruct (seen_mem key seen); cbn; intros; intuition eauto.
  - cbn; intros; intuition eauto.
  - cbn; intros; intuition eauto.
Qed.

Lemma unique_from_fresh seen (l : list fill) g k :
  In g (unique_from seen l) -> composite_key g = Some (Some k) ->
  seen_mem k seen = false.
Proof.
  revert seen; induction l as [|f l IH]; intros seen; cbn; [intros []|].
  destruct (composite_key f) as [[key|]|] eqn:Hf.
  - destruct (seen_mem key seen) eqn:Hm; [apply IH|].
    intros [<-|Hin] Hg.
    + congruence.
    + specialize (IH _ Hin Hg). cbn in IH. now apply orb_false_iff in IH.
  - intros [<-|Hin] Hg; [congruence|eauto].
  - intros [<-|Hin] Hg; [congruence|eauto].
Qed.

Lemma unique_from_distinct seen (l : list fill) :
  distinct_keys (unique_from seen l).
Proof.
  revert seen; induction l as [|f l IH]; intros seen; cbn; [constructor|].
  destruct (composite_key f) as [[key|]|] eqn:Hf.
  - destruct (seen_mem key seen); [apply IH|].
    constructor; [|apply IH].
    intros g k k' Hin Hk Hg. assert (k = key) as -> by congruence.
    pose proof (unique_from_fresh _ _ _ _ Hin Hg) as Hfresh. cbn in Hfresh.
    apply orb_false_iff in Hfresh as [Hne _]. now rewrite composite_eqb_sym.
  - constructor; [|apply IH]. intros; congruence.
  - constructor; [|apply IH]. intros; congruence.
Qed.


Lemma unique_from_app seen (l1 l2 : list fill) :
  unique_from seen (l1 ++ l2)
  = unique_from seen l1 ++ unique_from (seen_after seen l1) l2.
Proof.
  revert seen; induction l1 as [|f l1 IH]; intros seen; cbn; [reflexivity|].
  destruct (composite_key f) as [[key|]|].
  - destruct (seen_mem key seen); [apply IH|]. cbn. now rewrite IH.
  - cbn. now rewrite IH.
  - cbn. now rewrite IH.
Qed.


(** Every keyed fill of the input is represented in the output by a fill
    with an equal key, unless its key had been seen before. *)
Lemma unique_from_covers seen (l : list fill) f k :
  In f l -> composite_key f = Some (Some k) ->
  seen_mem k seen = true
  \/ exists g k', In g (unique_from seen l)
                  /\ composite_key g = Some (Some k')
                  /\ composite_eqb k k' = true.
Proof.
  revert seen; induction l as [|h l IH]; intros seen; [intros []|].
  intros [->|Hin] Hk; cbn.
  - rewrite Hk. destruct (seen_mem k seen); [now left|].
    right. exists f, k. split; [now left|]. split; [assumption|].
    eapply composite_key_refl; eassumption.
  - destruct (composite_key h) as [[key|]|] eqn:Hh.
    + destruct (seen_mem key seen) eqn:Hm; [now apply IH|].
      destruct (IH (key :: seen) Hin Hk) as [Hs|(g & k' & ? & ? & ?)].
      * cbn in Hs. apply orb_true_iff in Hs as [Hs|Hs]; [|now left].
        right. exists h, key. split; [now left|]. auto.
      * right. exists g, k'. split; [now right|]. auto.
    + destruct (IH seen Hin Hk) as [|(g & k' & ? & ? & ?)]; [now left|].
      right. exists g, k'. split; [now right|]. auto.
    + destruct (IH seen Hin Hk) as [|(g & k' & ? & ? & ?)]; [now left|].
      right. exists g, k'. split; [now right|]. auto.
Qed.

Lemma unique_from_keyless seen (l : list fill) :
  List.filter keyless (unique_from seen l) = List.filter keyless l.
Proof.
  revert seen; induction l as [|f l IH]; intros seen; cbn; [reflexivity|].
  unfold keyless at 2. destruct (composite_key f) as [[key|]|] eqn:Hf.
  - destruct (seen_mem key seen); [apply IH|].
    cbn. unfold keyless at 1. rewrite Hf. apply IH.
  - cbn. unfold keyless at 1. rewrite Hf. now rewrite IH.
  - cbn. unfold keyless at 1. rewrite Hf. apply IH.
Qed.

Lemma distinct_keys_lookup (l : list fill) :
  distinct_keys l ->
  forall (i j : nat) f g k k',
    i <> j -> l !! i = Some f -> l !! j = Some g ->
    composite_key f = Some (Some k) -> composite_key g = Some (Some k') ->
    composite_eqb k k' = false.
Proof.
  induction 1 as [|h l Hh _ IH]; intros i j f g k k' Hij Hi Hj Hf Hg.
  - discriminate.
  - destruct i as [|i], j as [|j]; cbn in Hi, Hj.
    + congruence.
    + injection Hi as <-. eapply Hh; eauto.
      apply list_elem_of_In. eapply list_elem_of_lookup_2; eassumption.
    + injection Hj as <-. rewrite composite_eqb_sym. eapply Hh; eauto.
      apply list_elem_of_In. eapply list_elem_of_lookup_2; eassumption.
    + eapply (IH i j); eauto.
Qed.



(** C10.  When no key extraction raises, the deduplication retains every
    fill for which no composite key is formed, that is, every fill whose
    timestamp or internal id comes out as [None]: the keyless fills of the
    output are those of the input, in the same order and with the same
    repetitions; in particular a keyless fill given twice is returned
    twice. *)
Theorem dedup_never_drops_keyless (fills_data : list fill) :
  Forall (fun f => is_Some (composite_key f)) fills_data ->
  exists res,
    deduplicate_fills fills_data = Some res
    /\ List.filter keyless res = List.filter keyless fills_data
    /\ (forall f, In f fills_data -> keyless f = true -> In f res)
    /\ (forall f, In f fills_data ->
          extract_timestamp_ms f = Some VNone
          \/ extract_internal_id f = Some VNone ->
          In f res)
    /\ (forall f, keyless f = true -> deduplicate_fills [f; f] = Some [f; f]).
Proof.
  intros Hok. exists (unique_from [] fills_data).
  split; [now apply deduplicate_fills_unique|].
  split; [apply unique_from_keyless|].
  assert (Hkeep : forall f, In f fills_data -> keyless f = true ->
                            In f (unique_from [] fills_data)).
  { intros f Hin Hk.
    assert (Hf : In f (List.filter keyless fills_data)) by (apply filter_In; auto).
    rewrite <- (unique_from_keyless []) in Hf. now apply filter_In in Hf. }
  split; [exact Hkeep|]. split.
  - intros f Hin Hmiss. apply Hkeep; [exact Hin|].
    rewrite List.Forall_forall in Hok. destruct (Hok f Hin) as [ok Hf].
    apply keyless_iff. unfold composite_key in Hf.
    destruct (extract_timestamp_ms f) as [t|]; [|discriminate].
    destruct (extract_internal_id f) as [i|]; [|discriminate].
    destruct (extract_fill_value f) as [v|]; [|discriminate].
    exists t, i, v. repeat split.
    destruct Hmiss as [[= ->]|[= ->]]; auto.
  - intros f Hk. unfold keyless in Hk.
    destruct (composite_key f) as [[key|]|] eqn:Hf; try discriminate.
    rewrite deduplicate_fills_unique.
    + cbn. now rewrite Hf.
    + repeat constructor; rewrite Hf; eauto.
Qed.

End Deduplication.

(* ================================================================== *)
(** * Properties of the descending sort and of the cache merge *)
(* ================================================================== *)

Section SortDesc.
Import Py.
Context {A : Type} (lt : A -> A -> bool).

Lemma insert_desc_perm (x : A) (l : list A) :
  Permutation (insert_desc lt x l) (x :: l).
Proof.
  induction l as [|y l IH]; cbn; [reflexivity|].
  destruct (lt x y); [|reflexivity].
  rewrite IH. apply perm_swap.
Qed.

Lemma sort_desc_perm (l : list A) : Permutation (sort_desc lt l) l.
Proof.
  induction l as [|x l IH]; cbn; [reflexivity|].
  fold (sort_desc lt l). rewrite insert_desc_perm. now constructor.
Qed.

Lemma sort_desc_length (l : list A) : length (sort_desc lt l) = length l.
Proof. apply Permutation_length, sort_desc_perm. Qed.

Hypothesis lt_asym : forall a b, lt a b = true -> lt b a = false.

Lemma insert_desc_sorted (x : A) (l : list A) :
  Sorted (not_below lt) l -> Sorted (not_below lt) (insert_desc lt x l).
Proof.
  induction 1 as [|y l Hs IH Hhd]; cbn.
  - repeat constructor.
  - destruct (lt x y) eqn:Hxy.
    + constructor; [exact IH|].
      destruct l as [|z l]; cbn.
      * constructor. now apply lt_asym.
      * destruct (lt x z); constructor.
        -- now inversion Hhd.
        -- now apply lt_asym.
    + constructor; [now constructor|]. now constructor.
Qed.

Lemma sort_desc_sorted (l : list A) : Sorted (not_below lt) (sort_desc lt l).
Proof.
  induction l as [|x l IH]; cbn; [constructor|].
  now apply insert_desc_sorted.
Qed.

End SortDesc.

Section SortDescFixed.
Import Py.
Context {A : Type} (lt : A -> A -> bool).

(** Sorting a list that is already in descending order changes nothing. *)
Lemma sort_desc_fixed (l : list A) :
  Sorted (not_below lt) l -> sort_desc lt l = l.
Proof.
  induction 1 as [|x l Hs IH Hhd]; cbn; [reflexivity|].
  fold (sort_desc lt l). rewrite IH.
  destruct Hhd as [|y l' Hxy]; cbn; [reflexivity|].
  unfold not_below in Hxy. now rewrite Hxy.
Qed.

End SortDescFixed.

Section MergeFacts.
Import Py Analyzer3.
Context `{Runtime}.

Implicit Types (f g : fill) (k : composite) (seen : list composite).

Lemma fill_lt_asym (a b : fill) : fill_lt a b = true -> fill_lt b a = false.
Proof.
  unfold fill_lt. destruct (sort_key a) as [x|], (sort_key b) as [y|];
    try discriminate.
  unfold String.ltb. rewrite (String.compare_antisym y x).
  destruct (String.compare x y); cbn; congruence.
Qed.

Lemma distinct_keys_In (f : fill) (l : list fill) :
  distinct_keys l ->
  forall g k k', In f l -> In g l ->
    composite_key f = Some (Some k) -> composite_key g = Some (Some k') ->
    composite_eqb k k' = true ->
    exists (i : nat), l !! i = Some f /\ l !! i = Some g.
Proof.
  intros Hd g k k' Hf Hg Hkf Hkg He.
  apply list_elem_of_In, list_elem_of_lookup in Hf as [i Hi].
  apply list_elem_of_In, list_elem_of_lookup in Hg as [j Hj].
  destruct (Nat.eq_dec i j) as [->|Hij]; [eauto|].
  rewrite (distinct_keys_lookup l Hd i j f g k k' Hij Hi Hj Hkf Hkg) in He.
  discriminate.
Qed.

Lemma distinct_keys_perm (l l' : list fill) :
  Permutation l l' -> distinct_keys l -> distinct_keys l'.
Proof.
  induction 1 as [|x l l' Hp IH|x y l|l l' l'' _ IH1 _ IH2]; intros Hd.
  - constructor.
  - inversion Hd as [|? ? Hx Hl]; subst. constructor; [|auto].
    intros g k k' Hg. apply Hx. now rewrite Hp.
  - inversion Hd as [|? ? Hy Hl]; subst.
    inversion Hl as [|? ? Hx Hl']; subst.
    constructor.
    + intros g k k' [<-|Hg] Hk Hk'.
      * rewrite composite_eqb_sym. eapply Hy; eauto. now left.
      * eapply Hx; eauto.
    + constructor; [|assumption].
      intros g k k' Hg. apply Hy. now right.
  - auto.
Qed.

(** A list with distinct keys, none of them seen, goes through the loop
    unchanged. *)
Lemma unique_from_id seen (l : list fill) :
  distinct_keys l ->
  (forall g k, In g l -> composite_key g = Some (Some k) ->
               seen_mem k seen = false) ->
  unique_from seen l = l.
Proof.
  intros Hd; revert seen. induction Hd as [|f l Hf _ IH]; intros seen Hfresh;
    cbn; [reflexivity|].
  destruct (composite_key f) as [[key|]|] eqn:Hk.
  - rewrite (Hfresh f key (or_introl eq_refl) Hk). f_equal. apply IH.
    intros g k Hg Hgk. cbn. apply orb_false_iff. split.
    + rewrite composite_eqb_sym. eapply Hf; eauto.
    + eapply Hfresh; eauto. now right.
  - f_equal. apply IH. intros g k Hg. apply Hfresh. now right.
  - f_equal. apply IH. intros g k Hg. apply Hfresh. now right.
Qed.

Lemma seen_after_keeps seen (l : list fill) k :
  In k seen -> In k (seen_after seen l).
Proof.
  revert seen; induction l as [|f l IH]; intros seen Hin; cbn; [assumption|].
  destruct (composite_key f) as [[key|]|]; [|auto|auto].
  destruct (seen_mem key seen); apply IH; [assumption|now right].
Qed.

Lemma unique_from_key_in seen (l : list fill) g k :
  In g (unique_from seen l) -> composite_key g = Some (Some k) ->
  In k (seen_after seen l).
Proof.
  revert seen; induction l as [|f l IH]; intros seen; cbn; [intros []|].
  destruct (composite_key f) as [[key|]|] eqn:Hf.
  - destruct (seen_mem key seen); [apply IH|].
    intros [<-|Hin] Hg; [|now apply IH].
    assert (key = k) as -> by congruence.
    apply seen_after_keeps. now left.
  - intros [<-|Hin] Hg; [congruence|now apply IH].
  - intros [<-|Hin] Hg; [congruence|now apply IH].
Qed.

(** Fills whose keys have all been seen leave nothing. *)
Lemma unique_from_all_seen seen (l : list fill) :
  (forall f, In f l -> exists k, composite_key f = Some (Some k)
                                 /\ seen_mem k seen = true) ->
  unique_from seen l = [].
Proof.
  induction l as [|f l IH]; intros Hall; cbn; [reflexivity|].
  destruct (Hall f (or_introl eq_refl)) as (k & -> & ->).
  apply IH. intros g Hg. apply Hall. now right.
Qed.

(** The sort returns a permutation of its input that it leaves unchanged
    when given again. *)
Lemma sort_fills_stable (d m : list fill) :
  sort_fills d = Some m -> Permutation m d /\ sort_fills m = Some m.
Proof.
  unfold sort_fills at 1.
  destruct d as [|x [|y d]].
  - intros [= <-]. split; reflexivity.
  - intros [= <-]. split; reflexivity.
  - destruct (forallb _ (x :: y :: d)) eqn:Hall; [|discriminate].
    intros Hm.
    assert (Em : m = sort_desc fill_lt (x :: y :: d)) by congruence.
    clear Hm.
    assert (Hp : Permutation m (x :: y :: d))
      by (rewrite Em; apply sort_desc_perm).
    assert (Hs : Sorted (not_below fill_lt) m)
      by (rewrite Em; apply sort_desc_sorted, fill_lt_asym).
    clear Em. split; [exact Hp|].
    unfold sort_fills.
    destruct m as [|a [|b m]]; [reflexivity|reflexivity|].
    assert (Hall' : forallb (fun f => bool_decide (is_Some (sort_key f)))
                      (a :: b :: m) = true).
    { apply forallb_forall. intros f Hf.
      rewrite forallb_forall in Hall. apply Hall.
      apply (Permutation_in f Hp Hf). }
    rewrite Hall'. f_equal. now apply sort_desc_fixed.
Qed.

(** C7 (amended).  For a request without an [hours_back] filter in which
    every fetched fill has a composite key, merging the same fetch a second
    time into the result of the first merge returns that result again,
    provided the id scan of the merged cache succeeds and the second merge
    is incremental whenever the first one was. *)
Theorem merge_idempotent_on_keyed_fetch (now : Q)
    (cached_data fill_data merged : list fill) :
  merge_tradefeed now None cached_data fill_data = Some merged ->
  (forall f, In f fill_data -> exists k, composite_key f = Some (Some k)) ->
  is_Some (incremental_last_id merged) ->
  (is_incremental cached_data = true -> is_incremental merged = true) ->
  merge_tradefeed now None merged fill_data = Some merged.
Proof.
  intros Hm Hkeyed [v Hv] Hinc.
  unfold merge_tradefeed in Hm.
  unfold is_incremental in Hinc. rewrite Hv in Hinc.
  destruct (incremental_last_id cached_data) as [w|] eqn:Hw; [|discriminate].
  cbn in Hm.
  set (L := if truthy w && negb (is_empty cached_data)
            then cached_data ++ fill_data else fill_data) in Hm.
  destruct (deduplicate_fills L) as [D|] eqn:HD; [|discriminate].
  cbn in Hm.
  pose proof (deduplicate_fills_some _ _ HD) as HokL.
  rewrite (deduplicate_fills_unique _ HokL) in HD. injection HD as <-.
  destruct (sort_fills_stable _ _ Hm) as [Hperm Hfix].
  unfold merge_tradefeed. rewrite Hv. cbn.
  destruct (truthy v && negb (is_empty merged)) eqn:Hb2.
  - (* the second merge is incremental *)
    assert (HinL : forall f, In f fill_data -> In f L).
    { intros f Hf. unfold L. destruct (truthy w && negb (is_empty cached_data));
        [apply in_or_app; now right|assumption]. }
    assert (HokM : Forall (fun f => is_Some (composite_key f)) merged).
    { apply List.Forall_forall. intros f Hf.
      rewrite List.Forall_forall in HokL. apply HokL.
      apply (unique_from_In []).
      eapply Permutation_in; [exact Hperm|exact Hf]. }
    assert (HokI : Forall (fun f => is_Some (composite_key f)) fill_data).
    { apply List.Forall_forall. intros f Hf.
      destruct (Hkeyed f Hf) as [k ->]. eauto. }
    rewrite deduplicate_fills_unique by (apply Forall_app; auto).
    cbn. rewrite unique_from_app.
    assert (HM : unique_from [] merged = merged).
    { apply unique_from_id; [|reflexivity].
      eapply distinct_keys_perm; [symmetry; exact Hperm|].
      apply unique_from_distinct. }
    rewrite HM.
    rewrite unique_from_all_seen; [now rewrite app_nil_r|].
    intros f Hf. destruct (Hkeyed f Hf) as [k Hk]. exists k. split; [assumption|].
    destruct (unique_from_covers [] L f k (HinL f Hf) Hk)
      as [Hs|(g & k' & Hg & Hk' & He)]; [discriminate|].
    apply existsb_exists. exists k'. split; [|exact He].
    eapply unique_from_key_in; [|exact Hk'].
    rewrite HM. now rewrite Hperm.
  - (* neither merge is incremental *)
    assert (Hb1 : truthy w && negb (is_empty cached_data) = false).
    { destruct (truthy w && negb (is_empty cached_data)); [|reflexivity].
      now specialize (Hinc eq_refl). }
    unfold L in HokL, Hm. rewrite Hb1 in HokL, Hm.
    rewrite (deduplicate_fills_unique _ HokL). cbn. exact Hm.
Qed.

End MergeFacts.

(* ================================================================== *)
(** * Properties of the retention cache *)
(* ================================================================== *)

Section RetentionFacts.
Import Py Main.
Context `{Runtime}.

Implicit Types (o e : order) (h : list order) (now : Q).

Lemma is_recent_iff now o :
  is_recent now o = true <-> (retention_age now o < horizon_seconds)%Q.
Proof.
  unfold is_recent, retention_age, horizon_seconds, cutoff_time.
  rewrite negb_true_iff.
  set (t := _get_order_time_for_retention o).
  set (hz := inject_Z (MAX_ORDER_AGE_HOURS * 60 * 60)).
  split.
  - intros Hle. destruct (Qlt_le_dec (now - t) hz) as [|Hge]; [assumption|].
    assert (Hc : (t <= now - hz)%Q) by lra.
    apply Qle_bool_iff in Hc. congruence.
  - intros Hlt. destruct (Qle_bool t (now - hz)) eqn:E; [|reflexivity].
    apply Qle_bool_iff in E. lra.
Qed.

Lemma cleanup_is_filter now h :
  cleanup_old_orders now h = List.filter (is_recent now) h.
Proof. now destruct h. Qed.



Lemma truncate_take h : truncate h = take MAX_ORDER_HISTORY h.
Proof.
  unfold truncate.
  destruct (Nat.ltb_spec MAX_ORDER_HISTORY (length h)); [reflexivity|].
  symmetry. now apply take_ge.
Qed.

Lemma older_iff (a b : order) :
  older a b = true
  <-> (_get_order_time_for_retention a < _get_order_time_for_retention b)%Q.
Proof.
  unfold older. rewrite negb_true_iff. split.
  - intros Hle.
    destruct (Qlt_le_dec (_get_order_time_for_retention a)
                (_get_order_time_for_retention b)) as [|Hge]; [assumption|].
    apply Qle_bool_iff in Hge. congruence.
  - intros Hlt.
    destruct (Qle_bool (_get_order_time_for_retention b)
                (_get_order_time_for_retention a)) eqn:E; [|reflexivity].
    apply Qle_bool_iff in E. lra.
Qed.

Lemma older_asym (a b : order) : older a b = true -> older b a = false.
Proof.
  intros Hab. destruct (older b a) eqn:Hba; [|reflexivity].
  apply older_iff in Hab, Hba. lra.
Qed.

Lemma Sorted_take {A : Type} (R : A -> A -> Prop) (l : list A) (n : nat) :
  Sorted R l -> Sorted R (take n l).
Proof.
  intros Hs; revert n. induction Hs as [|x l Hs IH Hhd]; intros [|n]; cbn;
    try constructor.
  - apply IH.
  - destruct Hhd as [|y l' Hxy]; destruct n; cbn; now constructor.
Qed.

Lemma store_sorted now (od : order) h :
  Sorted (not_below older) (store_order_in_history now od h).
Proof.
  unfold store_order_in_history. rewrite truncate_take.
  apply Sorted_take, sort_desc_sorted, older_asym.
Qed.

Lemma find_existing_none (order_id : string) (i : nat) h :
  (forall x, In x h -> order_id_of x <> order_id) ->
  find_existing order_id i h = None.
Proof.
  revert i; induction h as [|x h IH]; intros i Hall; cbn; [reflexivity|].
  destruct (String.eqb_spec (order_id_of x) order_id) as [E|_].
  - exfalso. apply (Hall x); [now left|exact E].
  - apply IH. intros y Hy. apply Hall. now right.
Qed.

Lemma find_existing_some (order_id : string) (i0 i : nat) h :
  find_existing order_id i0 h = Some i ->
  (i0 <= i)%nat
  /\ exists e, h !! (i - i0)%nat = Some e /\ order_id_of e = order_id.
Proof.
  revert i0; induction h as [|x h IH]; intros i0; cbn; [discriminate|].
  destruct (String.eqb_spec (order_id_of x) order_id) as [E|_].
  - intros [= <-]. split; [lia|]. exists x. rewrite Nat.sub_diag. auto.
  - intros Hf. destruct (IH _ Hf) as [Hle (e & He & Hid)].
    split; [lia|]. exists e. split; [|assumption].
    replace (i - i0)%nat with (S (i - S i0)) by lia. exact He.
Qed.

Lemma foldr_insert_newest {A : Type} (lt : A -> A -> bool) (e : A)
    (s l : list A) :
  (forall x, In x l -> lt x e = true) ->
  foldr (insert_desc lt) (e :: s) l = e :: foldr (insert_desc lt) s l.
Proof.
  induction l as [|x l IH]; intros Hall; cbn; [reflexivity|].
  rewrite IH by (intros y Hy; apply Hall; now right).
  cbn. now rewrite (Hall x (or_introl eq_refl)).
Qed.

(** Appending an entry newer than every entry of a list in descending
    order, then sorting, puts it in front. *)
Lemma sort_desc_snoc_newest {A : Type} (lt : A -> A -> bool) (e : A)
    (l : list A) :
  Sorted (not_below lt) l -> (forall x, In x l -> lt x e = true) ->
  sort_desc lt (l ++ [e]) = e :: l.
Proof.
  intros Hs Hall. unfold sort_desc. rewrite foldr_app. cbn.
  rewrite foldr_insert_newest by assumption.
  f_equal. now apply sort_desc_fixed.
Qed.

Lemma take_cons_take {A : Type} (n : nat) (x : A) (l : list A) :
  take (S n) (x :: take (S n) l) = take (S n) (x :: l).
Proof. cbn. f_equal. rewrite take_take. f_equal. lia. Qed.

Lemma In_take {A : Type} (n : nat) (x : A) (l : list A) :
  In x (take n l) -> In x l.
Proof.
  revert n; induction l as [|y l IH]; intros [|n]; cbn; try tauto.
  intros [->|Hx]; [now left|right; eauto].
Qed.

Lemma is_recent_mono now now' o :
  Qle_bool now now' = true -> is_recent now' o = true -> is_recent now o = true.
Proof.
  intros Hle Hr. apply Qle_bool_iff in Hle.
  apply is_recent_iff in Hr. apply is_recent_iff.
  unfold retention_age in *. lra.
Qed.

Lemma older_transitive :
  Transitive (fun a b : Q * order => older a.2 b.2 = true).
Proof.
  intros a b c Hab Hbc. apply older_iff in Hab, Hbc. apply older_iff. lra.
Qed.

(** Writes of distinct orders in increasing retention time, all within the
    horizon: the history is the newest 4000 of them, newest first. *)
Lemma store_all_increasing (writes : list (Q * order)) (now_max : Q) :
  NoDup (map (fun w => order_id_of w.2) writes) ->
  Sorted (fun a b => older a.2 b.2 = true) writes ->
  Forall (fun w => Qle_bool w.1 now_max = true
                   /\ is_recent now_max w.2 = true) writes ->
  store_all writes [] = take MAX_ORDER_HISTORY (rev (map snd writes)).
Proof.
  intros Hnd Hs Hrec.
  apply (Sorted_StronglySorted _ (Transitive0 := older_transitive)) in Hs.
  induction writes as [|w ws IH] using rev_ind; [reflexivity|].
  rewrite map_app in Hnd. apply NoDup_app in Hnd as (Hnd & Hfresh & _).
  apply StronglySorted_app in Hs as (Holder & Hs' & _).
  apply Forall_app in Hrec as [Hrec Hw]. apply Forall_inv in Hw as [Hnow Hwr].
  specialize (IH Hnd Hs' Hrec).
  assert (Hsorted : Sorted (not_below older) (store_all ws [])).
  { clear. induction ws as [|v ws IHws] using rev_ind; [constructor|].
    unfold store_all. rewrite foldl_app. cbn. apply store_sorted. }
  unfold store_all in *. rewrite foldl_app. cbn [foldl].
  rewrite IH in Hsorted |- *.
  rewrite map_app, rev_app_distr. cbn [map rev app].
  set (h := take MAX_ORDER_HISTORY (rev (map snd ws))) in *.
  assert (Hin : forall x, In x h -> exists v, In v ws /\ x = v.2).
  { intros x Hx. apply In_take, in_rev, in_map_iff in Hx as (v & <- & Hv). eauto. }
  unfold store_order_in_history.
  assert (Hclean : cleanup_old_orders w.1 h = h).
  { rewrite cleanup_is_filter. apply forallb_filter_id, forallb_forall.
    intros x Hx. destruct (Hin x Hx) as (v & Hv & ->).
    rewrite List.Forall_forall in Hrec. destruct (Hrec v Hv) as [_ Hr].
    eapply is_recent_mono; eassumption. }
  rewrite Hclean. unfold upsert.
  rewrite find_existing_none.
  - rewrite sort_desc_snoc_newest.
    + rewrite truncate_take. unfold h, MAX_ORDER_HISTORY. apply take_cons_take.
    + exact Hsorted.
    + intros x Hx. destruct (Hin x Hx) as (v & Hv & ->).
      apply (Holder v w); [now apply list_elem_of_In|]. apply list_elem_of_In. now left.
  - intros x Hx. destruct (Hin x Hx) as (v & Hv & ->).
    intros Heq. apply (Hfresh (order_id_of v.2)).
    + apply list_elem_of_In, in_map_iff. exists v. auto.
    + rewrite Heq. cbn. left.
Qed.


(** C9.  After every cache write the history holds at most 4000 entries:
    it is the first 4000 entries of the upserted list sorted newest-first,
    so the entries dropped are the oldest.  In particular, writing distinct
    orders in strictly increasing retention time, all within the horizon,
    leaves the newest 4000 of them, newest first; with 4001 such writes the
    history holds exactly 4000 entries and lacks only the first, oldest,
    one. *)
Theorem history_capped_at_4000_newest_first :
  (forall now (od : order) h,
      (length (store_order_in_history now od h) <= 4000)%nat
      /\ exists sorted,
           Permutation sorted (upsert od (cleanup_old_orders now h))
           /\ Sorted (not_below older) sorted
           /\ store_order_in_history now od h = take 4000 sorted)
  /\ (forall (writes : list (Q * order)) (now_max : Q),
        NoDup (map (fun w => order_id_of w.2) writes) ->
        Sorted (fun a b => older a.2 b.2 = true) writes ->
        Forall (fun w => Qle_bool w.1 now_max = true
                         /\ is_recent now_max w.2 = true) writes ->
        store_all writes [] = take 4000 (rev (map snd writes))
        /\ (length writes = 4001%nat ->
            store_all writes [] = rev (map snd (drop 1 writes))
            /\ length (store_all writes []) = 4000%nat)).
Proof.
  split.
  - intros now od h. unfold store_order_in_history. rewrite truncate_take.
    split.
    + rewrite length_take. unfold MAX_ORDER_HISTORY. lia.
    + exists (sort_desc older (upsert od (cleanup_old_orders now h))).
      split; [apply sort_desc_perm|].
      split; [apply sort_desc_sorted, older_asym|reflexivity].
  - intros writes now_max Hnd Hs Hrec.
    pose proof (store_all_increasing writes now_max Hnd Hs Hrec) as Hall.
    split; [exact Hall|].
    intros Hlen. rewrite Hall.
    destruct writes as [|w0 ws]; [discriminate|].
    cbn [drop map rev]. cbn in Hlen.
    assert (Hl : length (rev (map snd ws)) = 4000%nat).
    { rewrite length_rev, length_map. lia. }
    unfold MAX_ORDER_HISTORY.
    rewrite take_app_length' by (symmetry; exact Hl). auto.
Qed.



End RetentionFacts.

(* ================================================================== *)
(** * Properties of the delayed after-lookups *)
(* ================================================================== *)

Section SchedulerFacts.
Import Py Main.
Context `{Runtime}.

Implicit Types (st : state) (od : order).

Lemma truthy_not_none (v : value) : truthy v = true -> is_none v = false.
Proof. now destruct v. Qed.

Lemma polymarket_value_some (r : polymarket_bbo) :
  truthy (polymarket_value (Some r)) = true.
Proof. reflexivity. Qed.

Lemma sportbook_of_numeric (fill_price : value) (bid : option Q) :
  is_Some (numeric fill_price) -> is_Some (sportbook_of fill_price bid).
Proof.
  intros [p Hp]. unfold sportbook_of. destruct bid as [b|]; [|eauto].
  destruct (Qeq_bool b 0); [eauto|]. rewrite Hp. cbn. eauto.
Qed.

(** With a numeric fill price the after results are recorded to the end:
    both after fields are set as given and the price is untouched. *)
Lemma record_after_completes (pm : option polymarket_bbo)
    (pn : option pinnacle_bbo) od :
  is_Some (numeric (get_default od "price" (VInt 0))) ->
  exists o,
    record_after pm pn od = (o, true)
    /\ get o "polymarket_after" = polymarket_value pm
    /\ get o "pinnacle_after" = pinnacle_value pn
    /\ get_default o "price" (VInt 0) = get_default od "price" (VInt 0).
Proof.
  intros Hprice. unfold record_after.
  assert (Hp1 : get_default
                  (<["pinnacle_after" := pinnacle_value pn]>
                     (<["polymarket_after" := polymarket_value pm]> od))
                  "price" (VInt 0)
                = get_default od "price" (VInt 0)).
  { unfold get_default. now rewrite !lookup_insert_ne by discriminate. }
  rewrite Hp1.
  destruct (sportbook_of_numeric _ (pm ≫= pm_best_bid) Hprice) as [sb ->].
  destruct (sportbook_of_numeric _ (pn ≫= pn_bbo) Hprice) as [psb ->].
  eexists. split; [reflexivity|].
  unfold get, get_default.
  rewrite !(lookup_insert_ne _ "pinnacle_sportbook") by discriminate.
  rewrite !(lookup_insert_ne _ "sportbook") by discriminate.
  rewrite lookup_insert_eq.
  rewrite !(lookup_insert_ne _ "pinnacle_after") by discriminate.
  rewrite lookup_insert_eq.
  rewrite !(lookup_insert_ne _ "polymarket_after") by discriminate.
  auto.
Qed.

Lemma deref_set_heap st (a : nat) (o old : order) :
  heap st !! a = Some old -> deref (set_heap st a o) a = o.
Proof.
  intros Ha. unfold deref, set_heap. cbn.
  rewrite list_lookup_insert_eq; [reflexivity|].
  apply lookup_lt_Some in Ha. exact Ha.
Qed.

(** What one delayed task does to an order that is still pending and
    whose fill price is a number: it logs its lookup, leaves the order
    dictionary [o] at the same address, and removes the order from
    [pending_updates] exactly when [should_finalize] holds of [o]. *)
Lemma update_pending now (order_id : string) (delay : Z)
    (pm : option polymarket_bbo) (pn : option pinnacle_bbo) st
    (info : pending_info) od :
  pending_updates st !! order_id = Some info ->
  heap st !! p_order_data info = Some od ->
  is_Some (numeric (get_default od "price" (VInt 0))) ->
  let st' := update_polymarket_after now order_id delay pm pn st in
  exists o,
    heap st' !! p_order_data info = Some o
    /\ lookups st' = lookups st ++ [(order_id, delay)]
    /\ get_default o "price" (VInt 0) = get_default od "price" (VInt 0)
    /\ (if truthy (polymarket_value pm) || truthy (pinnacle_value pn)
        then get o "polymarket_after" = polymarket_value pm
             /\ get o "pinnacle_after" = pinnacle_value pn
        else o = od)
    /\ pending_updates st' =
         (if should_finalize delay o
          then delete order_id (pending_updates st)
          else pending_updates st).
Proof.
  intros Hpend Hheap Hprice. cbn zeta.
  unfold update_polymarket_after. rewrite Hpend.
  set (a := p_order_data info) in *.
  assert (Hd : deref (log_lookup order_id delay st) a = od).
  { unfold deref, log_lookup. cbn. now rewrite Hheap. }
  destruct (truthy (polymarket_value pm) || truthy (pinnacle_value pn)).
  - rewrite Hd.
    destruct (record_after_completes pm pn od Hprice) as (o & -> & Hpm & Hpn & Hpr).
    assert (Hdo : deref (store_and_emit now a
                          (set_heap (log_lookup order_id delay st) a o)) a = o).
    { unfold deref, store_and_emit, set_heap, log_lookup. cbn.
      rewrite list_lookup_insert_eq; [reflexivity|].
      now apply lookup_lt_Some in Hheap. }
    exists o. unfold finalize. rewrite Hdo.
    assert (Hh : <[a := o]> (heap st) !! a = Some o).
    { apply list_lookup_insert_eq. now apply lookup_lt_Some in Hheap. }
    destruct (should_finalize delay o); cbn; auto 10.
  - exists od. unfold finalize. rewrite Hd.
    destruct (should_finalize delay od); cbn; auto 10.
Qed.

(** C1 (amended).  For a pending streamed order with a numeric fill
    price that obtains a Polymarket after result at the 10-second task: the
    order is still pending once that task has run, with the result recorded
    on it; the 60-second task executes its after-side lookup, whatever it
    returns, and then removes the order from [pending_updates]; the
    120-second task executes no lookup and changes nothing. *)
Theorem settles_at_sixty_after_result_at_ten
    (now10 now60 now120 : Q) (order_id : string) (info : pending_info)
    od st (pm10 : polymarket_bbo) (pn10 : option pinnacle_bbo)
    (pm60 pm120 : option polymarket_bbo) (pn60 pn120 : option pinnacle_bbo) :
  pending_updates st !! order_id = Some info ->
  heap st !! p_order_data info = Some od ->
  is_Some (numeric (get_default od "price" (VInt 0))) ->
  let st10 := update_polymarket_after now10 order_id 10 (Some pm10) pn10 st in
  let st60 := update_polymarket_after now60 order_id 60 pm60 pn60 st10 in
  let st120 := update_polymarket_after now120 order_id 120 pm120 pn120 st60 in
  pending_updates st10 !! order_id = Some info
  /\ get (deref st10 (p_order_data info)) "polymarket_after"
     = polymarket_value (Some pm10)
  /\ lookups st10 = lookups st ++ [(order_id, 10)]
  /\ lookups st60 = lookups st ++ [(order_id, 10); (order_id, 60)]
  /\ pending_updates st60 !! order_id = None
  /\ st120 = st60.
Proof.
  intros Hpend Hheap Hprice. cbn zeta.
  destruct (update_pending now10 order_id 10 (Some pm10) pn10 st info od
              Hpend Hheap Hprice) as (o10 & Hh10 & Hl10 & Hp10 & Ha10 & Hpe10).
  cbn zeta in *.
  set (st10 := update_polymarket_after now10 order_id 10 (Some pm10) pn10 st) in *.
  rewrite polymarket_value_some in Ha10. cbn [orb] in Ha10.
  destruct Ha10 as [Hpm10 _].
  assert (Hnf : should_finalize 10 o10 = false) by reflexivity.
  rewrite Hnf in Hpe10.
  assert (Hpend10 : pending_updates st10 !! order_id = Some info)
    by now rewrite Hpe10.
  assert (Hprice10 : is_Some (numeric (get_default o10 "price" (VInt 0))))
    by now rewrite Hp10.
  destruct (update_pending now60 order_id 60 pm60 pn60 st10 info o10
              Hpend10 Hh10 Hprice10) as (o60 & Hh60 & Hl60 & _ & Ha60 & Hpe60).
  cbn zeta in *.
  set (st60 := update_polymarket_after now60 order_id 60 pm60 pn60 st10) in *.
  assert (Hfin : should_finalize 60 o60 = true).
  { unfold should_finalize, has_any_after. cbn [Z.leb Z.compare Pos.compare
      Pos.compare_cont orb andb].
    destruct (truthy (polymarket_value pm60)) eqn:T1; cbn [orb] in Ha60.
    - destruct Ha60 as [-> _]. now rewrite (truthy_not_none _ T1).
    - destruct (truthy (pinnacle_value pn60)) eqn:T2.
      + destruct Ha60 as [_ ->]. rewrite (truthy_not_none _ T2).
        apply orb_true_r.
      + subst o60. rewrite Hpm10. reflexivity. }
  rewrite Hfin in Hpe60.
  assert (Hgone : pending_updates st60 !! order_id = None)
    by (rewrite Hpe60; apply lookup_delete_eq).
  split; [exact Hpend10|].
  split; [unfold deref; now rewrite Hh10|].
  split; [exact Hl10|].
  split; [now rewrite Hl60, Hl10, <- app_assoc|].
  split; [exact Hgone|].
  unfold update_polymarket_after. now rewrite Hgone.
Qed.

End SchedulerFacts.

(* ================================================================== *)
(** * Worked examples *)
(* ================================================================== *)

Section Examples.
Import Py Analyzer3 Main Samples.


Lemma index_early_sorted :
  StronglySorted (fun a b => timestamp a <= timestamp b) index_early.
Proof. repeat constructor. Qed.

(** The first scenario of the specification: observations 5 s before and
    11 s after the fill give [before = 0.40 @ 5 s] and
    [after = 0.45 @ 11 s], preferred. *)
Example settled_scenario :
  get_polymarket_bbo_data index_settled "nba-was-lac-2026-01-14" "Wizards" 1000000
  = {| polymarket_bbo_before := Some (make_before 1000000 (observation 995000 0.40));
       polymarket_bbo_after := Some (make_after 1000000 (observation 1011000 0.45)) |}
  /\ a_is_preferred (make_after 1000000 (observation 1011000 0.45)) = true
  /\ (b_seconds_from_fill (make_before 1000000 (observation 995000 0.40)) == 5)%Q
  /\ (a_seconds_from_fill (make_after 1000000 (observation 1011000 0.45)) == 11)%Q.
Proof. repeat split. Qed.



(** C2, at the failing input: a fill at [1000000] whose only later
    observation is 5 seconds after it.  The after side comes from the
    fallback path and is flagged preferred. *)
Example early_observation_flagged_preferred :
  polymarket_bbo_after
    (get_polymarket_bbo_data index_early "nba-was-lac-2026-01-14" "Wizards" 1000000)
  = Some (make_after 1000000 (observation 1005000 0.42))
  /\ a_is_preferred (make_after 1000000 (observation 1005000 0.42)) = true
  /\ (a_seconds_from_fill (make_after 1000000 (observation 1005000 0.42)) == 5)%Q
  /\ a_bbo (make_after 1000000 (observation 1005000 0.42)) = Some 0.42%Q.
Proof. repeat split. Qed.

(** C2, the fallback path on the sample index. *)
Lemma fallback_after_flag_witness :
  exists r,
    after_candidate index_early "nba-was-lac-2026-01-14" "Wizards" 1000000 r
    /\ timestamp r < 1000000 + settle_delay_ms
    /\ (forall r',
          after_candidate index_early "nba-was-lac-2026-01-14" "Wizards"
            1000000 r' -> timestamp r <= timestamp r')
    /\ polymarket_bbo_after
         (get_polymarket_bbo_data index_early "nba-was-lac-2026-01-14"
            "Wizards" 1000000)
       = Some (make_after 1000000 r)
    /\ a_is_preferred (make_after 1000000 r) = (1000000 + 10 <=? timestamp r).
Proof.
  apply (fallback_after_flag index_early "nba-was-lac-2026-01-14" "Wizards"
           1000000).
  - discriminate.
  - discriminate.
  - lia.
  - repeat constructor; cbn; lia.
  - exact index_early_sorted.
  - intros r (Hin & _ & Hlo & _). destruct Hin as [<-|[]].
    unfold settle_delay_ms in Hlo. cbn in Hlo. lia.
  - exists (observation 1005000 0.42).
    unfold after_candidate, time_window_ms. cbn.
    split; [now left|]. split; [reflexivity|]. lia.
Defined.

Lemma mixed_fills_keys :
  Forall (fun f => is_Some (composite_key f)) mixed_fills.
Proof.
  repeat constructor; apply (bool_decide_unpack _); vm_compute; exact I.
Qed.

(** Deduplicating the sample fills drops the second fetch of trade 101 and
    keeps both keyless fills. *)
Example mixed_fills_deduplicated :
  deduplicate_fills mixed_fills
  = Some [fill_a; unkeyed_fill; fill_b; unkeyed_fill].
Proof.
  vm_cast_no_check (eq_refl (Some [fill_a; unkeyed_fill; fill_b; unkeyed_fill])).
Qed.


(** C10, on the sample fills. *)
Lemma dedup_keyless_witness :
  exists res,
    deduplicate_fills mixed_fills = Some res
    /\ List.filter keyless res = List.filter keyless mixed_fills
    /\ (forall f, In f mixed_fills -> keyless f = true -> In f res)
    /\ (forall f, In f mixed_fills ->
          extract_timestamp_ms f = Some VNone
          \/ extract_internal_id f = Some VNone ->
          In f res)
    /\ (forall f, keyless f = true -> deduplicate_fills [f; f] = Some [f; f]).
Proof. exact (dedup_never_drops_keyless mixed_fills mixed_fills_keys). Defined.

(** C7, a run on which idempotence fails: merging a fetch that holds a
    keyless fill a second time adds that fill once more. *)
Lemma merge_twice_repeats_keyless_fill :
  merge_tradefeed clock None [fill_a] [unkeyed_fill]
    = Some [fill_a; unkeyed_fill]
  /\ merge_tradefeed clock None [fill_a; unkeyed_fill] [unkeyed_fill]
    = Some [fill_a; unkeyed_fill; unkeyed_fill]
  /\ merge_tradefeed clock None [fill_a; unkeyed_fill] [unkeyed_fill]
     <> merge_tradefeed clock None [fill_a] [unkeyed_fill].
Proof.
  assert (H1 : merge_tradefeed clock None [fill_a] [unkeyed_fill]
               = Some [fill_a; unkeyed_fill])
    by (vm_cast_no_check (eq_refl (Some [fill_a; unkeyed_fill]))).
  assert (H2 : merge_tradefeed clock None [fill_a; unkeyed_fill] [unkeyed_fill]
               = Some [fill_a; unkeyed_fill; unkeyed_fill])
    by (vm_cast_no_check (eq_refl (Some [fill_a; unkeyed_fill; unkeyed_fill]))).
  split; [exact H1|]. split; [exact H2|].
  rewrite H1, H2. intros E. apply (f_equal (fmap (length (A:=fill)))) in E.
  discriminate E.
Qed.

(** With an [hours_back] filter the merge repeats the last fill of the
    list when that fill has no key, even for an empty fetch: the filter
    appends it once in the loop and once more when the loop ends. *)
Example hours_filter_repeats_last_fill :
  merge_tradefeed clock (Some 24) [fill_a; anonymous_fill] []
  = Some [anonymous_fill; anonymous_fill; fill_a].
Proof.
  vm_cast_no_check (eq_refl (Some [anonymous_fill; anonymous_fill; fill_a])).
Qed.

(** C7 (amended), on a fetch of keyed fills. *)
Lemma merge_idempotent_witness :
  merge_tradefeed clock None [fill_b; fill_a] keyed_fetch
  = Some [fill_b; fill_a].
Proof.
  apply (merge_idempotent_on_keyed_fetch clock [fill_a] keyed_fetch
           [fill_b; fill_a]).
  - vm_cast_no_check (eq_refl (Some [fill_b; fill_a])).
  - intros f [<-|[<-|[]]].
    + exists (VInt 1704067220000, VInt 102, 40%Q).
      vm_cast_no_check
        (eq_refl (Some (Some (VInt 1704067220000, VInt 102, 40%Q)))).
    + exists (VInt 1704067210000, VInt 101, 25%Q).
      vm_cast_no_check
        (eq_refl (Some (Some (VInt 1704067210000, VInt 101, 25%Q)))).
  - exists (VInt 102). vm_cast_no_check (eq_refl (Some (VInt 102))).
  - intros _. vm_cast_no_check (eq_refl true).
Defined.


(** An entry exactly as old as the horizon is evicted. *)
Example entry_at_horizon_evicted :
  cleanup_old_orders (inject_Z (new_year_2024 + 1 + 172800)) [streamed_order] = [].
Proof. vm_cast_no_check (eq_refl (@nil order)). Qed.

Lemma writes_4001_distinct_ids :
  NoDup (map (fun w : Q * order => order_id_of w.2) writes_4001).
Proof.
  apply (NoDup_fmap_1 order_index).
  replace (order_index <$> map (fun w : Q * order => order_id_of w.2) writes_4001)
    with ((fun i => Some (Z.of_nat i)) <$> seq 0 4001)
    by (vm_cast_no_check
          (eq_refl ((fun i => Some (Z.of_nat i)) <$> seq 0 4001))).
  apply NoDup_fmap_2; [|apply NoDup_seq].
  intros i j [= Hij]. lia.
Qed.

Lemma writes_4001_increasing :
  Sorted (fun a b : Q * order => older a.2 b.2 = true) writes_4001.
Proof. apply (bool_decide_unpack _). vm_compute. exact I. Qed.

Lemma writes_4001_recent :
  Forall (fun w : Q * order =>
            Qle_bool w.1 (inject_Z (new_year_2024 + 4001)) = true
            /\ is_recent (inject_Z (new_year_2024 + 4001)) w.2 = true)
    writes_4001.
Proof. apply (bool_decide_unpack _). vm_compute. exact I. Qed.

(** C9, on 4001 writes one second apart: the history holds the last 4000
    orders, newest first. *)
Lemma history_4001_witness :
  store_all writes_4001 [] = rev (map snd (drop 1 writes_4001))
  /\ length (store_all writes_4001 []) = 4000%nat.
Proof.
  apply (proj2 history_capped_at_4000_newest_first writes_4001
           (inject_Z (new_year_2024 + 4001))
           writes_4001_distinct_ids writes_4001_increasing writes_4001_recent).
  unfold writes_4001. now rewrite length_map, length_seq.
Defined.



(** The batch enters the streamed order in [pending_updates] and creates
    its three delayed tasks. *)
Example streamed_order_registered :
  pending_updates streamed_state !! "0xfeed_7" = Some streamed_info
  /\ scheduled streamed_state
     = [("0xfeed_7", 10); ("0xfeed_7", 60); ("0xfeed_7", 120)]
  /\ lookups streamed_state = [].
Proof.
  split; [vm_cast_no_check (eq_refl (Some streamed_info))|].
  split; [|vm_cast_no_check (eq_refl (@nil (string * Z)))].
  vm_cast_no_check
    (eq_refl [("0xfeed_7", 10); ("0xfeed_7", 60); ("0xfeed_7", 120)]).
Qed.

(** C1, a run on which the 60-second join executes: the 10-second task finds a settled
    after result (11 s after the fill), yet the order is still pending once
    it has run, and the 60-second task executes its lookup. *)
Lemma sixty_second_task_still_looks_up :
  get_polymarket_bbo_after settled_after "0xfeed_7" 10 = Some after_row
  /\ pending_updates
       (update_polymarket_after clock "0xfeed_7" 10 (Some after_row) None
          streamed_state) !! "0xfeed_7" = Some streamed_info
  /\ lookups (run_delayed clock settled_after (scheduled streamed_state)
                streamed_state)
     = [("0xfeed_7", 10); ("0xfeed_7", 60)]
  /\ In ("0xfeed_7", 60)
        (lookups (run_delayed clock settled_after (scheduled streamed_state)
                    streamed_state)).
Proof.
  assert (Hl : lookups (run_delayed clock settled_after
                          (scheduled streamed_state) streamed_state)
               = [("0xfeed_7", 10); ("0xfeed_7", 60)])
    by (vm_cast_no_check (eq_refl [("0xfeed_7", 10); ("0xfeed_7", 60)])).
  split; [reflexivity|].
  split; [vm_cast_no_check (eq_refl (Some streamed_info))|].
  split; [exact Hl|]. rewrite Hl. right. now left.
Qed.

(** C1 (amended), on the streamed sample order. *)
Lemma settles_at_sixty_witness :
  let st10 := update_polymarket_after clock "0xfeed_7" 10 (Some after_row) None
                streamed_state in
  let st60 := update_polymarket_after clock "0xfeed_7" 60 (Some after_row) None
                st10 in
  let st120 := update_polymarket_after clock "0xfeed_7" 120 None None st60 in
  pending_updates st10 !! "0xfeed_7" = Some streamed_info
  /\ get (deref st10 (p_order_data streamed_info)) "polymarket_after"
     = polymarket_value (Some after_row)
  /\ lookups st10 = lookups streamed_state ++ [("0xfeed_7", 10)]
  /\ lookups st60
     = lookups streamed_state ++ [("0xfeed_7", 10); ("0xfeed_7", 60)]
  /\ pending_updates st60 !! "0xfeed_7" = None
  /\ st120 = st60.
Proof.
  apply (settles_at_sixty_after_result_at_ten clock clock clock "0xfeed_7"
           streamed_info (deref streamed_state 0) streamed_state after_row
           None (Some after_row) None None None).
  - vm_cast_no_check (eq_refl (Some streamed_info)).
  - vm_cast_no_check (eq_refl (Some (deref streamed_state 0))).
  - exists 0.45%Q. vm_cast_no_check (eq_refl (Some 0.45%Q)).
Defined.

End Examples.

(* ================================================================== *)
(** * Further properties of the deduplication *)
(* ================================================================== *)

Section MoreDedup.
Import Py Analyzer3.
Context `{Runtime}.

Lemma unique_from_keys_ok seen (l : list fill) :
  Forall (fun f => is_Some (composite_key f)) l ->
  Forall (fun f => is_Some (composite_key f)) (unique_from seen l).
Proof.
  rewrite !List.Forall_forall. intros Hl f Hf.
  apply Hl. eapply unique_from_In; exact Hf.
Qed.

(** X1.  [deduplicate_fills] is idempotent: deduplicating a list it
    returned returns that list again. *)
Theorem deduplicate_fills_idempotent (fills_data res : list fill) :
  deduplicate_fills fills_data = Some res ->
  deduplicate_fills res = Some res.
Proof.
  intros Hd. pose proof (deduplicate_fills_some _ _ Hd) as Hok.
  rewrite (deduplicate_fills_unique _ Hok) in Hd. injection Hd as <-.
  rewrite deduplicate_fills_unique
    by (apply unique_from_keys_ok; exact Hok).
  f_equal. apply unique_from_id; [apply unique_from_distinct|reflexivity].
Qed.

Lemma unique_from_length seen (l : list fill) :
  (length (unique_from seen l) <= length l)%nat.
Proof.
  revert seen; induction l as [|f l IH]; intros seen; cbn; [lia|].
  destruct (composite_key f) as [[key|]|].
  - destruct (seen_mem key seen); cbn; [specialize (IH seen)|specialize (IH (key :: seen))]; lia.
  - cbn. specialize (IH seen). lia.
  - cbn. specialize (IH seen). lia.
Qed.

(** X2.  On fills whose key extraction does not raise,
    [deduplicate_fills] returns a list that is no longer than its input,
    starts with the same fill, and is empty only for an empty input. *)
Theorem deduplicate_fills_keeps_head (fills_data : list fill) :
  Forall (fun f => is_Some (composite_key f)) fills_data ->
  exists res,
    deduplicate_fills fills_data = Some res
    /\ (length res <= length fills_data)%nat
    /\ head res = head fills_data
    /\ (res = [] <-> fills_data = []).
Proof.
  intros Hok. exists (unique_from [] fills_data).
  split; [now apply deduplicate_fills_unique|].
  split; [apply unique_from_length|].
  destruct fills_data as [|f l]; cbn; [tauto|].
  destruct (composite_key f) as [[key|]|]; cbn; (split; [reflexivity|split; discriminate]).
Qed.

Lemma dedup_loop_raises (l : list fill) (st : dedup_state) f :
  In f l -> composite_key f = None -> dedup_loop st l = None.
Proof.
  revert st; induction l as [|g l IH]; intros st; [intros []|].
  intros [->|Hin] Hf; cbn.
  - unfold dedup_step. now rewrite Hf.
  - destruct (dedup_step st g) as [st'|]; cbn; [eauto|reflexivity].
Qed.

(** X3.  One fill whose [full_trade_data] is present and is not a
    dictionary makes [deduplicate_fills] raise, wherever the fill stands in
    the list: no other fill is returned either. *)
Theorem malformed_fill_aborts_deduplication (fills_data : list fill) f v :
  In f fills_data ->
  f !! "full_trade_data" = Some v -> is_dict v = false ->
  deduplicate_fills fills_data = None.
Proof.
  intros Hin Hv Hnd.
  assert (Hk : composite_key f = None).
  { unfold composite_key.
    assert (Hi : extract_internal_id f = None).
    { unfold extract_internal_id, get_default. rewrite Hv. cbn.
      destruct v; try discriminate; reflexivity. }
    rewrite Hi. now destruct (extract_timestamp_ms f). }
  unfold deduplicate_fills. destruct fills_data as [|g l]; [destruct Hin|].
  now rewrite (dedup_loop_raises _ _ f Hin Hk).
Qed.

End MoreDedup.

(* ================================================================== *)
(** * Further properties of the order cache *)
(* ================================================================== *)

Section MoreRetention.
Import Py Main.
Context `{Runtime}.

Implicit Types (o e : order) (h : list order) (now : Q).

Lemma filter_filter_weaker {A : Type} (p q : A -> bool) (l : list A) :
  (forall x, q x = true -> p x = true) ->
  List.filter q (List.filter p l) = List.filter q l.
Proof.
  intros Hpq. induction l as [|x l IH]; cbn; [reflexivity|].
  destruct (p x) eqn:Hp; cbn.
  - now rewrite IH.
  - destruct (q x) eqn:Hq; [|exact IH].
    rewrite (Hpq x Hq) in Hp. discriminate.
Qed.

(** X4.  An eviction at a later clock reading subsumes an earlier one:
    evicting at [now] and then at [now' >= now] leaves what evicting at
    [now'] alone leaves; and an eviction repeated at the same reading changes
    nothing. *)
Theorem later_cleanup_subsumes_earlier now now' h :
  (now <= now')%Q ->
  cleanup_old_orders now' (cleanup_old_orders now h) = cleanup_old_orders now' h
  /\ cleanup_old_orders now (cleanup_old_orders now h) = cleanup_old_orders now h.
Proof.
  intros Hle. rewrite !cleanup_is_filter. split.
  - apply filter_filter_weaker. intros o Ho.
    apply (is_recent_mono now now'); [now apply Qle_bool_iff|exact Ho].
  - apply filter_filter_weaker. auto.
Qed.

(** X5.  For orders without a usable [received_at]: a [timestamp] of
    [s] seconds, [0 < s <= 10^12], is its own retention time; the same
    instant given in milliseconds has the same retention time when
    [s > 10^9], and is taken for seconds, a thousand times too large, when
    [s <= 10^9]. *)
Theorem millisecond_epoch_normalised (o_s o_ms : order) (s : Z) :
  truthy (get o_s "received_at") = false ->
  truthy (get o_ms "received_at") = false ->
  get_default o_s "timestamp" (VInt 0) = VInt s ->
  get_default o_ms "timestamp" (VInt 0) = VInt (1000 * s) ->
  0 < s <= 10 ^ 12 ->
  (_get_order_time_for_retention o_s == inject_Z s)%Q
  /\ (10 ^ 9 < s ->
      (_get_order_time_for_retention o_ms == _get_order_time_for_retention o_s)%Q)
  /\ (s <= 10 ^ 9 ->
      (_get_order_time_for_retention o_ms
       == 1000 * _get_order_time_for_retention o_s)%Q).
Proof.
  intros Hr Hr' Ht Ht' [Hpos Hle].
  unfold _get_order_time_for_retention.
  rewrite Hr, Hr', Ht, Ht'. cbn [py_float numeric].
  assert (E1 : Qle_bool (inject_Z s) (inject_Z (10 ^ 12)) = true).
  { apply Qle_bool_iff. rewrite <- Zle_Qle. exact Hle. }
  rewrite E1. cbn [negb].
  split; [reflexivity|]. split.
  - intros Hgt.
    assert (E2 : Qle_bool (inject_Z (1000 * s)) (inject_Z (10 ^ 12)) = false).
    { destruct (Qle_bool (inject_Z (1000 * s)) _) eqn:E; [|reflexivity].
      apply Qle_bool_iff in E. rewrite <- Zle_Qle in E. lia. }
    rewrite E2. cbn [negb]. rewrite inject_Z_mult. field.
  - intros Hsmall.
    assert (E2 : Qle_bool (inject_Z (1000 * s)) (inject_Z (10 ^ 12)) = true).
    { apply Qle_bool_iff. rewrite <- Zle_Qle. lia. }
    rewrite E2. cbn [negb]. rewrite inject_Z_mult. reflexivity.
Qed.

Lemma In_sort_desc {A : Type} (lt : A -> A -> bool) (x : A) (l : list A) :
  In x (sort_desc lt l) <-> In x l.
Proof.
  split; apply Permutation_in; [|symmetry]; apply sort_desc_perm.
Qed.

Lemma find_existing_unique (od : order) (n : nat) (s : list order) :
  (forall e, In e s -> e = od \/ order_id_of e <> order_id_of od) ->
  In od s ->
  exists i, find_existing (order_id_of od) n s = Some (n + i)%nat
            /\ s !! i = Some od.
Proof.
  revert n. induction s as [|x s IH]; intros n Hall Hin; [destruct Hin|].
  cbn. destruct (String.eqb_spec (order_id_of x) (order_id_of od)) as [E|NE].
  - exists 0%nat. rewrite Nat.add_0_r. split; [reflexivity|].
    destruct (Hall x (or_introl eq_refl)) as [->|C]; [reflexivity|contradiction].
  - destruct Hin as [->|Hin]; [contradiction|].
    destruct (IH (S n) (fun e He => Hall e (or_intror He)) Hin) as (i & Hf & Hl).
    exists (S i). split; [|exact Hl]. rewrite Hf. f_equal. lia.
Qed.

Lemma filter_all_true {A : Type} (p : A -> bool) (l : list A) :
  (forall x, In x l -> p x = true) -> List.filter p l = l.
Proof.
  induction l as [|x l IH]; intros Hall; cbn; [reflexivity|].
  rewrite (Hall x (or_introl eq_refl)), IH; [reflexivity|].
  intros y Hy. apply Hall. now right.
Qed.

(** X6.  Writing an order that is within the horizon and whose id no
    retained entry carries, into a history with fewer than 4000 retained
    entries, adds exactly that order: the new history is one longer than the
    retained part, holds the order under its id, holds nothing but the order
    and the retained entries, and is left alone by an eviction at the same
    clock reading. *)
Theorem stored_order_is_found now (od : order) h :
  is_recent now od = true ->
  (forall e, In e (cleanup_old_orders now h) ->
             order_id_of e <> order_id_of od) ->
  (length (cleanup_old_orders now h) < 4000)%nat ->
  let h' := store_order_in_history now od h in
  length h' = S (length (cleanup_old_orders now h))
  /\ (exists i, find_existing (order_id_of od) 0 h' = Some i /\ h' !! i = Some od)
  /\ (forall e, In e h' <-> e = od \/ In e (cleanup_old_orders now h))
  /\ cleanup_old_orders now h' = h'.
Proof.
  intros Hrec Hfresh Hlen. cbn zeta.
  set (hc := cleanup_old_orders now h) in *.
  unfold store_order_in_history, upsert. fold hc.
  rewrite (find_existing_none _ _ _ Hfresh).
  rewrite truncate_take, take_ge
    by (rewrite sort_desc_length, length_app; cbn; unfold MAX_ORDER_HISTORY; lia).
  set (s := sort_desc older (hc ++ [od])).
  assert (Hall : forall e, In e s <-> e = od \/ In e hc).
  { intros e. unfold s. rewrite In_sort_desc, in_app_iff. cbn. intuition. }
  split; [unfold s; rewrite sort_desc_length, length_app; cbn; lia|].
  split; [|split; [exact Hall|]].
  - destruct (find_existing_unique od 0 s) as (i & Hf & Hl).
    + intros e He. apply Hall in He as [->|He]; [now left|right; now apply Hfresh].
    + apply Hall. now left.
    + exists i. split; [exact Hf|exact Hl].
  - rewrite cleanup_is_filter. apply filter_all_true.
    intros e He. apply Hall in He as [->|He]; [exact Hrec|].
    unfold hc in He. rewrite cleanup_is_filter in He.
    apply filter_In in He. tauto.
Qed.

End MoreRetention.

Section MoreRetention2.
Import Py Main.
Context `{Runtime}.

Implicit Types (o e : order) (h : list order) (now : Q).

Lemma order_id_of_update (e od : order) :
  is_Some (od !! "tx_hash") -> is_Some (od !! "log_index") ->
  order_id_of (update e od) = order_id_of od.
Proof.
  intros [t Ht] [l Hl]. unfold order_id_of, get, update.
  rewrite (lookup_union_Some_l od e "tx_hash" t Ht).
  rewrite (lookup_union_Some_l od e "log_index" l Hl).
  now rewrite Ht, Hl.
Qed.

Lemma find_existing_absent (order_id : string) (i : nat) h :
  find_existing order_id i h = None ->
  forall x, In x h -> order_id_of x <> order_id.
Proof.
  revert i; induction h as [|x h IH]; intros i; cbn; [intros _ ? []|].
  destruct (String.eqb_spec (order_id_of x) order_id) as [E|NE]; [discriminate|].
  intros Hf y [<-|Hy]; [exact NE|]. eapply IH; eauto.
Qed.

Lemma NoDup_map_filter {A B : Type} (f : A -> B) (p : A -> bool) (l : list A) :
  List.NoDup (map f l) -> List.NoDup (map f (List.filter p l)).
Proof.
  induction l as [|x l IH]; cbn; [auto|].
  intros Hnd. inversion Hnd as [|? ? Hx Hl]; subst.
  destruct (p x); cbn; [|auto].
  constructor; [|auto].
  intros Hin. apply Hx. apply in_map_iff in Hin as (y & <- & Hy).
  apply in_map. apply filter_In in Hy. tauto.
Qed.

Lemma map_alter_same {A B : Type} (f : A -> B) (g : A -> A) (i : nat) (l : list A) :
  (forall x, l !! i = Some x -> f (g x) = f x) ->
  map f (alter g i l) = map f l.
Proof.
  revert i. induction l as [|x l IH]; intros i Hx; [reflexivity|].
  destruct i as [|i]; cbn.
  - now rewrite (Hx x eq_refl).
  - f_equal. apply IH. exact Hx.
Qed.

Lemma NoDup_map_take {A B : Type} (f : A -> B) (n : nat) (l : list A) :
  List.NoDup (map f l) -> List.NoDup (map f (take n l)).
Proof.
  revert n. induction l as [|x l IH]; intros [|n]; cbn; auto using List.NoDup_nil.
  intros Hnd. inversion Hnd as [|? ? Hx Hl]; subst.
  constructor; [|auto].
  intros Hin. apply Hx. apply in_map_iff in Hin as (y & <- & Hy).
  apply in_map. apply list_elem_of_In. apply list_elem_of_In in Hy.
  apply elem_of_take in Hy as (i & Hi & _).
  eapply list_elem_of_lookup_2; exact Hi.
Qed.

(** X7.  [store_order_in_history] keeps order ids distinct: when no two
    entries of the history share an id and the written order carries both
    [tx_hash] and [log_index], no two entries of the new history share an id,
    and the written order's id is present after the update-or-append. *)
Theorem store_keeps_ids_distinct now (od : order) h :
  is_Some (od !! "tx_hash") -> is_Some (od !! "log_index") ->
  List.NoDup (map order_id_of h) ->
  List.NoDup (map order_id_of (store_order_in_history now od h))
  /\ In (order_id_of od) (map order_id_of (upsert od (cleanup_old_orders now h))).
Proof.
  intros Ht Hl Hnd. unfold store_order_in_history.
  set (hc := cleanup_old_orders now h).
  assert (Hc : List.NoDup (map order_id_of hc)).
  { unfold hc. rewrite cleanup_is_filter. now apply NoDup_map_filter. }
  assert (Hu : List.NoDup (map order_id_of (upsert od hc))
               /\ In (order_id_of od) (map order_id_of (upsert od hc))).
  { unfold upsert. destruct (find_existing _ 0 hc) as [i|] eqn:Hf.
    - apply find_existing_some in Hf as (_ & e & He & Hid).
      rewrite Nat.sub_0_r in He.
      rewrite map_alter_same.
      + split; [exact Hc|]. rewrite <- Hid. apply in_map.
        apply list_elem_of_In. eapply list_elem_of_lookup_2; exact He.
      + intros x Hx. rewrite order_id_of_update by assumption.
        rewrite He in Hx. injection Hx as <-. now symmetry.
    - rewrite map_app. cbn. split; [|apply in_or_app; right; now left].
      apply List.NoDup_app; [exact Hc|repeat constructor; intros []|].
      intros a Ha [<-|[]]. apply in_map_iff in Ha as (x & Hx & Hin).
      exact (find_existing_absent _ _ _ Hf x Hin Hx). }
  destruct Hu as [Hu Hin]. split; [|exact Hin].
  rewrite truncate_take. apply NoDup_map_take.
  eapply Permutation_NoDup; [|exact Hu].
  apply Permutation_map. symmetry. apply sort_desc_perm.
Qed.
End MoreRetention2.

(* ================================================================== *)
(** * Further properties of the delayed tasks *)
(* ================================================================== *)

Section MoreScheduler.
Import Py Main.
Context `{Runtime}.

Implicit Types (st : state) (od : order).

Lemma finalize_pending (order_id : string) (delay : Z) (a : nat) st :
  pending_updates (finalize order_id delay a st)
  = (if should_finalize delay (deref st a)
     then delete order_id (pending_updates st) else pending_updates st)
  /\ heap (finalize order_id delay a st) = heap st
  /\ order_history (finalize order_id delay a st) = order_history st
  /\ emitted (finalize order_id delay a st) = emitted st
  /\ scheduled (finalize order_id delay a st) = scheduled st
  /\ lookups (finalize order_id delay a st) = lookups st.
Proof. unfold finalize. destruct (should_finalize _ _); cbn; auto 10. Qed.

Lemma should_finalize_early (delay : Z) od :
  delay < 60 -> should_finalize delay od = false.
Proof.
  intros Hd. unfold should_finalize.
  destruct (Z.leb_spec 120 delay); [lia|].
  destruct (Z.leb_spec 60 delay); [lia|]. reflexivity.
Qed.

Lemma should_finalize_final (delay : Z) od :
  120 <= delay -> should_finalize delay od = true.
Proof.
  intros Hd. unfold should_finalize.
  destruct (Z.leb_spec 120 delay); [reflexivity|lia].
Qed.

(** X8.  A delayed task touches no entry of [pending_updates] but its
    own order's, adds none, removes nothing before 60 seconds, and creates no
    further task, whatever the lookups return and whether or not the task
    raises. *)
Theorem task_removes_only_its_order_from_sixty now (order_id : string)
    (delay : Z) (pm : option polymarket_bbo) (pn : option pinnacle_bbo) st :
  let st' := update_polymarket_after now order_id delay pm pn st in
  (forall other, other <> order_id ->
     pending_updates st' !! other = pending_updates st !! other)
  /\ (forall info, pending_updates st' !! order_id = Some info ->
        pending_updates st !! order_id = Some info)
  /\ (delay < 60 -> pending_updates st' = pending_updates st)
  /\ scheduled st' = scheduled st.
Proof.
  cbn zeta. unfold update_polymarket_after.
  destruct (pending_updates st !! order_id) as [info|] eqn:Hp;
    [|repeat split; auto; intros i Hi; congruence].
  set (a := p_order_data info).
  set (st1 := log_lookup order_id delay st).
  assert (Hfin : forall s, pending_updates s = pending_updates st ->
                   scheduled s = scheduled st ->
            let s' := finalize order_id delay a s in
            (forall other, other <> order_id ->
               pending_updates s' !! other = pending_updates st !! other)
            /\ (forall info', pending_updates s' !! order_id = Some info' ->
                  Some info = Some info')
            /\ (delay < 60 -> pending_updates s' = pending_updates st)
            /\ scheduled s' = scheduled st).
  { intros s Hs Hsch. cbn zeta.
    destruct (finalize_pending order_id delay a s) as (-> & _ & _ & _ & -> & _).
    rewrite Hs. split; [|split; [|split]].
    - intros other Ho. destruct (should_finalize _ _); [|reflexivity].
      now rewrite lookup_delete_ne.
    - intros i. destruct (should_finalize _ _); [|now rewrite Hp].
      now rewrite lookup_delete_eq.
    - intros Hd. now rewrite should_finalize_early.
    - exact Hsch. }
  destruct (truthy (polymarket_value pm) || truthy (pinnacle_value pn)).
  - destruct (record_after pm pn (deref st1 a)) as [o [|]].
    + apply (Hfin (store_and_emit now a (set_heap st1 a o))); reflexivity.
    + cbn. rewrite Hp. repeat split; auto.
  - apply Hfin; reflexivity.
Qed.

(** X9.  For a pending order with a numeric fill price, a task with a
    delay of 120 seconds or more removes the order from [pending_updates]
    whatever its lookups return; every later task for that order is then a
    no-op. *)
Theorem final_retry_always_settles now (order_id : string) (delay : Z)
    (pm : option polymarket_bbo) (pn : option pinnacle_bbo) st
    (info : pending_info) od :
  pending_updates st !! order_id = Some info ->
  heap st !! p_order_data info = Some od ->
  is_Some (numeric (get_default od "price" (VInt 0))) ->
  120 <= delay ->
  let st' := update_polymarket_after now order_id delay pm pn st in
  pending_updates st' = delete order_id (pending_updates st)
  /\ forall now' delay' pm' pn',
       update_polymarket_after now' order_id delay' pm' pn' st' = st'.
Proof.
  intros Hp Hh Hprice Hd. cbn zeta.
  destruct (update_pending now order_id delay pm pn st info od Hp Hh Hprice)
    as (o & _ & _ & _ & _ & Hpend).
  rewrite should_finalize_final in Hpend by exact Hd.
  split; [exact Hpend|].
  intros now' delay' pm' pn'. unfold update_polymarket_after at 1.
  now rewrite Hpend, lookup_delete_eq.
Qed.

(** X10.  A delayed task whose two after-lookups find nothing writes
    nothing: the order dictionaries, the history and the broadcasts are
    unchanged; and before 120 seconds it leaves an order without after data
    pending. *)
Theorem task_without_after_data_writes_nothing now (order_id : string)
    (delay : Z) st :
  let st' := update_polymarket_after now order_id delay None None st in
  heap st' = heap st
  /\ order_history st' = order_history st
  /\ emitted st' = emitted st
  /\ (delay < 120 ->
      forall info, pending_updates st !! order_id = Some info ->
        has_any_after (deref st (p_order_data info)) = false ->
        pending_updates st' = pending_updates st).
Proof.
  cbn zeta. unfold update_polymarket_after.
  destruct (pending_updates st !! order_id) as [info|] eqn:Hp; [|auto 10].
  cbn [polymarket_value pinnacle_value truthy orb].
  destruct (finalize_pending order_id delay (p_order_data info)
              (log_lookup order_id delay st)) as (Hpe & -> & -> & -> & _).
  repeat split; try reflexivity.
  intros Hd i [= <-] Hany. rewrite Hpe.
  assert (Hsf : should_finalize delay
                  (deref (log_lookup order_id delay st) (p_order_data info))
                = false).
  { unfold should_finalize. change (deref (log_lookup order_id delay st)
      (p_order_data info)) with (deref st (p_order_data info)).
    rewrite Hany, andb_false_r, orb_false_r.
    destruct (Z.leb_spec 120 delay); [lia|reflexivity]. }
  now rewrite Hsf.
Qed.

(** X11.  When the fill price of a pending order is not a number and the
    Polymarket after result has a non-zero best bid, the task raises at the
    subtraction: the after result is already on the order dictionary, the
    [sportbook] field is not set, nothing is stored or broadcast, and the
    order stays in [pending_updates] at every delay, 120 seconds
    included. *)
Theorem non_numeric_price_leaves_order_pending now (order_id : string)
    (delay : Z) (pm : polymarket_bbo) (pn : option pinnacle_bbo) st
    (info : pending_info) od (bid : Q) :
  pending_updates st !! order_id = Some info ->
  heap st !! p_order_data info = Some od ->
  numeric (get_default od "price" (VInt 0)) = None ->
  pm_best_bid pm = Some bid -> Qeq_bool bid 0 = false ->
  let st' := update_polymarket_after now order_id delay (Some pm) pn st in
  pending_updates st' = pending_updates st
  /\ order_history st' = order_history st
  /\ emitted st' = emitted st
  /\ exists o, heap st' !! p_order_data info = Some o
       /\ get o "polymarket_after" = polymarket_value (Some pm)
       /\ get o "sportbook" = get od "sportbook".
Proof.
  intros Hp Hh Hprice Hbid Hnz. cbn zeta.
  unfold update_polymarket_after. rewrite Hp.
  rewrite polymarket_value_some. cbn [orb].
  assert (Hd : deref (log_lookup order_id delay st) (p_order_data info) = od).
  { unfold deref, log_lookup. cbn. now rewrite Hh. }
  rewrite Hd.
  assert (Hsb : sportbook_of (get_default od "price" (VInt 0)) (Some bid) = None).
  { unfold sportbook_of. now rewrite Hnz, Hprice. }
  assert (Hrec : record_after (Some pm) pn od
                 = (<["pinnacle_after" := pinnacle_value pn]>
                      (<["polymarket_after" := polymarket_value (Some pm)]> od),
                    false)).
  { unfold record_after.
    assert (Hp1 : get_default
                    (<["pinnacle_after" := pinnacle_value pn]>
                       (<["polymarket_after" := polymarket_value (Some pm)]> od))
                    "price" (VInt 0)
                  = get_default od "price" (VInt 0)).
    { unfold get_default. now rewrite !lookup_insert_ne by discriminate. }
    rewrite Hp1.
    change (Some pm ≫= pm_best_bid) with (pm_best_bid pm).
    now rewrite Hbid, Hsb. }
  rewrite Hrec.
  split; [reflexivity|]. split; [reflexivity|]. split; [reflexivity|].
  eexists. split.
  - apply list_lookup_insert_eq. now apply lookup_lt_Some in Hh.
  - unfold get. rewrite !(lookup_insert_ne _ "pinnacle_after") by discriminate.
    rewrite lookup_insert_eq. split; [reflexivity|].
    now rewrite !lookup_insert_ne by discriminate.
Qed.

End MoreScheduler.

(* ================================================================== *)
(** * Properties of the batch registration *)
(* ================================================================== *)

Section BatchFacts.
Import Py Main Batch.
Context `{Runtime}.

Implicit Types (st : state) (od : order).

Lemma register_order_frame (a : nat) st (tasks : list before_task) st' tasks' :
  register_order a (st, tasks) = Some (st', tasks') ->
  heap st' = heap st /\ order_history st' = order_history st
  /\ emitted st' = emitted st /\ lookups st' = lookups st.
Proof.
  unfold register_order.
  destruct (token_label_of (deref st a)) as [tl|]; [|discriminate]. cbn.
  destruct (_ && _ && _).
  - destruct (scaled_ms _) as [ms|]; [|discriminate]. cbn.
    intros [= <- <-]. cbn. auto.
  - intros [= <- <-]. auto.
Qed.

Lemma register_all_cons (a : nat) (rest : list nat)
    (acc : state * list before_task) :
  register_all (a :: rest) acc
  = match register_order a acc with
    | Some acc' => register_all rest acc'
    | None => (acc.1, None)
    end.
Proof. reflexivity. Qed.

Lemma register_all_frame (addrs : list nat) st (tasks : list before_task) :
  let r := register_all addrs (st, tasks) in
  heap r.1 = heap st /\ order_history r.1 = order_history st
  /\ emitted r.1 = emitted st /\ lookups r.1 = lookups st.
Proof.
  revert st tasks. induction addrs as [|a addrs IH]; intros st tasks;
    [cbn; auto|].
  rewrite register_all_cons.
  destruct (register_order a (st, tasks)) as [[st' tasks']|] eqn:Hr; [|cbn; auto].
  destruct (register_order_frame _ _ _ _ _ Hr) as (Hh & Ho & He & Hl).
  specialize (IH st' tasks'). cbn zeta in IH.
  destruct IH as (Hh' & Ho' & He' & Hl').
  repeat split; congruence.
Qed.

Lemma deref_heap st st' (a : nat) : heap st' = heap st -> deref st' a = deref st a.
Proof. unfold deref. now intros ->. Qed.

Lemma register_all_raises (addrs : list nat) st (tasks : list before_task) (a : nat) :
  In a addrs -> token_label_of (deref st a) = None ->
  (register_all addrs (st, tasks)).2 = None.
Proof.
  revert st tasks. induction addrs as [|b addrs IH]; intros st tasks; [intros []|].
  intros Hin Hnone. rewrite register_all_cons.
  destruct (register_order b (st, tasks)) as [[st' tasks']|] eqn:Hr; [|reflexivity].
  destruct Hin as [->|Hin].
  - unfold register_order in Hr. rewrite Hnone in Hr. discriminate.
  - apply IH; [exact Hin|].
    destruct (register_order_frame _ _ _ _ _ Hr) as (Hh & _).
    now rewrite (deref_heap _ _ _ Hh).
Qed.

Lemma deref_appended (h l : list order) (pu : gmap string pending_info)
    (oh em : list order) (sc lk : list (string * Z)) :
  map (deref {| heap := h ++ l; pending_updates := pu; order_history := oh;
                emitted := em; scheduled := sc; lookups := lk |})
      (seq (length h) (length l)) = l.
Proof.
  unfold deref. cbn. revert h. induction l as [|x l IH]; intros h; [reflexivity|].
  cbn [length seq map]. f_equal.
  - rewrite lookup_app_r by lia. now rewrite Nat.sub_diag.
  - specialize (IH (h ++ [x])). rewrite <- app_assoc in IH. cbn in IH.
    rewrite length_app in IH. cbn in IH. rewrite Nat.add_1_r in IH. exact IH.
Qed.

(** X12.  An order whose [token_label] is not a string makes
    [process_order_batch] raise in its first loop: no order of the batch,
    well-formed ones included, is stored in the history or broadcast. *)
Theorem malformed_order_aborts_batch now (db : before_lookups)
    (orders : list order) st od :
  In od orders -> token_label_of od = None ->
  let st' := process_order_batch now db orders st in
  order_history st' = order_history st
  /\ emitted st' = emitted st
  /\ heap st' = heap st ++ orders.
Proof.
  intros Hin Hnone. cbn zeta. unfold process_order_batch.
  set (st0 := {| heap := heap st ++ orders;
                 pending_updates := pending_updates st;
                 order_history := order_history st;
                 emitted := emitted st;
                 scheduled := scheduled st;
                 lookups := lookups st |}).
  set (addrs := seq (length (heap st)) (length orders)).
  assert (Hd : map (deref st0) addrs = orders) by apply deref_appended.
  assert (Hex : exists a, In a addrs /\ token_label_of (deref st0 a) = None).
  { rewrite <- Hd in Hin. apply in_map_iff in Hin as (a & <- & Ha).
    exists a. auto. }
  destruct Hex as (a & Ha & Hta).
  pose proof (register_all_raises addrs st0 [] a Ha Hta) as Hr.
  pose proof (register_all_frame addrs st0 []) as Hf. cbn zeta in Hf.
  destruct (register_all addrs (st0, [])) as [st1 r]. cbn in Hr, Hf. subst r.
  destruct Hf as (-> & -> & -> & _). auto.
Qed.

Lemma filter_none_registered (orders : list order) :
  (forall od, In od orders -> is_registered od = false) ->
  List.filter is_registered orders = [].
Proof.
  induction orders as [|o l IH]; intros Hq; [reflexivity|].
  cbn. rewrite (Hq o (or_introl eq_refl)). apply IH.
  intros x Hx. apply Hq. now right.
Qed.

Lemma register_order_clean (a : nat) st (tasks : list before_task) :
  registers_cleanly (deref st a) ->
  exists st' tasks',
    register_order a (st, tasks) = Some (st', tasks')
    /\ heap st' = heap st
    /\ scheduled st' = scheduled st
         ++ (if is_registered (deref st a) then delayed_tasks (deref st a) else [])
    /\ (forall k, is_Some (pending_updates st !! k) ->
                  is_Some (pending_updates st' !! k))
    /\ (is_registered (deref st a) = true ->
        is_Some (pending_updates st' !! order_id_of (deref st a)))
    /\ (is_registered (deref st a) = false -> st' = st /\ tasks' = tasks).
Proof.
  intros [[tl Htl] Hms]. unfold register_order, is_registered in *.
  rewrite Htl in *. cbn [mbind option_bind].
  destruct (_ && _ && _) eqn:Hq.
  - destruct (Hms eq_refl) as [ms ->]. cbn [mbind option_bind].
    eexists _, _. split; [reflexivity|]. cbn.
    split; [reflexivity|]. split; [reflexivity|]. split; [|split].
    + intros k Hk.
      destruct (decide (k = order_id_of (deref st a))) as [->|Hne].
      * rewrite lookup_insert_eq. eauto.
      * now rewrite lookup_insert_ne by congruence.
    + intros _. rewrite lookup_insert_eq. eauto.
    + discriminate.
  - exists st, tasks. split; [reflexivity|]. rewrite app_nil_r.
    repeat split; auto. discriminate.
Qed.

Lemma register_all_clean (addrs : list nat) st (tasks : list before_task) :
  (forall a, In a addrs -> registers_cleanly (deref st a)) ->
  exists st' tasks',
    register_all addrs (st, tasks) = (st', Some tasks')
    /\ heap st' = heap st
    /\ scheduled st' = scheduled st
         ++ flat_map delayed_tasks
              (List.filter is_registered (map (deref st) addrs))
    /\ (forall k, is_Some (pending_updates st !! k) ->
                  is_Some (pending_updates st' !! k))
    /\ (forall a, In a addrs -> is_registered (deref st a) = true ->
        is_Some (pending_updates st' !! order_id_of (deref st a)))
    /\ (List.filter is_registered (map (deref st) addrs) = [] ->
        st' = st /\ tasks' = tasks).
Proof.
  revert st tasks. induction addrs as [|a addrs IH]; intros st tasks Hall.
  - exists st, tasks. cbn. rewrite app_nil_r. repeat split; auto. intros _ [].
  - rewrite register_all_cons.
    destruct (register_order_clean a st tasks (Hall a (or_introl eq_refl)))
      as (st1 & tasks1 & -> & Hh1 & Hs1 & Hk1 & Hr1 & Hn1).
    assert (Hd : forall b, deref st1 b = deref st b)
      by (intros b; now apply deref_heap).
    destruct (IH st1 tasks1) as (st2 & tasks2 & -> & Hh2 & Hs2 & Hk2 & Hr2 & Hn2).
    { intros b Hb. rewrite Hd. apply Hall. now right. }
    exists st2, tasks2. split; [reflexivity|].
    assert (Hm : map (deref st1) addrs = map (deref st) addrs)
      by (apply map_ext; exact Hd).
    rewrite Hm in *.
    split; [congruence|]. split; [|split; [|split]].
    + rewrite Hs2, Hs1. cbn [map List.filter].
      destruct (is_registered (deref st a)); cbn [flat_map].
      * now rewrite <- app_assoc.
      * now rewrite app_nil_r.
    + auto.
    + intros b [<-|Hb] Hq.
      * apply Hk2, Hr1, Hq.
      * rewrite <- Hd. apply Hr2; [exact Hb|]. now rewrite Hd.
    + cbn [map List.filter].
      destruct (is_registered (deref st a)) eqn:Hq; [discriminate|].
      intros Hnil. destruct (Hn1 eq_refl) as [-> ->]. now apply Hn2.
Qed.

Lemma fetch_before_frame (db : before_lookups) (tasks : list before_task) st :
  let st' := foldl (fun st t => fetch_before_for_order db t st) st tasks in
  pending_updates st' = pending_updates st
  /\ scheduled st' = scheduled st
  /\ lookups st' = lookups st
  /\ order_history st' = order_history st
  /\ length (heap st') = length (heap st)
  /\ exists updates, emitted st' = emitted st ++ updates.
Proof.
  revert st. induction tasks as [|t tasks IH]; intros st; cbn.
  - repeat split; auto. exists []. now rewrite app_nil_r.
  - specialize (IH (fetch_before_for_order db t st)). cbn zeta in IH.
    destruct IH as (-> & -> & -> & -> & -> & ups & ->).
    unfold fetch_before_for_order.
    destruct (truthy _ || truthy _); cbn; rewrite length_insert;
      repeat split; auto.
    + eexists. now rewrite <- app_assoc.
    + now exists ups.
Qed.

Lemma store_and_emit_frame now (addrs : list nat) st :
  let st' := foldl (fun st a => store_and_emit now a st) st addrs in
  pending_updates st' = pending_updates st
  /\ scheduled st' = scheduled st
  /\ lookups st' = lookups st
  /\ heap st' = heap st
  /\ emitted st' = emitted st ++ map (deref st) addrs
  /\ order_history st' = store_batch now (map (deref st) addrs) (order_history st).
Proof.
  revert st. induction addrs as [|a addrs IH]; intros st; cbn.
  - rewrite app_nil_r. auto 10.
  - specialize (IH (store_and_emit now a st)). cbn zeta in IH.
    destruct IH as (-> & -> & -> & -> & -> & ->).
    assert (Hm : map (deref (store_and_emit now a st)) addrs
                 = map (deref st) addrs) by (apply map_ext; reflexivity).
    rewrite Hm. cbn. rewrite <- app_assoc. auto 10.
Qed.

(** X13.  When the first loop of [process_order_batch] raises on no
    order: exactly the orders with a truthy market slug, a non-blank token
    label and a truthy timestamp get delayed tasks, three each (10, 60 and
    120 seconds) in batch order, and are entered in [pending_updates]; no
    after-lookup runs; the broadcasts end with the batch's dictionaries as
    they are at the end, one per order. *)
Theorem registered_orders_get_three_tasks now (db : before_lookups)
    (orders : list order) st :
  Forall registers_cleanly orders ->
  let st' := process_order_batch now db orders st in
  scheduled st' = scheduled st
    ++ flat_map delayed_tasks (List.filter is_registered orders)
  /\ (forall od, In od orders -> is_registered od = true ->
        is_Some (pending_updates st' !! order_id_of od))
  /\ lookups st' = lookups st
  /\ (exists updates,
        emitted st' = emitted st ++ updates
          ++ map (deref st') (seq (length (heap st)) (length orders)))
  /\ length (heap st') = (length (heap st) + length orders)%nat.
Proof.
  intros Hall. cbn zeta. unfold process_order_batch.
  set (st0 := {| heap := heap st ++ orders;
                 pending_updates := pending_updates st;
                 order_history := order_history st;
                 emitted := emitted st;
                 scheduled := scheduled st;
                 lookups := lookups st |}).
  set (addrs := seq (length (heap st)) (length orders)).
  assert (Hd : map (deref st0) addrs = orders) by apply deref_appended.
  destruct (register_all_clean addrs st0 [])
    as (st1 & tasks & Hreg & Hh & Hs & _ & Hr & _).
  { intros a Ha. rewrite List.Forall_forall in Hall. apply Hall.
    rewrite <- Hd. now apply in_map. }
  pose proof (register_all_frame addrs st0 []) as Hf1. cbn zeta in Hf1.
  rewrite Hreg in *. cbn in Hf1. destruct Hf1 as (_ & _ & He1 & Hl1).
  rewrite Hd in Hs.
  pose proof (fetch_before_frame db tasks st1) as Hf. cbn zeta in Hf.
  set (st2 := foldl _ st1 tasks) in *.
  destruct Hf as (Hp2 & Hs2 & Hl2 & Ho2 & Hh2 & ups & He2).
  pose proof (store_and_emit_frame now addrs st2) as Hf. cbn zeta in Hf.
  set (st3 := foldl _ st2 addrs) in *.
  destruct Hf as (Hp3 & Hs3 & Hl3 & Hh3 & He3 & _).
  rewrite Hs3, Hs2, Hs, Hp3, Hp2, Hl3, Hl2, Hh3, Hh2, Hh.
  split; [reflexivity|]. split; [|split; [|split]].
  - intros od Hin Hq. rewrite <- Hd in Hin.
    apply in_map_iff in Hin as (a & <- & Ha). now apply Hr.
  - exact Hl1.
  - exists ups. rewrite He3, He2, He1, <- app_assoc. cbn. f_equal. f_equal.
    apply map_ext. intros a. now apply deref_heap.
  - cbn. now rewrite length_app.
Qed.

(** X14.  A batch in which no order passes the registration test is
    only stored and broadcast: the Before lookups are not consulted, no task
    is created, [pending_updates] is unchanged, and each order is written to
    the history and broadcast once, in batch order. *)
Theorem unregistered_orders_are_only_stored now (db : before_lookups)
    (orders : list order) st :
  Forall (fun od => is_Some (token_label_of od)) orders ->
  Forall (fun od => is_registered od = false) orders ->
  process_order_batch now db orders st
  = {| heap := heap st ++ orders;
       pending_updates := pending_updates st;
       order_history := store_batch now orders (order_history st);
       emitted := emitted st ++ orders;
       scheduled := scheduled st;
       lookups := lookups st |}.
Proof.
  intros Htl Hq. unfold process_order_batch.
  set (st0 := {| heap := heap st ++ orders;
                 pending_updates := pending_updates st;
                 order_history := order_history st;
                 emitted := emitted st;
                 scheduled := scheduled st;
                 lookups := lookups st |}).
  set (addrs := seq (length (heap st)) (length orders)).
  assert (Hd : map (deref st0) addrs = orders) by apply deref_appended.
  rewrite List.Forall_forall in Htl, Hq.
  destruct (register_all_clean addrs st0 [])
    as (st1 & tasks & -> & _ & _ & _ & _ & Hnil).
  { intros a Ha. assert (Hin : In (deref st0 a) orders)
      by (rewrite <- Hd; now apply in_map).
    split; [now apply Htl|]. rewrite (Hq _ Hin). discriminate. }
  destruct Hnil as [-> ->].
  { rewrite Hd. now apply filter_none_registered. }
  cbn [foldl].
  pose proof (store_and_emit_frame now addrs st0) as Hf. cbn zeta in Hf.
  destruct (foldl _ st0 addrs) as [h3 p3 o3 e3 s3 l3]. cbn in Hf.
  destruct Hf as (-> & -> & -> & -> & -> & ->).
  now rewrite Hd.
Qed.

End BatchFacts.

(* ================================================================== *)
(** * Further properties of the cache merge *)
(* ================================================================== *)

Section MoreMerge.
Import Py Analyzer3 CacheOnly.
Context `{Runtime}.

Lemma sort_fills_sorted (d m : list fill) :
  sort_fills d = Some m -> Sorted (not_below fill_lt) m.
Proof.
  unfold sort_fills. destruct d as [|x [|y d]].
  - intros [= <-]. constructor.
  - intros [= <-]. repeat constructor.
  - destruct (forallb _ _); [|discriminate]. intros Hm.
    assert (Em : m = sort_desc fill_lt (x :: y :: d)) by congruence.
    rewrite Em. apply sort_desc_sorted, fill_lt_asym.
Qed.

(** X15.  An incremental merge without an [hours_back] filter, into a
    cache that holds no two fills with equal keys, keeps every cached fill
    when it returns: the result is a permutation of the cache followed by the fetched fills
    that are new to it, it takes its fills from the cache and the fetch only,
    holds no two fills with equal keys, and is in descending order of
    [fill_tx_ts]. *)
Theorem incremental_merge_keeps_the_cache now (cached_data fill_data res : list fill) :
  is_incremental cached_data = true ->
  distinct_keys cached_data ->
  merge_tradefeed now None cached_data fill_data = Some res ->
  Permutation res
    (cached_data ++ unique_from (seen_after [] cached_data) fill_data)
  /\ (forall f, In f cached_data -> In f res)
  /\ (forall f, In f res -> In f cached_data \/ In f fill_data)
  /\ distinct_keys res
  /\ Sorted (not_below fill_lt) res.
Proof.
  intros Hinc Hdist. unfold merge_tradefeed, is_incremental in *.
  destruct (incremental_last_id cached_data) as [inc|]; [|discriminate].
  cbn [mbind option_bind]. rewrite Hinc.
  destruct (deduplicate_fills (cached_data ++ fill_data)) as [d|] eqn:Hd;
    [|discriminate].
  cbn [mbind option_bind]. intros Hs.
  pose proof (deduplicate_fills_some _ _ Hd) as Hall.
  rewrite (deduplicate_fills_unique _ Hall) in Hd. injection Hd as <-.
  rewrite unique_from_app, (unique_from_id [] cached_data Hdist) in Hs
    by reflexivity.
  destruct (sort_fills_stable _ _ Hs) as [Hp _].
  split; [exact Hp|]. split; [|split; [|split]].
  - intros f Hf. apply (Permutation_in f (Permutation_sym Hp)).
    apply in_or_app. now left.
  - intros f Hf. apply (Permutation_in f Hp) in Hf.
    apply in_app_or in Hf as [Hf|Hf]; [now left|right].
    eapply unique_from_In; exact Hf.
  - apply (distinct_keys_perm _ _ (Permutation_sym Hp)).
    rewrite <- (unique_from_id [] cached_data Hdist) at 1 by reflexivity.
    rewrite <- unique_from_app. apply unique_from_distinct.
  - eapply sort_fills_sorted; exact Hs.
Qed.

Lemma max_id_loop_int (l : list fill) (acc : value) :
  Forall (fun f => exists n, trade_id f = Some (VInt n)) l ->
  (acc = VNone \/ exists a, acc = VInt a /\ a <> 0) ->
  exists r,
    max_id_loop acc l = Some r
    /\ (r = VNone \/ exists m, r = VInt m /\ m <> 0)
    /\ (r = acc \/ exists f, In f l /\ trade_id f = Some r)
    /\ (forall a, acc = VInt a -> exists m, r = VInt m /\ a <= m)
    /\ (forall f n, In f l -> trade_id f = Some (VInt n) -> n <> 0 ->
          exists m, r = VInt m /\ n <= m).
Proof.
  revert acc. induction l as [|f l IH]; intros acc Hall Hacc.
  - exists acc. cbn. repeat split; auto.
    + intros a ->. exists a. split; [reflexivity|lia].
    + intros ? ? [].
  - inversion Hall as [|? ? [n Hn] Hl]; subst.
    cbn [max_id_loop]. unfold max_id_step. rewrite Hn. cbn [mbind option_bind truthy].
    destruct (Z.eqb_spec n 0) as [->|Hnz]; cbn [negb mbind option_bind].
    + destruct (IH acc Hl Hacc) as (r & -> & Hr & Hsrc & Hge & Hmax).
      exists r. split; [reflexivity|]. split; [exact Hr|]. split; [|split].
      * destruct Hsrc as [->|(g & Hg & Hgr)]; [now left|right].
        exists g. split; [now right|exact Hgr].
      * exact Hge.
      * intros g k [<-|Hg] Hk Hk0; [congruence|eauto].
    + assert (Hstep : exists b, (if is_none acc then Some (VInt n)
                        else py_gt (VInt n) acc ≫= λ is_larger : bool,
                               Some (if is_larger then VInt n else acc))
                      = Some (VInt b) /\ b <> 0 /\ n <= b
                      /\ (VInt b = acc \/ b = n)
                      /\ (forall a, acc = VInt a -> a <= b)).
      { destruct Hacc as [->|(a & -> & Ha)].
        - exists n. cbn. repeat split; auto; try lia. discriminate.
        - cbn. destruct (Qle_bool (inject_Z n) (inject_Z a)) eqn:Hle; cbn.
          + apply Qle_bool_iff in Hle. rewrite <- Zle_Qle in Hle.
            exists a. repeat split; auto. intros a' [= <-]. lia.
          + exists n. repeat split; auto; try lia. intros a' [= <-].
            destruct (Z.le_gt_cases n a) as [Hc|Hc]; [|lia].
            rewrite Zle_Qle in Hc. apply Qle_bool_iff in Hc. congruence. }
      destruct Hstep as (b & -> & Hb & Hnb & Hfrom & Hab).
      cbn [mbind option_bind].
      destruct (IH (VInt b) Hl) as (r & -> & Hr & Hsrc & Hge & Hmax);
        [right; eauto|].
      destruct (Hge b eq_refl) as (m & -> & Hbm).
      exists (VInt m). split; [reflexivity|]. split; [exact Hr|]. split; [|split].
      * destruct Hsrc as [Hsrc|(g & Hg & Hgr)].
        -- injection Hsrc as ->. destruct Hfrom as [<- | ->]; [now left|].
           right. exists f. split; [now left|exact Hn].
        -- right. exists g. split; [now right|exact Hgr].
      * intros a Ha. exists m. split; [reflexivity|]. specialize (Hab a Ha). lia.
      * intros g k [<-|Hg] Hk Hk0.
        -- exists m. split; [reflexivity|]. rewrite Hn in Hk. injection Hk as <-. lia.
        -- eauto.
Qed.

(** X16.  When every cached trade id is an integer,
    [incremental_last_id] is at least every non-zero id of the cache and is
    the id of a cached trade; when every id is zero it is [None]. *)
Theorem incremental_last_id_is_largest (cached_data : list fill) :
  Forall (fun f => exists n, trade_id f = Some (VInt n)) cached_data ->
  exists r,
    incremental_last_id cached_data = Some r
    /\ (forall f n, In f cached_data -> trade_id f = Some (VInt n) -> n <> 0 ->
          exists m, r = VInt m /\ n <= m
                    /\ exists g, In g cached_data /\ trade_id g = Some (VInt m))
    /\ ((forall f, In f cached_data -> trade_id f = Some (VInt 0)) -> r = VNone).
Proof.
  intros Hall. unfold incremental_last_id.
  destruct (max_id_loop_int cached_data VNone Hall (or_introl eq_refl))
    as (r & -> & Hr & Hsrc & _ & Hmax).
  cbn [mbind option_bind].
  destruct Hr as [->|(m & -> & Hm)].
  - exists VNone. split; [reflexivity|]. split; [|reflexivity].
    intros f n Hf Hn Hnz. destruct (Hmax f n Hf Hn Hnz) as (m & Hm & _).
    discriminate.
  - exists (VInt m). cbn [truthy]. destruct (Z.eqb_spec m 0) as [|_]; [contradiction|].
    split; [reflexivity|]. split.
    + intros f n Hf Hn Hnz. destruct (Hmax f n Hf Hn Hnz) as (m' & [= <-] & Hle).
      exists m. split; [reflexivity|]. split; [exact Hle|].
      destruct Hsrc as [Hsrc|Hsrc]; [discriminate|exact Hsrc].
    + intros Hzero. destruct Hsrc as [Hsrc|(g & Hg & Hgm)]; [discriminate|].
      rewrite (Hzero g Hg) in Hgm. congruence.
Qed.

Lemma cached_hours_loop_filter (cutoff_time : Q) (l acc : list fill) :
  Forall (fun f => is_Some (get_fill_tx_ts f)) l ->
  cached_hours_loop cutoff_time l acc
  = Some (acc ++ List.filter (shown_from_cache cutoff_time) l).
Proof.
  revert acc. induction l as [|f l IH]; intros acc Hall; cbn.
  - now rewrite app_nil_r.
  - inversion Hall as [|? ? [ts Hts] Hl]; subst.
    unfold shown_from_cache at 1. rewrite Hts. cbn [mbind option_bind].
    rewrite IH by exact Hl.
    destruct (truthy ts); cbn [negb orb].
    + destruct (within_hours cutoff_time ts); [|reflexivity].
      now rewrite <- app_assoc.
    + now rewrite <- app_assoc.
Qed.

Lemma hours_loop_filter (cutoff_time : Q) (l acc : list fill) :
  Forall (fun f => is_Some (get_fill_tx_ts f)) l ->
  hours_loop cutoff_time l acc
  = Some (acc ++ List.filter
                   (fun f => has_timestamp f && shown_from_cache cutoff_time f) l).
Proof.
  revert acc. induction l as [|f l IH]; intros acc Hall; cbn.
  - now rewrite app_nil_r.
  - inversion Hall as [|? ? [ts Hts] Hl]; subst.
    unfold shown_from_cache at 1, has_timestamp at 1.
    rewrite Hts. cbn [mbind option_bind].
    rewrite IH by exact Hl.
    destruct (truthy ts); cbn [negb orb andb].
    + destruct (within_hours cutoff_time ts); [|reflexivity].
      now rewrite <- app_assoc.
    + reflexivity.
Qed.

Lemma filter_and_filter {A : Type} (p q : A -> bool) (l : list A) :
  List.filter (fun x => p x && q x) l = List.filter p (List.filter q l).
Proof.
  induction l as [|x l IH]; cbn; [reflexivity|].
  destruct (q x); cbn; [|now rewrite andb_false_r].
  rewrite andb_true_r. destruct (p x); now rewrite IH.
Qed.

(** X17.  On fills whose timestamp lookup does not raise, the
    [hours_back] filters of the two branches of [get_tradefeed] differ on
    the fills without a timestamp: the [cache_only]
    branch shows every such fill, the loop of the main branch keeps none of
    them, and what the main loop keeps is exactly what the [cache_only]
    branch shows, less the fills without timestamp. *)
Theorem cached_filter_keeps_untimed_fills (cutoff_time : Q) (fills : list fill) :
  Forall (fun f => is_Some (get_fill_tx_ts f)) fills ->
  exists shown kept,
    cached_hours_loop cutoff_time fills [] = Some shown
    /\ hours_loop cutoff_time fills [] = Some kept
    /\ kept = List.filter has_timestamp shown
    /\ (forall f, In f fills -> has_timestamp f = false ->
          In f shown /\ ~ In f kept).
Proof.
  intros Hall.
  exists (List.filter (shown_from_cache cutoff_time) fills).
  exists (List.filter (fun f => has_timestamp f && shown_from_cache cutoff_time f)
            fills).
  split; [now rewrite cached_hours_loop_filter|].
  split; [now rewrite hours_loop_filter|].
  split; [apply filter_and_filter|].
  intros f Hf Hts. split.
  - apply filter_In. split; [exact Hf|].
    rewrite List.Forall_forall in Hall. destruct (Hall f Hf) as [ts Hv].
    unfold shown_from_cache, has_timestamp in *. rewrite Hv in *.
    now rewrite Hts.
  - intros Hin. apply filter_In in Hin as [_ Hin]. now rewrite Hts in Hin.
Qed.

End MoreMerge.

(* ================================================================== *)
(** * Properties of the index load *)
(* ================================================================== *)

Section IndexLoadFacts.
Import Py Analyzer3 IndexLoad.

Lemma row_record_nonzero (row : bbo_row) (r : bbo_record) :
  row_record row = Some r -> timestamp r <> 0.
Proof.
  unfold row_record. destruct (row_timestamp row) as [t|]; [|discriminate].
  destruct (Z.eqb_spec t 0); [discriminate|]. now intros [= <-].
Qed.

Lemma timestamp_lt_flip_asym (a b : bbo_record) :
  timestamp_lt b a = true -> timestamp_lt a b = false.
Proof. unfold timestamp_lt. rewrite Z.ltb_lt, Z.ltb_ge. lia. Qed.

Lemma process_rows_perm (raw_data : list bbo_row) :
  Permutation (process_rows raw_data) (omap row_record raw_data).
Proof. apply sort_desc_perm. Qed.

Lemma Sorted_weaken {A : Type} (R S : A -> A -> Prop) (l : list A) :
  (forall a b, R a b -> S a b) -> Sorted R l -> Sorted S l.
Proof.
  intros HRS. induction 1 as [|x l Hs IH Hhd]; constructor; [exact IH|].
  destruct Hhd; constructor. now apply HRS.
Qed.

Lemma process_rows_sorted (raw_data : list bbo_row) :
  StronglySorted (fun a b => timestamp a <= timestamp b) (process_rows raw_data).
Proof.
  unfold process_rows, sort_asc.
  assert (Hs : Sorted (not_below (fun a b => timestamp_lt b a))
                 (sort_desc (fun a b => timestamp_lt b a)
                    (omap row_record raw_data))).
  { apply sort_desc_sorted. intros a b. apply timestamp_lt_flip_asym. }
  assert (Hs' : Sorted (fun a b => timestamp a <= timestamp b)
                  (sort_desc (fun a b => timestamp_lt b a)
                     (omap row_record raw_data))).
  { eapply Sorted_weaken; [|exact Hs]. intros a b. unfold not_below, timestamp_lt.
    rewrite Z.ltb_ge. auto. }
  apply Sorted.Sorted_StronglySorted; [|exact Hs'].
  intros a b c. lia.
Qed.

Lemma process_rows_nonzero (raw_data : list bbo_row) :
  Forall (fun r => timestamp r <> 0) (process_rows raw_data).
Proof.
  apply List.Forall_forall. intros r Hr.
  apply (Permutation_in r (process_rows_perm raw_data)) in Hr.
  apply list_elem_of_In, list_elem_of_omap in Hr as (row & _ & Hrow).
  eapply row_record_nonzero; exact Hrow.
Qed.

(** X18.  The index [load_data] builds from any rows has the shape the
    early exit of the lookup scan relies on: every record has a non-zero
    timestamp, the records are in ascending order of timestamp, and they are
    the records of the rows with a truthy timestamp; so the scan, which stops
    at the first record past the window, collects exactly the matching
    records of the index that lie in each of its three groups. *)
Theorem load_data_index_supports_early_exit (raw_data : list bbo_row)
    (g o : string) (t : Z) :
  let data := process_rows raw_data in
  Forall (fun r => timestamp r <> 0) data
  /\ StronglySorted (fun a b => timestamp a <= timestamp b) data
  /\ Permutation data (omap row_record raw_data)
  /\ scan g o t data empty_buckets
     = {| before_records := List.filter (in_before g o t) data;
          after_records_all := List.filter (in_after g o t) data;
          after_records_preferred := List.filter (in_preferred g o t) data |}.
Proof.
  cbn zeta.
  pose proof (process_rows_nonzero raw_data) as Hnz.
  pose proof (process_rows_sorted raw_data) as Hs.
  split; [exact Hnz|]. split; [exact Hs|]. split; [apply process_rows_perm|].
  now rewrite (scan_sorted g o t _ empty_buckets Hnz Hs).
Qed.

Lemma Qmin_either (a b : Q) : Qmin a b = a \/ Qmin a b = b.
Proof.
  unfold Qmin, GenericMinMax.gmin. destruct (a ?= b)%Q; auto.
Qed.

Lemma Qmax_either (a b : Q) : Qmax a b = a \/ Qmax a b = b.
Proof.
  unfold Qmax, GenericMinMax.gmax. destruct (a ?= b)%Q; auto.
Qed.

Lemma foldl_Qmin_spec (xs : list Q) (x : Q) :
  In (foldl Qmin x xs) (x :: xs)
  /\ forall y, In y (x :: xs) -> (foldl Qmin x xs <= y)%Q.
Proof.
  revert x. induction xs as [|z xs IH]; intros x; cbn [foldl].
  - split; [now left|]. intros y [<-|[]]. apply Qle_refl.
  - destruct (IH (Qmin x z)) as [Hin Hle]. split.
    + destruct Hin as [Hin|Hin]; [|right; now right].
      rewrite <- Hin. destruct (Qmin_either x z) as [->| ->]; cbn; auto.
    + intros y [<-|[<-|Hy]].
      * eapply Qle_trans; [apply Hle; now left|apply Q.le_min_l].
      * eapply Qle_trans; [apply Hle; now left|apply Q.le_min_r].
      * apply Hle. now right.
Qed.

Lemma foldl_Qmax_spec (xs : list Q) (x : Q) :
  In (foldl Qmax x xs) (x :: xs)
  /\ forall y, In y (x :: xs) -> (y <= foldl Qmax x xs)%Q.
Proof.
  revert x. induction xs as [|z xs IH]; intros x; cbn [foldl].
  - split; [now left|]. intros y [<-|[]]. apply Qle_refl.
  - destruct (IH (Qmax x z)) as [Hin Hle]. split.
    + destruct Hin as [Hin|Hin]; [|right; now right].
      rewrite <- Hin. destruct (Qmax_either x z) as [->| ->]; cbn; auto.
    + intros y [<-|[<-|Hy]].
      * eapply Qle_trans; [apply Q.le_max_l|apply Hle; now left].
      * eapply Qle_trans; [apply Q.le_max_r|apply Hle; now left].
      * apply Hle. now right.
Qed.

Lemma mapM_numeric_In (vs : list value) (xs : list Q) :
  mapM numeric vs = Some xs ->
  (forall v, In v vs -> exists q, numeric v = Some q /\ In q xs)
  /\ (forall q, In q xs -> exists v, In v vs /\ numeric v = Some q).
Proof.
  intros Hm. apply mapM_Some_1 in Hm.
  induction Hm as [|v q vs xs Hv _ [IH1 IH2]].
  - split; intros ? [].
  - split.
    + intros w [<-|Hw]; [exists q; split; [exact Hv|now left]|].
      destruct (IH1 w Hw) as (p & Hp & Hin). exists p. split; [exact Hp|now right].
    + intros p [<-|Hp]; [exists v; split; [now left|exact Hv]|].
      destruct (IH2 p Hp) as (w & Hw & Hin). exists w. split; [now right|exact Hin].
Qed.

(** X19.  The time range computed for a slug covers the lookup window
    of each of its fills: for every fill with a non-zero integer timestamp
    [t], [start_timestamp <= t - time_window_ms] and
    [t + time_window_ms <= end_timestamp]; and both bounds are a fill's
    timestamp moved by the buffer. *)
Theorem slug_range_covers_every_lookup_window (slug_fills : list fill)
    (start_timestamp end_timestamp : Q) :
  slug_time_range slug_fills = Some (Some (start_timestamp, end_timestamp)) ->
  (forall f t, In f slug_fills -> get f "timestamp_ms" = VInt t -> t <> 0 ->
     (start_timestamp <= inject_Z (t - time_window_ms))%Q
     /\ (inject_Z (t + time_window_ms) <= end_timestamp)%Q)
  /\ (exists f q, In f slug_fills /\ numeric (get f "timestamp_ms") = Some q
        /\ start_timestamp = (q - inject_Z buffer_ms)%Q)
  /\ (exists f q, In f slug_fills /\ numeric (get f "timestamp_ms") = Some q
        /\ end_timestamp = (q + inject_Z buffer_ms)%Q).
Proof.
  unfold slug_time_range.
  destruct (fill_timestamps slug_fills) as [|v vs] eqn:Hts; [discriminate|].
  destruct (numeric v) as [x|] eqn:Hv; [|discriminate]. cbn [mbind option_bind].
  destruct (mapM numeric vs) as [xs|] eqn:Hm; [|discriminate].
  cbn [mbind option_bind]. intros [= <- <-].
  destruct (foldl_Qmin_spec xs x) as [Hmin_in Hmin].
  destruct (foldl_Qmax_spec xs x) as [Hmax_in Hmax].
  destruct (mapM_numeric_In vs xs Hm) as [Hfw Hbw].
  assert (Hval : forall w, In w (v :: vs) ->
            exists f, In f slug_fills /\ get f "timestamp_ms" = w).
  { intros w Hw. rewrite <- Hts in Hw. unfold fill_timestamps in Hw.
    apply filter_In in Hw as [Hw _]. apply in_map_iff in Hw as (f & <- & Hf).
    exists f. auto. }
  assert (Hsrc : forall q, In q (x :: xs) ->
            exists f, In f slug_fills /\ numeric (get f "timestamp_ms") = Some q).
  { intros q [<-|Hq].
    - destruct (Hval v (or_introl eq_refl)) as (f & Hf & Hg).
      exists f. split; [exact Hf|]. now rewrite Hg.
    - destruct (Hbw q Hq) as (w & Hw & Hn).
      destruct (Hval w (or_intror Hw)) as (f & Hf & Hg).
      exists f. split; [exact Hf|]. now rewrite Hg. }
  split; [|split].
  - intros f t Hf Hg Hnz.
    assert (Hin : In (inject_Z t) (x :: xs)).
    { assert (Hw : In (VInt t) (v :: vs)).
      { rewrite <- Hts. unfold fill_timestamps. apply filter_In. split.
        - apply in_map_iff. exists f. auto.
        - cbn. now destruct (Z.eqb_spec t 0). }
      destruct Hw as [Hw|Hw].
      - left. rewrite Hw in Hv. cbn in Hv. congruence.
      - right. destruct (Hfw _ Hw) as (q & Hq & Hin). cbn in Hq. congruence. }
    specialize (Hmin _ Hin). specialize (Hmax _ Hin).
    change time_window_ms with 300000. change buffer_ms with 300000 in *.
    rewrite <- Z.add_opp_r, !inject_Z_plus.
    change (inject_Z (- (300000))) with (- (300000))%Q.
    change (inject_Z 300000) with 300000%Q in *.
    split; lra.
  - destruct (Hsrc _ Hmin_in) as (f & Hf & Hn). exists f, (foldl Qmin x xs). auto.
  - destruct (Hsrc _ Hmax_in) as (f & Hf & Hn). exists f, (foldl Qmax x xs). auto.
Qed.

End IndexLoadFacts.

(* ================================================================== *)
(** * Properties of the live lookups *)
(* ================================================================== *)

Section LiveLookupFacts.
Import Py Main IndexLoad LiveLookup.

Lemma Qlt_bool_iff (a b : Q) : Qlt_bool a b = true <-> (a < b)%Q.
Proof.
  unfold Qlt_bool. rewrite negb_true_iff. split.
  - intros Hf. apply Qnot_le_lt. intros Hle. apply Qle_bool_iff in Hle. congruence.
  - intros Hlt. destruct (Qle_bool b a) eqn:E; [|reflexivity].
    apply Qle_bool_iff in E. apply Qlt_not_le in Hlt. contradiction.
Qed.

Lemma Qlt_bool_false (a b : Q) : Qlt_bool a b = false <-> (b <= a)%Q.
Proof.
  unfold Qlt_bool. rewrite negb_false_iff. apply Qle_bool_iff.
Qed.

Lemma before_records_spec (t : Z) (records : list market_row) :
  Forall (fun r => is_Some (r_timestamp_ms r)) records ->
  exists kept,
    before_records t records = Some kept
    /\ forall r, In r kept <->
         In r records /\ exists ts, r_timestamp_ms r = Some ts
                                    /\ (ts < inject_Z t)%Q.
Proof.
  induction 1 as [|r records [ts Hts] _ (kept & IH & Hk)]; cbn.
  - exists []. split; [reflexivity|]. intros r. cbn. tauto.
  - rewrite Hts, IH. cbn [mbind option_bind].
    destruct (Qlt_bool ts (inject_Z t)) eqn:Hlt; eexists; (split; [reflexivity|]).
    + apply Qlt_bool_iff in Hlt. intros x. cbn. rewrite Hk. split.
      * intros [<-|[Hx Hex]]; [split; [now left|eauto]|]. split; [now right|exact Hex].
      * intros [[<-|Hx] Hex]; [now left|right; auto].
    + apply Qlt_bool_false in Hlt. intros x. rewrite Hk. cbn. split.
      * intros [Hx Hex]. split; [now right|exact Hex].
      * intros [[<-|Hx] (ts' & Hts' & Hlt')]; [|eauto].
        rewrite Hts in Hts'. injection Hts' as <-.
        apply Qlt_not_le in Hlt'. contradiction.
Qed.

Lemma max_from_float_spec {A : Type} (key : A -> option Q) (l : list A)
    (best : A) (kb : Q) :
  key best = Some kb -> Forall (fun x => is_Some (key x)) l ->
  exists m km,
    max_from_float key best kb l = Some m /\ key m = Some km
    /\ (m = best \/ In m l) /\ (kb <= km)%Q
    /\ forall x kx, In x l -> key x = Some kx -> (kx <= km)%Q.
Proof.
  intros Hb Hall. revert best kb Hb.
  induction Hall as [|x l [kx Hx] _ IH]; intros best kb Hb; cbn.
  - exists best, kb. repeat split; auto. apply Qle_refl. intros ? ? [].
  - rewrite Hx. cbn [mbind option_bind].
    destruct (Qlt_bool kb kx) eqn:Hlt.
    + apply Qlt_bool_iff in Hlt.
      destruct (IH x kx Hx) as (m & km & -> & Hm & Hsrc & Hle & Hmax).
      exists m, km. split; [reflexivity|]. split; [exact Hm|]. split; [|split].
      * right. destruct Hsrc as [->|Hin]; [now left|now right].
      * lra.
      * intros y ky [<-|Hy] Hky; [|eauto]. rewrite Hx in Hky.
        injection Hky as <-. exact Hle.
    + apply Qlt_bool_false in Hlt.
      destruct (IH best kb Hb) as (m & km & -> & Hm & Hsrc & Hle & Hmax).
      exists m, km. split; [reflexivity|]. split; [exact Hm|]. split; [|split].
      * destruct Hsrc as [->|Hin]; [now left|right; now right].
      * exact Hle.
      * intros y ky [<-|Hy] Hky; [|eauto]. rewrite Hx in Hky.
        injection Hky as <-. lra.
Qed.

Lemma min_from_float_spec {A : Type} (key : A -> option Q) (l : list A)
    (best : A) (kb : Q) :
  key best = Some kb -> Forall (fun x => is_Some (key x)) l ->
  exists m km,
    min_from_float key best kb l = Some m /\ key m = Some km
    /\ (m = best \/ In m l) /\ (km <= kb)%Q
    /\ forall x kx, In x l -> key x = Some kx -> (km <= kx)%Q.
Proof.
  intros Hb Hall. revert best kb Hb.
  induction Hall as [|x l [kx Hx] _ IH]; intros best kb Hb; cbn.
  - exists best, kb. repeat split; auto. apply Qle_refl. intros ? ? [].
  - rewrite Hx. cbn [mbind option_bind].
    destruct (Qlt_bool kx kb) eqn:Hlt.
    + apply Qlt_bool_iff in Hlt.
      destruct (IH x kx Hx) as (m & km & -> & Hm & Hsrc & Hle & Hmin).
      exists m, km. split; [reflexivity|]. split; [exact Hm|]. split; [|split].
      * right. destruct Hsrc as [->|Hin]; [now left|now right].
      * lra.
      * intros y ky [<-|Hy] Hky; [|eauto]. rewrite Hx in Hky.
        injection Hky as <-. exact Hle.
    + apply Qlt_bool_false in Hlt.
      destruct (IH best kb Hb) as (m & km & -> & Hm & Hsrc & Hle & Hmin).
      exists m, km. split; [reflexivity|]. split; [exact Hm|]. split; [|split].
      * destruct Hsrc as [->|Hin]; [now left|right; now right].
      * exact Hle.
      * intros y ky [<-|Hy] Hky; [|eauto]. rewrite Hx in Hky.
        injection Hky as <-. lra.
Qed.

Lemma py_max_float_spec {A : Type} (key : A -> option Q) (l : list A) :
  Forall (fun x => is_Some (key x)) l ->
  match l with
  | [] => py_max_float key l = Some None
  | _ => exists m km, py_max_float key l = Some (Some m) /\ key m = Some km
           /\ In m l /\ forall x kx, In x l -> key x = Some kx -> (kx <= km)%Q
  end.
Proof.
  intros Hall. destruct l as [|x l]; [reflexivity|].
  inversion Hall as [|? ? [kx Hx] Hl]; subst. cbn. rewrite Hx. cbn [mbind option_bind].
  destruct (max_from_float_spec key l x kx Hx Hl) as (m & km & -> & Hm & Hsrc & Hle & Hmax).
  exists m, km. split; [reflexivity|]. split; [exact Hm|]. split.
  - destruct Hsrc as [->|Hin]; [now left|now right].
  - intros y ky [<-|Hy] Hky; [|eauto]. rewrite Hx in Hky. injection Hky as <-. exact Hle.
Qed.

Lemma py_min_float_spec {A : Type} (key : A -> option Q) (l : list A) :
  Forall (fun x => is_Some (key x)) l ->
  match l with
  | [] => py_min_float key l = Some None
  | _ => exists m km, py_min_float key l = Some (Some m) /\ key m = Some km
           /\ In m l /\ forall x kx, In x l -> key x = Some kx -> (km <= kx)%Q
  end.
Proof.
  intros Hall. destruct l as [|x l]; [reflexivity|].
  inversion Hall as [|? ? [kx Hx] Hl]; subst. cbn. rewrite Hx. cbn [mbind option_bind].
  destruct (min_from_float_spec key l x kx Hx Hl) as (m & km & -> & Hm & Hsrc & Hle & Hmin).
  exists m, km. split; [reflexivity|]. split; [exact Hm|]. split.
  - destruct Hsrc as [->|Hin]; [now left|now right].
  - intros y ky [<-|Hy] Hky; [|eauto]. rewrite Hx in Hky. injection Hky as <-. exact Hle.
Qed.

Lemma round_half_even_near (q : Q) :
  (inject_Z (round_half_even q) - q <= 1 # 2)%Q
  /\ (q - inject_Z (round_half_even q) <= 1 # 2)%Q.
Proof.
  unfold round_half_even.
  pose proof (Qfloor_le q) as Hlo. pose proof (Qlt_floor q) as Hhi.
  rewrite inject_Z_plus in Hhi. change (inject_Z 1) with 1%Q in Hhi.
  destruct (Qcompare_spec (q - inject_Z (Qfloor q)) (1 # 2)) as [He|Hl|Hg].
  - destruct (Z.even (Qfloor q)).
    + split; lra.
    + rewrite inject_Z_plus. change (inject_Z 1) with 1%Q. split; lra.
  - split; lra.
  - rewrite inject_Z_plus. change (inject_Z 1) with 1%Q. split; lra.
Qed.

Lemma round_half_even_nonneg (q : Q) : (0 <= q)%Q -> 0 <= round_half_even q.
Proof.
  intros Hq. unfold round_half_even.
  assert (Hf : 0 <= Qfloor q).
  { change 0 with (Qfloor 0). now apply Qfloor_resp_le. }
  destruct (_ ?= _)%Q; [destruct (Z.even _)|..]; lia.
Qed.

Lemma py_round_nonneg (q : Q) (n : nat) : (0 <= q)%Q -> (0 <= py_round q n)%Q.
Proof.
  intros Hq. unfold py_round.
  assert (Hp : 0 < 10 ^ Z.of_nat n) by (apply Z.pow_pos_nonneg; lia).
  assert (Hpq : (0 < inject_Z (10 ^ Z.of_nat n))%Q).
  { change 0%Q with (inject_Z 0). now rewrite <- Zlt_Qlt. }
  apply Qle_shift_div_l; [exact Hpq|]. rewrite Qmult_0_l.
  change 0%Q with (inject_Z 0). rewrite <- Zle_Qle.
  apply round_half_even_nonneg. apply Qmult_le_0_compat; [exact Hq|].
  now apply Qlt_le_weak.
Qed.

(** X20.  On rows that all carry a timestamp and a price, the live
    Before lookup answers from a row with the largest timestamp among the
    rows strictly before the fill (a row at the fill's own millisecond is
    not used), reports a non-negative distance, and returns [None] exactly
    when no row lies strictly before the fill. *)
Theorem live_before_is_latest_strictly_before (records : list market_row)
    (fill_timestamp : Z) :
  Forall (fun r => is_Some (r_timestamp_ms r) /\ is_Some (r_bbo r)) records ->
  match polymarket_before_of records fill_timestamp with
  | Some b =>
      exists r ts,
        In r records /\ r_timestamp_ms r = Some ts
        /\ (ts < inject_Z fill_timestamp)%Q
        /\ (forall r' ts', In r' records -> r_timestamp_ms r' = Some ts' ->
              (ts' < inject_Z fill_timestamp)%Q -> (ts' <= ts)%Q)
        /\ r_bbo r = Some (pm_bbo b)
        /\ pm_seconds_from_fill b
           = py_round ((inject_Z fill_timestamp - ts) / 1000) 3
        /\ (0 <= pm_seconds_from_fill b)%Q
  | None =>
      forall r ts, In r records -> r_timestamp_ms r = Some ts ->
                   (inject_Z fill_timestamp <= ts)%Q
  end.
Proof.
  intros Hall.
  assert (Hts : Forall (fun r => is_Some (r_timestamp_ms r)) records).
  { eapply Forall_impl; [exact Hall|]. now intros r [? _]. }
  destruct (before_records_spec fill_timestamp records Hts) as (kept & Hk & Hin).
  unfold polymarket_before_of.
  destruct records as [|r0 records]; [intros ? ? []|].
  set (rs := r0 :: records) in *. rewrite Hk. cbn [mbind option_bind].
  assert (Hkt : Forall (fun r => is_Some (r_timestamp_ms r)) kept).
  { apply List.Forall_forall. intros r Hr. apply Hin in Hr as [_ (ts & -> & _)]. eauto. }
  pose proof (py_max_float_spec r_timestamp_ms kept Hkt) as Hmax.
  destruct kept as [|k0 kept].
  - rewrite Hmax. cbn. intros r ts Hr Hrts.
    destruct (Qlt_le_dec ts (inject_Z fill_timestamp)) as [Hlt|Hge]; [|exact Hge].
    exfalso. apply (proj2 (Hin r)); eauto.
  - destruct Hmax as (m & km & -> & Hm & Hmin & Hle). cbn [mbind option_bind].
    apply Hin in Hmin as [Hmr (ts & Hmts & Hlt)].
    rewrite Hm in Hmts. injection Hmts as <-.
    rewrite List.Forall_forall in Hall. destruct (Hall m Hmr) as [_ [b Hb]].
    unfold row_result. rewrite Hm, Hb. cbn [mbind option_bind].
    exists m, km. cbn [pm_bbo pm_seconds_from_fill].
    split; [exact Hmr|]. split; [exact Hm|]. split; [exact Hlt|].
    split; [|split; [exact Hb|split; [reflexivity|]]].
    + intros r' ts' Hr' Hts' Hlt'. apply (Hle r' ts'); [|exact Hts'].
      apply Hin. eauto.
    + apply py_round_nonneg. apply Qle_shift_div_l; [reflexivity|]. lra.
Qed.

(** X21.  On rows that all carry a timestamp and a price, the live
    After lookup answers from a row with the smallest timestamp among all the
    rows the query returned, without comparing it with the fill time, and
    returns [None] exactly when the query returned no row. *)
Theorem live_after_is_earliest_returned (records : list market_row)
    (fill_timestamp : Z) :
  Forall (fun r => is_Some (r_timestamp_ms r) /\ is_Some (r_bbo r)) records ->
  match polymarket_after_of records fill_timestamp with
  | Some a =>
      exists r ts,
        In r records /\ r_timestamp_ms r = Some ts
        /\ (forall r' ts', In r' records -> r_timestamp_ms r' = Some ts' ->
              (ts <= ts')%Q)
        /\ r_bbo r = Some (pm_bbo a)
        /\ pm_seconds_from_fill a
           = py_round ((ts - inject_Z fill_timestamp) / 1000) 3
  | None => records = []
  end.
Proof.
  intros Hall.
  assert (Hts : Forall (fun r => is_Some (r_timestamp_ms r)) records).
  { eapply Forall_impl; [exact Hall|]. now intros r [? _]. }
  pose proof (py_min_float_spec r_timestamp_ms records Hts) as Hmin.
  unfold polymarket_after_of.
  destruct records as [|r0 records]; [reflexivity|].
  destruct Hmin as (m & km & -> & Hm & Hin & Hle). cbn [mbind option_bind].
  rewrite List.Forall_forall in Hall. destruct (Hall m Hin) as [_ [b Hb]].
  unfold row_result. rewrite Hm, Hb. cbn [mbind option_bind].
  exists m, km. cbn [pm_bbo pm_seconds_from_fill]. auto 10.
Qed.

Lemma before_records_raises (t : Z) (records : list market_row) (r : market_row) :
  In r records -> r_timestamp_ms r = None -> before_records t records = None.
Proof.
  induction records as [|x records IH]; [intros []|].
  intros [->|Hin] Hr; cbn.
  - now rewrite Hr.
  - destruct (r_timestamp_ms x); [|reflexivity]. cbn [mbind option_bind].
    now rewrite IH.
Qed.

Lemma min_from_float_raises {A : Type} (key : A -> option Q) (l : list A)
    (best : A) (kb : Q) (x : A) :
  In x l -> key x = None -> min_from_float key best kb l = None.
Proof.
  revert best kb. induction l as [|y l IH]; intros best kb; [intros []|].
  intros [->|Hin] Hx; cbn.
  - now rewrite Hx.
  - destruct (key y) as [ky|]; [|reflexivity]. cbn [mbind option_bind].
    destruct (Qlt_bool ky kb); now apply IH.
Qed.

(** X22.  One row with a null [timestamp_ms] among the rows the query
    returned makes both live lookups return [None]. *)
Theorem null_timestamp_voids_live_lookup (records : list market_row)
    (fill_timestamp : Z) (r : market_row) :
  In r records -> r_timestamp_ms r = None ->
  polymarket_before_of records fill_timestamp = None
  /\ polymarket_after_of records fill_timestamp = None.
Proof.
  intros Hin Hr. unfold polymarket_before_of, polymarket_after_of.
  destruct records as [|r0 records]; [destruct Hin|].
  rewrite (before_records_raises _ _ r Hin Hr). split; [reflexivity|].
  cbn [py_min_float]. destruct Hin as [->|Hin].
  - now rewrite Hr.
  - destruct (r_timestamp_ms r0) as [k0|]; [|reflexivity].
    cbn [mbind option_bind]. now rewrite (min_from_float_raises _ _ _ _ r Hin Hr).
Qed.

End LiveLookupFacts.

(* ================================================================== *)
(** * Properties of the Deltas lookup *)
(* ================================================================== *)

Section DeltasFacts.
Import Py Deltas.

Implicit Types (data : list deltas_record) (r : deltas_record).

Lemma same_rows_refl data : same_rows data data.
Proof. unfold same_rows. induction data; constructor; auto. Qed.

Lemma same_rows_trans data1 data2 data3 :
  same_rows data1 data2 -> same_rows data2 data3 -> same_rows data1 data3.
Proof.
  unfold same_rows. intros H12. revert data3.
  induction H12 as [|a b l k (Ht & Ho & Hts & Hp) _ IH]; intros data3 H23.
  - inversion H23. constructor.
  - inversion H23 as [|? c ? m (Ht' & Ho' & Hts' & Hp') Hkm]; subst.
    constructor; [|auto]. repeat split; congruence.
Qed.

Lemma same_rows_sym data data' : same_rows data data' -> same_rows data' data.
Proof.
  unfold same_rows. induction 1 as [|a b l k (Ht & Ho & Hts & Hp) _ IH];
    constructor; auto.
Qed.

Lemma same_rows_alter (f : deltas_record -> deltas_record) (i : nat) data :
  (forall r, d_team (f r) = d_team r /\ d_opposing_team (f r) = d_opposing_team r
             /\ d_timestamp_ms (f r) = d_timestamp_ms r
             /\ d_percentage (f r) = d_percentage r) ->
  same_rows data (alter f i data).
Proof.
  intros Hf. unfold same_rows. revert i.
  induction data as [|r data IH]; intros i; [constructor|].
  destruct i as [|i]; cbn.
  - constructor; [apply Hf|apply same_rows_refl].
  - constructor; [auto|apply IH].
Qed.

Lemma same_rows_lookup data data' (i : nat) r :
  same_rows data data' -> data !! i = Some r ->
  exists r', data' !! i = Some r'
    /\ d_team r' = d_team r /\ d_opposing_team r' = d_opposing_team r
    /\ d_timestamp_ms r' = d_timestamp_ms r /\ d_percentage r' = d_percentage r.
Proof.
  intros Hs Hr. destruct (Forall2_lookup_l _ _ _ _ _ Hs Hr) as (r' & Hr' & H').
  exists r'. split; [exact Hr'|exact H'].
Qed.

Lemma same_rows_lookup_none data data' (i : nat) :
  same_rows data data' -> data !! i = None -> data' !! i = None.
Proof.
  intros Hs Hn. apply lookup_ge_None. apply lookup_ge_None in Hn.
  now rewrite <- (Forall2_length _ _ _ Hs).
Qed.

Lemma same_rows_timestamp_at data data' (i : nat) :
  same_rows data data' -> timestamp_at data' i = timestamp_at data i.
Proof.
  intros Hs. unfold timestamp_at. destruct (data !! i) as [r|] eqn:Hr.
  - destruct (same_rows_lookup _ _ _ _ Hs Hr) as (r' & -> & _ & _ & Hts & _).
    cbn. exact Hts.
  - now rewrite (same_rows_lookup_none _ _ _ Hs Hr).
Qed.

Lemma same_rows_matching (team_name : string) (i : nat) data data' :
  same_rows data data' ->
  matching_from team_name i data' = matching_from team_name i data.
Proof.
  intros Hs. revert i. induction Hs as [|r r' l k (Ht & _) _ IH]; intros i;
    [reflexivity|].
  cbn. unfold is_team_match. rewrite Ht, IH. reflexivity.
Qed.

Lemma min_from_ext {A : Type} (key key' : A -> Z) (l : list A) (best : A) :
  (forall x, key' x = key x) -> min_from key' best l = min_from key best l.
Proof.
  intros He. revert best. induction l as [|x l IH]; intros best; cbn;
    [reflexivity|].
  rewrite !He. destruct (_ <? _); apply IH.
Qed.

Lemma max_from_ext {A : Type} (key key' : A -> Z) (l : list A) (best : A) :
  (forall x, key' x = key x) -> max_from key' best l = max_from key best l.
Proof.
  intros He. revert best. induction l as [|x l IH]; intros best; cbn;
    [reflexivity|].
  rewrite !He. destruct (_ <? _); apply IH.
Qed.

Lemma py_min_ext {A : Type} (key key' : A -> Z) (l : list A) :
  (forall x, key' x = key x) -> py_min key' l = py_min key l.
Proof.
  intros He. destruct l as [|x l]; cbn; [reflexivity|].
  now rewrite (min_from_ext key key').
Qed.

Lemma py_max_ext {A : Type} (key key' : A -> Z) (l : list A) :
  (forall x, key' x = key x) -> py_max key' l = py_max key l.
Proof.
  intros He. destruct l as [|x l]; cbn; [reflexivity|].
  now rewrite (max_from_ext key key').
Qed.

Lemma same_rows_closest (team_name : string) (target : Z) data data' :
  same_rows data data' ->
  get_closest_record team_name target data'
  = get_closest_record team_name target data.
Proof.
  intros Hs. unfold get_closest_record.
  rewrite (same_rows_matching _ _ _ _ Hs).
  destruct (matching_from team_name 0 data) as [l|]; [|reflexivity].
  cbn [mbind option_bind]. f_equal. apply py_min_ext.
  intros i. now rewrite (same_rows_timestamp_at _ _ _ Hs).
Qed.

Lemma set_opponent_keeps (v : value) r :
  d_team (set_opponent_percentage v r) = d_team r
  /\ d_opposing_team (set_opponent_percentage v r) = d_opposing_team r
  /\ d_timestamp_ms (set_opponent_percentage v r) = d_timestamp_ms r
  /\ d_percentage (set_opponent_percentage v r) = d_percentage r.
Proof. cbn. auto. Qed.

Lemma stamp_keeps (z : Z) r :
  d_team (stamp z r) = d_team r
  /\ d_opposing_team (stamp z r) = d_opposing_team r
  /\ d_timestamp_ms (stamp z r) = d_timestamp_ms r
  /\ d_percentage (stamp z r) = d_percentage r.
Proof. cbn. auto. Qed.

Lemma add_opponent_same (i : nat) data data1 :
  add_opponent i data = Some data1 -> same_rows data data1.
Proof.
  unfold add_opponent.
  destruct (data !! i) as [c|]; [|intros [= <-]; apply same_rows_refl].
  destruct (d_opposing_team c) as [opp|]; [|intros [= <-]; apply same_rows_refl].
  destruct (String.eqb opp ""); [intros [= <-]; apply same_rows_refl|].
  destruct (get_closest_record _ _ _) as [[j|]|]; cbn; [|intros [= <-]; apply same_rows_refl|discriminate].
  destruct (data !! j) as [o|]; intros [= <-]; [|apply same_rows_refl].
  apply same_rows_alter. intros r. apply set_opponent_keeps.
Qed.

Lemma add_opponent_indep (i : nat) data data' data1 :
  same_rows data data' ->
  add_opponent i data = Some data1 ->
  exists data1', add_opponent i data' = Some data1' /\ same_rows data1 data1'.
Proof.
  intros Hs. unfold add_opponent.
  destruct (data !! i) as [c|] eqn:Hc.
  - destruct (same_rows_lookup _ _ _ _ Hs Hc) as (c' & -> & _ & Ho & Hts & _).
    rewrite Ho, Hts.
    destruct (d_opposing_team c) as [opp|]; [|intros [= <-]; eauto].
    destruct (String.eqb opp ""); [intros [= <-]; eauto|].
    rewrite (same_rows_closest _ _ _ _ Hs).
    destruct (get_closest_record _ _ data) as [[j|]|]; cbn;
      [|intros [= <-]; eauto|discriminate].
    destruct (data !! j) as [o|] eqn:Hj.
    + destruct (same_rows_lookup _ _ _ _ Hs Hj) as (o' & -> & _ & _ & _ & Hp).
      rewrite Hp. intros [= <-]. eexists. split; [reflexivity|].
      eapply same_rows_trans;
        [apply same_rows_sym, same_rows_alter; intros; apply set_opponent_keeps|].
      eapply same_rows_trans; [exact Hs|].
      apply same_rows_alter; intros; apply set_opponent_keeps.
    + rewrite (same_rows_lookup_none _ _ _ Hs Hj). intros [= <-]. eauto.
  - rewrite (same_rows_lookup_none _ _ _ Hs Hc). intros [= <-]. eauto.
Qed.

Lemma get_deltas_data_same (team_abbr : string) (t : Z) data res data' :
  get_deltas_data team_abbr t data = Some (res, data') -> same_rows data data'.
Proof.
  unfold get_deltas_data.
  destruct (matching_from team_abbr 0 data) as [m|]; [|discriminate].
  cbn [mbind option_bind].
  destruct m as [|m0 m]; [intros [= _ <-]; apply same_rows_refl|].
  set (before := py_max _ _). set (after := py_min _ _).
  destruct (match before with Some i => add_opponent i data | None => Some data end)
    as [d1|] eqn:H1; [|discriminate]. cbn [mbind option_bind].
  destruct (match after with Some j => add_opponent j d1 | None => Some d1 end)
    as [d2|] eqn:H2; [|discriminate]. cbn [mbind option_bind].
  intros [= _ <-].
  assert (S1 : same_rows data d1).
  { destruct before; [eapply add_opponent_same; exact H1|].
    injection H1 as <-. apply same_rows_refl. }
  assert (S2 : same_rows d1 d2).
  { destruct after; [eapply add_opponent_same; exact H2|].
    injection H2 as <-. apply same_rows_refl. }
  eapply same_rows_trans; [exact S1|]. eapply same_rows_trans; [exact S2|].
  eapply same_rows_trans.
  - instantiate (1 := match before with
                      | Some i => alter (fun r => stamp (t - d_timestamp_ms r) r) i d2
                      | None => d2 end).
    destruct before; [|apply same_rows_refl].
    apply same_rows_alter. intros r. apply stamp_keeps.
  - destruct after; [|apply same_rows_refl].
    apply same_rows_alter. intros r. apply stamp_keeps.
Qed.

(** X23.  A lookup that returns changes no team, opposing team, timestamp
    or percentage of [processed_data]; hence a lookup that returns on the
    loaded records returns the same selection on the records an earlier
    lookup left. *)
Theorem deltas_lookup_selection_ignores_earlier_lookups
    (team1 team2 : string) (t1 t2 : Z) data res1 data1 res2 data2 :
  get_deltas_data team1 t1 data = Some (res1, data1) ->
  get_deltas_data team2 t2 data = Some (res2, data2) ->
  same_rows data data1
  /\ exists data2', get_deltas_data team2 t2 data1 = Some (res2, data2').
Proof.
  intros H1 H2. pose proof (get_deltas_data_same _ _ _ _ _ H1) as Hs.
  split; [exact Hs|].
  unfold get_deltas_data in H2 |- *.
  rewrite (same_rows_matching _ _ _ _ Hs).
  destruct (matching_from team2 0 data) as [m|]; [|discriminate].
  cbn [mbind option_bind] in *.
  destruct m as [|m0 m]; [injection H2 as <- _; eauto|].
  assert (Hts : forall i, timestamp_at data1 i = timestamp_at data i)
    by (intros i; now apply same_rows_timestamp_at).
  rewrite (filter_ext (fun i => timestamp_at data1 i <? t2)
                      (fun i => timestamp_at data i <? t2))
    by (intros i; now rewrite Hts).
  rewrite (filter_ext (fun i => t2 <? timestamp_at data1 i)
                      (fun i => t2 <? timestamp_at data i))
    by (intros i; now rewrite Hts).
  rewrite (py_max_ext (timestamp_at data) (timestamp_at data1)) by exact Hts.
  rewrite (py_min_ext (timestamp_at data) (timestamp_at data1)) by exact Hts.
  set (before := py_max _ _) in *. set (after := py_min _ _) in *.
  destruct (match before with Some i => add_opponent i data | None => Some data end)
    as [d1|] eqn:E1; [|discriminate]. cbn [mbind option_bind] in H2.
  destruct (match after with Some j => add_opponent j d1 | None => Some d1 end)
    as [d2|] eqn:E2; [|discriminate]. cbn [mbind option_bind] in H2.
  injection H2 as <- _.
  assert (Hd1 : exists d1', match before with
                            | Some i => add_opponent i data1
                            | None => Some data1 end = Some d1'
                            /\ same_rows d1 d1').
  { destruct before; [eapply add_opponent_indep; eassumption|].
    injection E1 as <-. eauto. }
  destruct Hd1 as (d1' & -> & Hs1). cbn [mbind option_bind].
  assert (Hd2 : exists d2', match after with
                            | Some j => add_opponent j d1'
                            | None => Some d1' end = Some d2'
                            /\ same_rows d2 d2').
  { destruct after; [eapply add_opponent_indep; eassumption|].
    injection E2 as <-. eauto. }
  destruct Hd2 as (d2' & -> & Hs2). cbn [mbind option_bind]. eauto.
Qed.

Lemma matching_from_spec (team_name : string) (i : nat) data (l : list nat) :
  matching_from team_name i data = Some l ->
  forall j, In j l <->
    (i <= j)%nat
    /\ exists r, data !! (j - i)%nat = Some r
                 /\ is_team_match r team_name = Some true.
Proof.
  revert i l. induction data as [|r data IH]; intros i l; cbn.
  - intros [= <-] j. cbn. split; [intros []|]. intros (_ & x & Hx & _).
    rewrite lookup_nil in Hx. discriminate.
  - destruct (is_team_match r team_name) as [m|] eqn:Hm; [|discriminate].
    cbn [mbind option_bind].
    destruct (matching_from team_name (S i) data) as [l'|] eqn:Hl; [|discriminate].
    cbn [mbind option_bind]. intros [= <-] j.
    specialize (IH (S i) l' Hl j).
    assert (Hstep : (S i <= j)%nat ->
              (r :: data) !! (j - i)%nat = data !! (j - S i)%nat).
    { intros Hle. replace (j - i)%nat with (S (j - S i)) by lia. reflexivity. }
    split.
    + intros Hin.
      assert (Hcase : j = i /\ m = true \/ In j l').
      { destruct m; [destruct Hin as [<-|Hin]|]; auto. }
      destruct Hcase as [[-> ->]|Hin'].
      * split; [lia|]. exists r. rewrite Nat.sub_diag. auto.
      * apply IH in Hin' as (Hle & x & Hx & Hmx). split; [lia|].
        exists x. rewrite Hstep by exact Hle. auto.
    + intros (Hle & x & Hx & Hmx).
      destruct (decide (j = i)) as [->|Hne].
      * rewrite Nat.sub_diag in Hx. injection Hx as <-.
        rewrite Hm in Hmx. injection Hmx as ->. now left.
      * assert (Hin' : In j l').
        { apply IH. split; [lia|]. exists x. rewrite <- Hstep by lia. auto. }
        destruct m; [now right|exact Hin'].
Qed.

(** X24.  When [get_deltas_data] returns, its before side is a record of the team
    with the largest timestamp among the team's records strictly before the
    fill, however long before; it is [None] exactly when the team has no
    record strictly before the fill. *)
Theorem deltas_before_is_latest_earlier_record (team_abbr : string) (t : Z)
    data res data' :
  get_deltas_data team_abbr t data = Some (res, data') ->
  match deltas_before res with
  | Some i =>
      exists r, data !! i = Some r
        /\ is_team_match r team_abbr = Some true
        /\ d_timestamp_ms r < t
        /\ forall (j : nat) r', data !! j = Some r' ->
             is_team_match r' team_abbr = Some true ->
             d_timestamp_ms r' < t -> d_timestamp_ms r' <= d_timestamp_ms r
  | None =>
      forall (j : nat) r', data !! j = Some r' ->
        is_team_match r' team_abbr = Some true -> t <= d_timestamp_ms r'
  end.
Proof.
  unfold get_deltas_data.
  destruct (matching_from team_abbr 0 data) as [m|] eqn:Hm; [|discriminate].
  cbn [mbind option_bind].
  pose proof (matching_from_spec _ _ _ _ Hm) as Hspec.
  assert (Hin : forall j, In j m <->
            exists r, data !! j = Some r /\ is_team_match r team_abbr = Some true).
  { intros j. rewrite Hspec, Nat.sub_0_r. split; [tauto|]. intros Hx. split; [lia|exact Hx]. }
  assert (Hat : forall j r, data !! j = Some r -> timestamp_at data j = d_timestamp_ms r).
  { intros j r Hr. unfold timestamp_at. now rewrite Hr. }
  destruct m as [|m0 m].
  - intros [= <- _]. cbn. intros j r' Hr' Hmatch. exfalso.
    apply (proj2 (Hin j)). eauto.
  - set (ms := m0 :: m) in *.
    set (bs := List.filter (fun i => timestamp_at data i <? t) ms).
    pose proof (py_max_spec (timestamp_at data) bs) as Hmax.
    destruct (py_max (timestamp_at data) bs) as [i|] eqn:Hb.
    + destruct (add_opponent i data) as [d1|]; [|discriminate].
      cbn [mbind option_bind].
      destruct (py_min _ _) as [j|];
        [destruct (add_opponent j d1) as [d2|]; [|discriminate]|];
        cbn [mbind option_bind]; intros [= <- _]; cbn [deltas_before].
      all: destruct Hmax as [Hib Hle]; apply filter_In in Hib as [Hi Hlt].
      all: apply Hin in Hi as (r & Hr & Hmatch); exists r.
      all: rewrite (Hat _ _ Hr) in Hlt; apply Z.ltb_lt in Hlt.
      all: split; [exact Hr|]; split; [exact Hmatch|]; split; [exact Hlt|].
      all: intros k r' Hr' Hm' Hlt'; rewrite <- (Hat _ _ Hr), <- (Hat _ _ Hr').
      all: apply Hle; apply filter_In; split; [apply Hin; eauto|].
      all: rewrite (Hat _ _ Hr'); now apply Z.ltb_lt.
    + cbn [mbind option_bind].
      destruct (py_min _ _) as [j|];
        [destruct (add_opponent j data) as [d2|]; [|discriminate]|];
        cbn [mbind option_bind]; intros [= <- _]; cbn [deltas_before].
      all: intros k r' Hr' Hm'.
      all: destruct (Z.lt_ge_cases (d_timestamp_ms r') t) as [Hlt|Hge]; [|lia].
      all: exfalso; assert (Hjb : In k bs)
             by (apply filter_In; split; [apply Hin; eauto|];
                 rewrite (Hat _ _ Hr'); now apply Z.ltb_lt).
      all: rewrite Hmax in Hjb; destruct Hjb.
Qed.

Lemma add_opponent_other (i k : nat) data data1 :
  add_opponent i data = Some data1 -> k <> i -> data1 !! k = data !! k.
Proof.
  unfold add_opponent.
  destruct (data !! i) as [c|]; [|now intros [= <-]].
  destruct (d_opposing_team c) as [opp|]; [|now intros [= <-]].
  destruct (String.eqb opp ""); [now intros [= <-]|].
  destruct (get_closest_record _ _ _) as [[j|]|]; cbn;
    [|now intros [= <-]|discriminate].
  destruct (data !! j) as [o|]; intros [= <-] Hne; [|reflexivity].
  now apply list_lookup_alter_ne.
Qed.

Lemma add_opponent_seconds (i k : nat) data data1 :
  add_opponent i data = Some data1 ->
  shown_seconds data1 k = shown_seconds data k.
Proof.
  intros Ha. unfold shown_seconds.
  destruct (decide (k = i)) as [->|Hne];
    [|now rewrite (add_opponent_other _ _ _ _ Ha Hne)].
  revert Ha. unfold add_opponent.
  destruct (data !! i) as [c|] eqn:Hc; [|intros [= <-]; now rewrite Hc].
  destruct (d_opposing_team c) as [opp|]; [|intros [= <-]; now rewrite Hc].
  destruct (String.eqb opp ""); [intros [= <-]; now rewrite Hc|].
  destruct (get_closest_record _ _ _) as [[j|]|]; cbn;
    [|intros [= <-]; now rewrite Hc|discriminate].
  destruct (data !! j) as [o|]; intros [= <-]; [|now rewrite Hc].
  rewrite list_lookup_alter_eq, Hc. reflexivity.
Qed.

(** The value of [seconds_from_fill] every record shows once a lookup has
    returned. *)
Lemma get_deltas_data_seconds (team_abbr : string) (t : Z) data res data' :
  get_deltas_data team_abbr t data = Some (res, data') ->
  (forall i, deltas_before res = Some i ->
     timestamp_at data i < t
     /\ shown_seconds data' i
        = Some (inject_Z (t - timestamp_at data i) / 1000)%Q)
  /\ (forall j, deltas_after res = Some j ->
        t < timestamp_at data j
        /\ shown_seconds data' j
           = Some (inject_Z (timestamp_at data j - t) / 1000)%Q)
  /\ (forall k, deltas_before res <> Some k -> deltas_after res <> Some k ->
        shown_seconds data' k = shown_seconds data k).
Proof.
  intros Hrun. pose proof (get_deltas_data_same _ _ _ _ _ Hrun) as Hsame.
  revert Hrun. unfold get_deltas_data.
  destruct (matching_from team_abbr 0 data) as [m|] eqn:Hm; [|discriminate].
  cbn [mbind option_bind].
  pose proof (matching_from_spec _ _ _ _ Hm) as Hspec.
  assert (Hin : forall j, In j m -> exists r, data !! j = Some r).
  { intros j Hj. apply Hspec in Hj as (_ & r & Hr & _).
    rewrite Nat.sub_0_r in Hr. eauto. }
  destruct m as [|m0 m].
  { intros [= <- <-]. cbn. repeat split; try discriminate. }
  set (ms := m0 :: m) in *.
  set (bs := List.filter (fun i => timestamp_at data i <? t) ms).
  set (az := List.filter (fun i => t <? timestamp_at data i) ms).
  pose proof (py_max_spec (timestamp_at data) bs) as Hmax.
  pose proof (py_min_spec (timestamp_at data) az) as Hmin.
  set (before := py_max (timestamp_at data) bs) in *.
  set (after := py_min (timestamp_at data) az) in *.
  destruct (match before with Some i => add_opponent i data | None => Some data end)
    as [d1|] eqn:E1; [|discriminate]. cbn [mbind option_bind].
  destruct (match after with Some j => add_opponent j d1 | None => Some d1 end)
    as [d2|] eqn:E2; [|discriminate]. cbn [mbind option_bind].
  intros [= <- <-]. cbn [deltas_before deltas_after].
  assert (S1 : same_rows data d1).
  { destruct before; [eapply add_opponent_same; exact E1|].
    injection E1 as <-. apply same_rows_refl. }
  assert (S2 : same_rows d1 d2).
  { destruct after; [eapply add_opponent_same; exact E2|].
    injection E2 as <-. apply same_rows_refl. }
  assert (S12 : same_rows data d2) by (eapply same_rows_trans; eassumption).
  assert (Hsec : forall k, shown_seconds d2 k = shown_seconds data k).
  { intros k. transitivity (shown_seconds d1 k).
    - destruct after; [eapply add_opponent_seconds; exact E2|congruence].
    - destruct before; [eapply add_opponent_seconds; exact E1|congruence]. }
  assert (Hb : forall i, before = Some i ->
            timestamp_at data i < t /\ exists r, data !! i = Some r).
  { intros i Hi. rewrite Hi in Hmax. destruct Hmax as [Hib _].
    apply filter_In in Hib as [Hi' Hlt]. apply Z.ltb_lt in Hlt. auto. }
  assert (Ha : forall j, after = Some j ->
            t < timestamp_at data j /\ exists r, data !! j = Some r).
  { intros j Hj. rewrite Hj in Hmin. destruct Hmin as [Hja _].
    apply filter_In in Hja as [Hj' Hlt]. apply Z.ltb_lt in Hlt. auto. }
  assert (Hstamp : forall (f : deltas_record -> Z) (k : nat) (d : list deltas_record) r,
            d !! k = Some r ->
            shown_seconds (alter (fun r => stamp (f r) r) k d) k
            = Some (inject_Z (f r) / 1000)%Q).
  { intros f k d r Hr. unfold shown_seconds.
    rewrite list_lookup_alter_eq, Hr. reflexivity. }
  assert (Hother : forall (f : deltas_record -> deltas_record) (k k' : nat)
                     (d : list deltas_record),
            k' <> k -> shown_seconds (alter f k d) k' = shown_seconds d k').
  { intros f k k' d Hne. unfold shown_seconds.
    now rewrite list_lookup_alter_ne by congruence. }
  split; [|split].
  - intros i Hi. destruct (Hb i Hi) as [Hlt [r Hr]]. split; [exact Hlt|].
    destruct (same_rows_lookup _ _ _ _ S12 Hr) as (r2 & Hr2 & _ & _ & Hts & _).
    assert (Hat : timestamp_at data i = d_timestamp_ms r2).
    { unfold timestamp_at. rewrite Hr. cbn. now symmetry. }
    rewrite Hi. destruct after as [j|] eqn:Hj.
    + destruct (Ha j eq_refl) as [Hgt _].
      rewrite Hother by (intros ->; lia).
      rewrite (Hstamp _ _ _ _ Hr2). now rewrite Hat.
    + rewrite (Hstamp _ _ _ _ Hr2). now rewrite Hat.
  - intros j Hj. destruct (Ha j Hj) as [Hgt [r Hr]]. split; [exact Hgt|].
    destruct (same_rows_lookup _ _ _ _ S12 Hr) as (r2 & Hr2 & _ & _ & Hts & _).
    assert (Hat : timestamp_at data j = d_timestamp_ms r2).
    { unfold timestamp_at. rewrite Hr. cbn. now symmetry. }
    rewrite Hj. destruct before as [i|] eqn:Hi.
    + destruct (Hb i eq_refl) as [Hlt _].
      assert (Hne : j <> i) by (intros ->; lia).
      assert (Hr2' : alter (fun r => stamp (t - d_timestamp_ms r) r) i d2 !! j
                     = Some r2) by (now rewrite list_lookup_alter_ne by congruence).
      rewrite (Hstamp _ _ _ _ Hr2'). now rewrite Hat.
    + rewrite (Hstamp _ _ _ _ Hr2). now rewrite Hat.
  - intros k Hkb Hka. rewrite <- Hsec.
    destruct after as [j|]; [rewrite Hother by congruence|];
      (destruct before as [i|]; [rewrite Hother by congruence|]); reflexivity.
Qed.

(** X25.  The record a lookup returns is the dictionary of
    [processed_data] itself: when two lookups return the same record as
    their before side, the second one overwrites its [seconds_from_fill], so
    that the fill of the first lookup shows the distance of the second fill
    whenever the two fill times differ. *)
Theorem later_lookup_rewrites_shared_deltas_record
    (team1 team2 : string) (t1 t2 : Z) data res1 data1 res2 data2 (i : nat) :
  get_deltas_data team1 t1 data = Some (res1, data1) ->
  get_deltas_data team2 t2 data1 = Some (res2, data2) ->
  deltas_before res1 = Some i ->
  deltas_before res2 = Some i ->
  shown_seconds data1 i = Some (inject_Z (t1 - timestamp_at data i) / 1000)%Q
  /\ shown_seconds data2 i = Some (inject_Z (t2 - timestamp_at data i) / 1000)%Q
  /\ (t1 <> t2 -> shown_seconds data2 i <> shown_seconds data1 i).
Proof.
  intros H1 H2 Hb1 Hb2.
  destruct (get_deltas_data_seconds _ _ _ _ _ H1) as (Hs1 & _ & _).
  destruct (get_deltas_data_seconds _ _ _ _ _ H2) as (Hs2 & _ & _).
  destruct (Hs1 i Hb1) as [_ E1]. destruct (Hs2 i Hb2) as [_ E2].
  rewrite (same_rows_timestamp_at data data1 i
             (get_deltas_data_same _ _ _ _ _ H1)) in E2.
  split; [exact E1|]. split; [exact E2|].
  intros Hne. rewrite E1, E2. intros [= Heq]. apply Hne. lia.
Qed.

End DeltasFacts.

(* ================================================================== *)
(** * Properties of the league resolution and of streamed orders *)
(* ================================================================== *)

Section LeagueFacts.
Import Py Deltas League.

Lemma upper_lower_ascii (c : ascii) :
  upper_ascii (lower_ascii c) = upper_ascii c.
Proof.
  destruct c as [[] [] [] [] [] [] [] []]; reflexivity.
Qed.

Lemma lower_ascii_dash (c : ascii) :
  Ascii.eqb (lower_ascii c) "-" = Ascii.eqb c "-".
Proof.
  destruct c as [[] [] [] [] [] [] [] []]; reflexivity.
Qed.

Lemma upper_lower (s : string) : upper (lower s) = upper s.
Proof.
  induction s as [|c s IH]; cbn; [reflexivity|].
  now rewrite upper_lower_ascii, IH.
Qed.

Lemma first_part_lower (s : string) : first_part (lower s) = lower (first_part s).
Proof.
  induction s as [|c s IH]; cbn; [reflexivity|].
  rewrite lower_ascii_dash. destruct (Ascii.eqb c "-"); cbn; [reflexivity|].
  now rewrite IH.
Qed.

Lemma lower_empty (s : string) :
  String.eqb (lower s) "" = String.eqb s "".
Proof. destruct s; reflexivity. Qed.

Lemma league_map_fixed (l : string) :
  In l league_map -> normalize_league_name (Some l) = Some l.
Proof.
  cbn. intros [<-|[<-|[<-|[<-|[<-|[<-|[]]]]]]]; reflexivity.
Qed.

(** X26.  The league [_get_pinnacle_bbo_sync] resolves from a market
    slug does not depend on the case of the slug; when there is one, it is
    one of the six keys of [league_map], is left as it is by
    [normalize_league_name], and is the normalized upper-case text before
    the slug's first dash. *)
Theorem pinnacle_league_is_one_of_six (market_slug : string) :
  pinnacle_league (Some (lower market_slug)) = pinnacle_league (Some market_slug)
  /\ match pinnacle_league (Some market_slug) with
     | Some league =>
         In league league_map
         /\ normalize_league_name (Some league) = Some league
         /\ league = upper (strip (upper (first_part market_slug)))
     | None => True
     end.
Proof.
  split.
  - unfold pinnacle_league, get_league_from_market_slug.
    rewrite lower_empty. destruct (String.eqb market_slug ""); [reflexivity|].
    now rewrite first_part_lower, upper_lower.
  - unfold pinnacle_league, get_league_from_market_slug.
    destruct (String.eqb market_slug ""); [exact I|].
    unfold normalize_league_name at 1.
    destruct (String.eqb (upper (first_part market_slug)) ""); [exact I|].
    set (u := upper (strip (upper (first_part market_slug)))).
    destruct (existsb (String.eqb u) league_map) eqn:Hex; [|exact I].
    apply existsb_exists in Hex as (l & Hl & Heq).
    apply String.eqb_eq in Heq. subst l.
    split; [exact Hl|]. split; [now apply league_map_fixed|reflexivity].
Qed.

End LeagueFacts.

Section StreamedOrderFacts.
Import Py Main.
Context `{Runtime}.

(** X27.  The order [handle_dome_message] queues ages from its
    reception: whatever the payload's [timestamp], its retention time is the
    parsed [received_at], it is retained exactly while less than 48 hours
    have passed since then, and it starts without after data on either
    side. *)
Theorem streamed_order_ages_from_reception (payload : order)
    (subscription_id : value) (received_at : string) (t now : Q) :
  received_at <> "" ->
  iso_epoch_seconds received_at = Some t ->
  let o := dome_order payload subscription_id received_at in
  _get_order_time_for_retention o = t
  /\ (is_recent now o = true <-> (now - t < horizon_seconds)%Q)
  /\ get o "polymarket_after" = VNone /\ get o "pinnacle_after" = VNone
  /\ has_any_after o = false.
Proof.
  intros Hne Hiso. cbn zeta.
  assert (Hr : get (dome_order payload subscription_id received_at) "received_at"
               = VStr received_at).
  { unfold get, dome_order. rewrite !lookup_insert_ne by discriminate.
    now rewrite lookup_insert_eq. }
  assert (Ht : _get_order_time_for_retention
                 (dome_order payload subscription_id received_at) = t).
  { unfold _get_order_time_for_retention. rewrite Hr. cbn [truthy py_str].
    apply String.eqb_neq in Hne. rewrite Hne. cbn [negb]. now rewrite Hiso. }
  assert (Hpm : get (dome_order payload subscription_id received_at)
                  "polymarket_after" = VNone).
  { unfold get, dome_order. rewrite !(lookup_insert_ne _ "pinnacle_sportbook") by discriminate.
    rewrite !(lookup_insert_ne _ "pinnacle_after") by discriminate.
    rewrite !(lookup_insert_ne _ "pinnacle_before") by discriminate.
    rewrite !(lookup_insert_ne _ "sportbook") by discriminate.
    now rewrite lookup_insert_eq. }
  assert (Hpn : get (dome_order payload subscription_id received_at)
                  "pinnacle_after" = VNone).
  { unfold get, dome_order. rewrite !(lookup_insert_ne _ "pinnacle_sportbook") by discriminate.
    now rewrite lookup_insert_eq. }
  split; [exact Ht|]. split; [|split; [exact Hpm|split; [exact Hpn|]]].
  - rewrite is_recent_iff. unfold retention_age. now rewrite Ht.
  - unfold has_any_after. now rewrite Hpm, Hpn.
Qed.

End StreamedOrderFacts.

(* ================================================================== *)
(** * Further examples *)
(* ================================================================== *)

Section MoreExamples.
Import Py Analyzer3 Main Samples Batch CacheOnly IndexLoad LiveLookup Deltas
  League MoreSamples.

(** X1, on the sample fills. *)
Lemma dedup_idempotent_witness :
  deduplicate_fills [fill_a; unkeyed_fill; fill_b; unkeyed_fill]
  = Some [fill_a; unkeyed_fill; fill_b; unkeyed_fill].
Proof.
  apply (deduplicate_fills_idempotent mixed_fills).
  vm_cast_no_check (eq_refl (Some [fill_a; unkeyed_fill; fill_b; unkeyed_fill])).
Defined.

(** X2, on the sample fills. *)
Lemma dedup_keeps_head_witness :
  exists res,
    deduplicate_fills mixed_fills = Some res
    /\ (length res <= length mixed_fills)%nat
    /\ head res = head mixed_fills
    /\ (res = [] <-> mixed_fills = []).
Proof. exact (deduplicate_fills_keeps_head mixed_fills mixed_fills_keys). Defined.

(** X3: one fill whose trade data is text voids the whole list. *)
Lemma malformed_fill_witness :
  deduplicate_fills [fill_b; broken_fill; fill_a] = None.
Proof.
  apply (malformed_fill_aborts_deduplication _ broken_fill (VStr "{}")).
  - right. now left.
  - vm_cast_no_check (eq_refl (Some (VStr "{}"))).
  - reflexivity.
Defined.

(** X4, at the sample clock and one hour later. *)
Lemma later_cleanup_witness :
  cleanup_old_orders (clock + 3600)
    (cleanup_old_orders clock [streamed_order; nth_order 0])
  = cleanup_old_orders (clock + 3600) [streamed_order; nth_order 0]
  /\ cleanup_old_orders clock
       (cleanup_old_orders clock [streamed_order; nth_order 0])
     = cleanup_old_orders clock [streamed_order; nth_order 0].
Proof.
  apply (later_cleanup_subsumes_earlier clock (clock + 3600)).
  apply Qle_bool_iff. vm_compute. reflexivity.
Defined.

(** X5, for midnight of 1 January 2024. *)
Lemma millisecond_epoch_witness :
  (_get_order_time_for_retention seconds_order == inject_Z 1704067200)%Q
  /\ (10 ^ 9 < 1704067200 ->
      (_get_order_time_for_retention milliseconds_order
       == _get_order_time_for_retention seconds_order)%Q)
  /\ (1704067200 <= 10 ^ 9 ->
      (_get_order_time_for_retention milliseconds_order
       == 1000 * _get_order_time_for_retention seconds_order)%Q).
Proof.
  apply (millisecond_epoch_normalised seconds_order milliseconds_order 1704067200).
  - reflexivity.
  - reflexivity.
  - reflexivity.
  - reflexivity.
  - lia.
Defined.

(** X6: the streamed order written beside an older entry. *)
Lemma stored_order_witness :
  let h' := store_order_in_history clock streamed_order [nth_order 0] in
  length h' = S (length (cleanup_old_orders clock [nth_order 0]))
  /\ (exists i, find_existing (order_id_of streamed_order) 0 h' = Some i
                /\ h' !! i = Some streamed_order)
  /\ (forall e, In e h' <->
        e = streamed_order \/ In e (cleanup_old_orders clock [nth_order 0]))
  /\ cleanup_old_orders clock h' = h'.
Proof.
  assert (E : cleanup_old_orders clock [nth_order 0] = [nth_order 0])
    by (vm_cast_no_check (eq_refl [nth_order 0])).
  apply (stored_order_is_found clock streamed_order [nth_order 0]).
  - vm_compute. reflexivity.
  - rewrite E. intros e [<-|[]]. vm_compute. discriminate.
  - rewrite E. cbn. lia.
Defined.

(** X7, on the same write. *)
Lemma store_distinct_ids_witness :
  List.NoDup (map order_id_of
                (store_order_in_history clock streamed_order [nth_order 0]))
  /\ In (order_id_of streamed_order)
        (map order_id_of
           (upsert streamed_order (cleanup_old_orders clock [nth_order 0]))).
Proof.
  apply (store_keeps_ids_distinct clock streamed_order [nth_order 0]).
  - exists (VStr "0xfeed"). vm_cast_no_check (eq_refl (Some (VStr "0xfeed"))).
  - exists (VInt 7). vm_cast_no_check (eq_refl (Some (VInt 7))).
  - repeat constructor. intros [].
Defined.

(** X9: the 120-second task of the streamed order, with no after data. *)
Lemma final_retry_witness :
  let st' := update_polymarket_after clock "0xfeed_7" 120 None None
               streamed_state in
  pending_updates st' = delete "0xfeed_7" (pending_updates streamed_state)
  /\ forall now' delay' pm' pn',
       update_polymarket_after now' "0xfeed_7" delay' pm' pn' st' = st'.
Proof.
  apply (final_retry_always_settles clock "0xfeed_7" 120 None None
           streamed_state streamed_info (deref streamed_state 0)).
  - vm_cast_no_check (eq_refl (Some streamed_info)).
  - vm_cast_no_check (eq_refl (Some (deref streamed_state 0))).
  - exists 0.45%Q. vm_cast_no_check (eq_refl (Some 0.45%Q)).
  - lia.
Defined.

(** X11: the order whose price is text stays pending after its final
    task. *)
Lemma quoted_price_witness :
  let st' := update_polymarket_after clock "0xfeed_7" 120 (Some after_row)
               None quoted_state in
  pending_updates st' = pending_updates quoted_state
  /\ order_history st' = order_history quoted_state
  /\ emitted st' = emitted quoted_state
  /\ exists o, heap st' !! p_order_data streamed_info = Some o
       /\ get o "polymarket_after" = polymarket_value (Some after_row)
       /\ get o "sportbook" = get (deref quoted_state 0) "sportbook".
Proof.
  apply (non_numeric_price_leaves_order_pending clock "0xfeed_7" 120 after_row
           None quoted_state streamed_info (deref quoted_state 0) 0.44%Q).
  - vm_cast_no_check (eq_refl (Some streamed_info)).
  - vm_cast_no_check (eq_refl (Some (deref quoted_state 0))).
  - vm_cast_no_check (eq_refl (@None Q)).
  - reflexivity.
  - reflexivity.
Defined.

(** X12: a batch holding an order with a null token label. *)
Lemma malformed_order_witness :
  let st' := process_order_batch clock no_before
               [streamed_order; unlabelled_order] initial_state in
  order_history st' = order_history initial_state
  /\ emitted st' = emitted initial_state
  /\ heap st' = heap initial_state ++ [streamed_order; unlabelled_order].
Proof.
  apply (malformed_order_aborts_batch clock no_before
           [streamed_order; unlabelled_order] initial_state unlabelled_order).
  - right. now left.
  - vm_cast_no_check (eq_refl (@None string)).
Defined.

Lemma streamed_order_registers_cleanly : registers_cleanly streamed_order.
Proof.
  split.
  - exists "Wizards"%string. vm_cast_no_check (eq_refl (Some "Wizards"%string)).
  - intros _. exists 1704067200000.
    vm_cast_no_check (eq_refl (Some 1704067200000)).
Qed.

Lemma slugless_order_registers_cleanly : registers_cleanly slugless_order.
Proof.
  split.
  - exists "Wizards"%string. vm_cast_no_check (eq_refl (Some "Wizards"%string)).
  - intros _. exists 1704067200000.
    vm_cast_no_check (eq_refl (Some 1704067200000)).
Qed.

(** X13: a batch of the streamed order and an order without a slug. *)
Lemma registered_orders_witness :
  let st' := process_order_batch clock no_before
               [streamed_order; slugless_order] initial_state in
  scheduled st' = scheduled initial_state
    ++ flat_map delayed_tasks
         (List.filter is_registered [streamed_order; slugless_order])
  /\ (forall od, In od [streamed_order; slugless_order] ->
        is_registered od = true ->
        is_Some (pending_updates st' !! order_id_of od))
  /\ lookups st' = lookups initial_state
  /\ (exists updates,
        emitted st' = emitted initial_state ++ updates
          ++ map (deref st') (seq (length (heap initial_state))
                                  (length [streamed_order; slugless_order])))
  /\ length (heap st')
     = (length (heap initial_state)
        + length [streamed_order; slugless_order])%nat.
Proof.
  apply (registered_orders_get_three_tasks clock no_before
           [streamed_order; slugless_order] initial_state).
  constructor; [apply streamed_order_registers_cleanly|].
  constructor; [apply slugless_order_registers_cleanly|constructor].
Defined.

(** X14: the order without a slug is stored and emitted, nothing more. *)
Lemma unregistered_orders_witness :
  process_order_batch clock no_before [slugless_order] initial_state
  = {| heap := heap initial_state ++ [slugless_order];
       pending_updates := pending_updates initial_state;
       order_history :=
         store_batch clock [slugless_order] (order_history initial_state);
       emitted := emitted initial_state ++ [slugless_order];
       scheduled := scheduled initial_state;
       lookups := lookups initial_state |}.
Proof.
  apply (unregistered_orders_are_only_stored clock no_before [slugless_order]
           initial_state).
  - constructor; [apply slugless_order_registers_cleanly|constructor].
  - constructor; [|constructor]. vm_cast_no_check (eq_refl false).
Defined.

Lemma fill_a_distinct : distinct_keys [fill_a].
Proof. constructor; [intros g k k' []|constructor]. Qed.

(** X15: the fetch [fill_b; fill_a_again] merged into a cache holding
    [fill_a]. *)
Lemma incremental_merge_witness :
  Permutation [fill_b; fill_a]
    ([fill_a] ++ unique_from (seen_after [] [fill_a]) keyed_fetch)
  /\ (forall f, In f [fill_a] -> In f [fill_b; fill_a])
  /\ (forall f, In f [fill_b; fill_a] -> In f [fill_a] \/ In f keyed_fetch)
  /\ distinct_keys [fill_b; fill_a]
  /\ Sorted (not_below fill_lt) [fill_b; fill_a].
Proof.
  apply (incremental_merge_keeps_the_cache clock [fill_a] keyed_fetch).
  - vm_compute. reflexivity.
  - apply fill_a_distinct.
  - vm_cast_no_check (eq_refl (Some [fill_b; fill_a])).
Defined.

(** X16, on a cache of the two sample trades. *)
Lemma incremental_last_id_witness :
  exists r,
    incremental_last_id [fill_b; fill_a] = Some r
    /\ (forall f n, In f [fill_b; fill_a] -> trade_id f = Some (VInt n) ->
          n <> 0 ->
          exists m, r = VInt m /\ n <= m
                    /\ exists g, In g [fill_b; fill_a]
                                 /\ trade_id g = Some (VInt m))
    /\ ((forall f, In f [fill_b; fill_a] -> trade_id f = Some (VInt 0)) ->
        r = VNone).
Proof.
  apply (incremental_last_id_is_largest [fill_b; fill_a]).
  constructor; [exists 102; vm_cast_no_check (eq_refl (Some (VInt 102)))|].
  constructor; [exists 101; vm_cast_no_check (eq_refl (Some (VInt 101)))|].
  constructor.
Defined.

(** X17, with the cutoff one minute after the sample clock: every sample
    fill is older. *)
Lemma cached_filter_witness :
  exists shown kept,
    cached_hours_loop (clock + 60) [fill_a; unkeyed_fill; fill_b] [] = Some shown
    /\ hours_loop (clock + 60) [fill_a; unkeyed_fill; fill_b] [] = Some kept
    /\ kept = List.filter has_timestamp shown
    /\ (forall f, In f [fill_a; unkeyed_fill; fill_b] ->
          has_timestamp f = false -> In f shown /\ ~ In f kept).
Proof.
  apply (cached_filter_keeps_untimed_fills (clock + 60)
           [fill_a; unkeyed_fill; fill_b]).
  repeat (constructor; [apply (bool_decide_unpack _); vm_compute; exact I|]).
  constructor.
Defined.

(** X19, for the two sample trades and a fill without timestamp. *)
Lemma slug_range_witness :
  (forall f t, In f [fill_a; unkeyed_fill; fill_b] ->
     get f "timestamp_ms" = VInt t -> t <> 0 ->
     (1704067210000 - 300000 <= inject_Z (t - time_window_ms))%Q
     /\ (inject_Z (t + time_window_ms) <= 1704067220000 + 300000)%Q)
  /\ (exists f q, In f [fill_a; unkeyed_fill; fill_b]
        /\ numeric (get f "timestamp_ms") = Some q
        /\ (1704067210000 - 300000)%Q = (q - inject_Z buffer_ms)%Q)
  /\ (exists f q, In f [fill_a; unkeyed_fill; fill_b]
        /\ numeric (get f "timestamp_ms") = Some q
        /\ (1704067220000 + 300000)%Q = (q + inject_Z buffer_ms)%Q).
Proof.
  apply (slug_range_covers_every_lookup_window [fill_a; unkeyed_fill; fill_b]).
  vm_cast_no_check
    (eq_refl (Some (Some ((1704067210000 - 300000)%Q,
                          (1704067220000 + 300000)%Q)))).
Defined.

Lemma quotes_complete :
  Forall (fun r => is_Some (r_timestamp_ms r) /\ is_Some (r_bbo r)) quotes.
Proof. repeat (constructor; [split; eexists; reflexivity|]). constructor. Qed.

(** X20: of the three sample rows only the one at [999000.25] lies
    strictly before the fill at [1000000]. *)
Lemma live_before_witness :
  match polymarket_before_of quotes 1000000 with
  | Some b =>
      exists r ts,
        In r quotes /\ r_timestamp_ms r = Some ts
        /\ (ts < inject_Z 1000000)%Q
        /\ (forall r' ts', In r' quotes -> r_timestamp_ms r' = Some ts' ->
              (ts' < inject_Z 1000000)%Q -> (ts' <= ts)%Q)
        /\ r_bbo r = Some (pm_bbo b)
        /\ pm_seconds_from_fill b
           = py_round ((inject_Z 1000000 - ts) / 1000) 3
        /\ (0 <= pm_seconds_from_fill b)%Q
  | None =>
      forall r ts, In r quotes -> r_timestamp_ms r = Some ts ->
                   (inject_Z 1000000 <= ts)%Q
  end.
Proof. exact (live_before_is_latest_strictly_before quotes 1000000 quotes_complete). Defined.

(** X21, on the same rows. *)
Lemma live_after_witness :
  match polymarket_after_of quotes 1000000 with
  | Some a =>
      exists r ts,
        In r quotes /\ r_timestamp_ms r = Some ts
        /\ (forall r' ts', In r' quotes -> r_timestamp_ms r' = Some ts' ->
              (ts <= ts')%Q)
        /\ r_bbo r = Some (pm_bbo a)
        /\ pm_seconds_from_fill a
           = py_round ((ts - inject_Z 1000000) / 1000) 3
  | None => quotes = []
  end.
Proof. exact (live_after_is_earliest_returned quotes 1000000 quotes_complete). Defined.

(** X22: one row without a timestamp among the sample rows. *)
Lemma null_timestamp_witness :
  polymarket_before_of (quotes ++ [void_quote]) 1000000 = None
  /\ polymarket_after_of (quotes ++ [void_quote]) 1000000 = None.
Proof.
  apply (null_timestamp_voids_live_lookup _ 1000000 void_quote).
  - apply in_or_app. right. now left.
  - reflexivity.
Defined.

(** X23: the lookup for the fill at [2000] selects the same records
    whether or not the lookup for the fill at [1000] ran before it. *)
Lemma deltas_selection_witness :
  same_rows lines first_lookup.2
  /\ exists data2',
       get_deltas_data "lal" 2000 first_lookup.2 = Some (lone_lookup.1, data2').
Proof.
  apply (deltas_lookup_selection_ignores_earlier_lookups "LAL" "lal" 1000 2000
           lines first_lookup.1 first_lookup.2 lone_lookup.1 lone_lookup.2).
  - vm_cast_no_check (eq_refl (Some (first_lookup.1, first_lookup.2))).
  - vm_cast_no_check (eq_refl (Some (lone_lookup.1, lone_lookup.2))).
Defined.

(** X24, for the fill at [1000]. *)
Lemma deltas_before_witness :
  match deltas_before first_lookup.1 with
  | Some i =>
      exists r, lines !! i = Some r
        /\ is_team_match r "LAL" = Some true
        /\ d_timestamp_ms r < 1000
        /\ forall (j : nat) r', lines !! j = Some r' ->
             is_team_match r' "LAL" = Some true ->
             d_timestamp_ms r' < 1000 -> d_timestamp_ms r' <= d_timestamp_ms r
  | None =>
      forall (j : nat) r', lines !! j = Some r' ->
        is_team_match r' "LAL" = Some true -> 1000 <= d_timestamp_ms r'
  end.
Proof.
  apply (deltas_before_is_latest_earlier_record "LAL" 1000 lines
           first_lookup.1 first_lookup.2).
  vm_cast_no_check (eq_refl (Some (first_lookup.1, first_lookup.2))).
Defined.

(** X25: the fills at [1000] and [2000] are both given the line of
    [900]; once the second lookup has run, both show 1.1 s. *)
Lemma shared_record_witness :
  shown_seconds first_lookup.2 0
  = Some (inject_Z (1000 - timestamp_at lines 0) / 1000)%Q
  /\ shown_seconds second_lookup.2 0
     = Some (inject_Z (2000 - timestamp_at lines 0) / 1000)%Q
  /\ (1000 <> 2000 ->
      shown_seconds second_lookup.2 0 <> shown_seconds first_lookup.2 0).
Proof.
  apply (later_lookup_rewrites_shared_deltas_record "LAL" "lal" 1000 2000
           lines first_lookup.1 first_lookup.2 second_lookup.1 second_lookup.2 0).
  - vm_cast_no_check (eq_refl (Some (first_lookup.1, first_lookup.2))).
  - vm_cast_no_check (eq_refl (Some (second_lookup.1, second_lookup.2))).
  - reflexivity.
  - reflexivity.
Defined.

(** X27, for the streamed sample order at the sample clock. *)
Lemma streamed_order_age_witness :
  let o := dome_order payload (VStr "sub-1") "2024-01-01T00:00:01+00:00" in
  _get_order_time_for_retention o = inject_Z (new_year_2024 + 1)
  /\ (is_recent clock o = true
      <-> (clock - inject_Z (new_year_2024 + 1) < horizon_seconds)%Q)
  /\ get o "polymarket_after" = VNone /\ get o "pinnacle_after" = VNone
  /\ has_any_after o = false.
Proof.
  apply (streamed_order_ages_from_reception payload (VStr "sub-1")
           "2024-01-01T00:00:01+00:00" (inject_Z (new_year_2024 + 1)) clock).
  - discriminate.
  - vm_cast_no_check (eq_refl (Some (inject_Z (new_year_2024 + 1)))).
Defined.

End MoreExamples.
